(** * ZTools: the WebDAV sync client, the revision generator and the sync cycle

    A shallow embedding of [WebDAVSyncClient] (main/core/sync), of the record
    types of [sync/types.ts], and of what the client calls: the JavaScript
    built-ins ([encodeURIComponent], [decodeURIComponent], [JSON.stringify],
    [JSON.parse], [String.prototype.replace], [String.prototype.endsWith])
    and the [webdav] package in front of a server.  The revision generator
    and the sync cycle, whose sources are not at hand, are modelled from the
    specification.

    Conventions.
    - A JavaScript string is a [string]: the sequence of the bytes of its
      UTF-8 encoding.  ASCII characters are one byte each, so every literal
      of the client is represented exactly.  Only well-formed strings have
      such an image: a string with a lone surrogate, on which
      [encodeURIComponent] throws, has none.
    - A [Promise] that rejects, and a [throw], are the [Err] branch of the
      client monad [M]; [await] is its bind.  Logging to the console is
      left out.
    - The remote server and the requests sent to it are explicit state. *)

From Stdlib Require Import ZArith NArith Ascii DecimalString DecimalZ DecimalPos DecimalN DecimalFacts.
From stdpp Require Import base option list strings gmap fin_maps.

Local Open Scope char_scope.
Local Open Scope stdpp_scope.

(* ===================================================================== *)
(** * JavaScript built-ins on strings *)
(* ===================================================================== *)

Module JS.

Definition code (c : ascii) : N := N_of_ascii c.

Definition in_range (lo hi : N) (c : ascii) : bool :=
  ((lo <=? code c) && (code c <=? hi))%N.

Definition is_digit (c : ascii) : bool := in_range 48 57 c.
Definition is_alpha (c : ascii) : bool := in_range 65 90 c || in_range 97 122 c.

Fixpoint mem_char (c : ascii) (s : string) : bool :=
  match s with
  | EmptyString => false
  | String d r => Ascii.eqb c d || mem_char c r
  end.

(** ECMAScript's [uriUnescaped] set with an empty extra set: letters,
    digits and the marks [- _ . ! ~ * ' ( )]. *)
Definition uriUnreserved (c : ascii) : bool :=
  is_alpha c || is_digit c || mem_char c "-_.!~*'()".

Definition nth_char (s : string) (n : N) : ascii :=
  match String.get (N.to_nat n) s with Some c => c | None => "0" end.

Definition hex_upper : N -> ascii := nth_char "0123456789ABCDEF".
Definition hex_lower : N -> ascii := nth_char "0123456789abcdef".

(** The value of a hexadecimal digit, either case. *)
Definition hex_val (c : ascii) : option N :=
  if is_digit c then Some (code c - 48)%N
  else if in_range 65 70 c then Some (code c - 55)%N
  else if in_range 97 102 c then Some (code c - 87)%N
  else None.

Definition hex_byte (h l : ascii) : option ascii :=
  match hex_val h, hex_val l with
  | Some a, Some b => Some (ascii_of_N (16 * a + b))
  | _, _ => None
  end.

(** [encodeURIComponent]: every byte of the UTF-8 encoding that is not an
    unreserved character becomes [%XX], with upper-case digits. *)
Fixpoint encodeURIComponent (s : string) : string :=
  match s with
  | EmptyString => EmptyString
  | String c r =>
      if uriUnreserved c then String c (encodeURIComponent r)
      else String "%" (String (hex_upper (code c / 16))
                      (String (hex_upper (code c mod 16)) (encodeURIComponent r)))
  end.

(** [decodeURIComponent] in two passes.  [unescape] reads the escapes: a
    [%] must be followed by two hexadecimal digits.  Each byte is tagged with
    whether it came from an escape. *)
Fixpoint unescape (s : string) : option (list (bool * ascii)) :=
  match s with
  | EmptyString => Some []
  | String c r =>
      if Ascii.eqb c "%" then
        match r with
        | String h (String l r') =>
            match hex_byte h l, unescape r' with
            | Some b, Some bs => Some ((true, b) :: bs)
            | _, _ => None
            end
        | _ => None
        end
      else
        match unescape r with
        | Some bs => Some ((false, c) :: bs)
        | None => None
        end
  end.

Definition is_cont (lo hi : N) (t : bool * ascii) : bool :=
  fst t && in_range lo hi (snd t).

(** The second pass: an escaped byte of 128 or more must start a
    well-formed UTF-8 sequence (Unicode, table 3-7) whose other bytes are
    escapes too; otherwise [decodeURIComponent] throws a [URIError]. *)
Fixpoint escapes_well_formed (l : list (bool * ascii)) : bool :=
  match l with
  | [] => true
  | (false, _) :: r => escapes_well_formed r
  | (true, b) :: r =>
      if (code b <? 128)%N then escapes_well_formed r
      else if in_range 194 223 b then
        match r with
        | t1 :: r1 => is_cont 128 191 t1 && escapes_well_formed r1
        | _ => false
        end
      else if in_range 224 239 b then
        match r with
        | t1 :: t2 :: r2 =>
            is_cont (if (code b =? 224)%N then 160 else 128)
                    (if (code b =? 237)%N then 159 else 191) t1
            && is_cont 128 191 t2 && escapes_well_formed r2
        | _ => false
        end
      else if in_range 240 244 b then
        match r with
        | t1 :: t2 :: t3 :: r3 =>
            is_cont (if (code b =? 240)%N then 144 else 128)
                    (if (code b =? 244)%N then 143 else 191) t1
            && is_cont 128 191 t2 && is_cont 128 191 t3 && escapes_well_formed r3
        | _ => false
        end
      else false
  end.

Fixpoint string_of_bytes (l : list ascii) : string :=
  match l with
  | [] => EmptyString
  | c :: r => String c (string_of_bytes r)
  end.

Definition decodeURIComponent (s : string) : option string :=
  match unescape s with
  | Some bs => if escapes_well_formed bs then Some (string_of_bytes (bs.*2)) else None
  | None => None
  end.

(** [s.endsWith(suffix)]. *)
Fixpoint starts_with (p s : string) : bool :=
  match p, s with
  | EmptyString, _ => true
  | String a p', String b s' => Ascii.eqb a b && starts_with p' s'
  | String _ _, EmptyString => false
  end.

Fixpoint drop (n : nat) (s : string) : string :=
  match n, s with
  | S n', String _ r => drop n' r
  | _, _ => s
  end.

Definition endsWith (s suffix : string) : bool :=
  (String.length suffix <=? String.length s)%nat
  && String.eqb (drop (String.length s - String.length suffix) s) suffix.

(** [s.replace(pattern, replacement)] with a string pattern: only the
    first occurrence of the pattern is replaced. *)
Fixpoint replace (pattern replacement s : string) : string :=
  if starts_with pattern s then replacement +:+ drop (String.length pattern) s
  else match s with
       | EmptyString => EmptyString
       | String c r => String c (replace pattern replacement r)
       end.

(** The bytes are well-formed UTF-8: the text of some JavaScript string. *)
Definition utf8_valid (s : string) : bool :=
  escapes_well_formed (pair true <$> String.list_ascii_of_string s).

Fixpoint all_chars (P : ascii -> bool) (s : string) : bool :=
  match s with
  | EmptyString => true
  | String c r => P c && all_chars P r
  end.

(** A character of one byte. *)
Definition is_ascii (c : ascii) : bool := (code c <? 128)%N.

(** The decimal digits a string starts with, and the integer a string of
    digits denotes. *)
Fixpoint take_digits (s : string) : string :=
  match s with
  | EmptyString => EmptyString
  | String c r => if is_digit c then String c (take_digits r) else EmptyString
  end.

Fixpoint digits_value_from (acc : N) (s : string) : N :=
  match s with
  | EmptyString => acc
  | String c r => digits_value_from (10 * acc + (code c - 48))%N r
  end.

Definition digits_value : string -> N := digits_value_from 0.

(** [s.split(pattern).join(replacement)] for a pattern that is not empty,
    and [s.replace(/pattern/g, replacement)] for a pattern that is plain
    text: every occurrence, from the left, none overlapping another.
    [skip] is what is left to pass of the occurrence just replaced. *)
Fixpoint replaceAll_from (skip : nat) (pattern replacement s : string) : string :=
  match s with
  | EmptyString => EmptyString
  | String c r =>
      match skip with
      | S k => replaceAll_from k pattern replacement r
      | O =>
          if starts_with pattern s
          then replacement +:+ replaceAll_from (String.length pattern - 1) pattern replacement r
          else String c (replaceAll_from 0 pattern replacement r)
      end
  end.

Definition replaceAll : string -> string -> string -> string := replaceAll_from 0.

(** The replacement character U+FFFD and the byte order mark U+FEFF. *)
Definition replacement_character : string := String "239" (String "191" (String "189" EmptyString)).
Definition byte_order_mark : string := String "239" (String "187" (String "191" EmptyString)).

(** The UTF-8 decoder of the Encoding standard, on the bytes of a body:
    a well-formed sequence is kept, and each maximal part of an ill-formed
    one becomes U+FFFD.  The ranges are those of [escapes_well_formed]. *)
Fixpoint utf8_decode (s : string) : string :=
  let bad (rest : string) := replacement_character +:+ rest in
  match s with
  | EmptyString => EmptyString
  | String b r =>
      if (code b <? 128)%N then String b (utf8_decode r)
      else if in_range 194 223 b then
        match r with
        | String t1 r1 =>
            if in_range 128 191 t1 then String b (String t1 (utf8_decode r1))
            else bad (utf8_decode r)
        | EmptyString => bad EmptyString
        end
      else if in_range 224 239 b then
        match r with
        | String t1 r1 =>
            if in_range (if (code b =? 224)%N then 160 else 128)
                        (if (code b =? 237)%N then 159 else 191) t1
            then
              match r1 with
              | String t2 r2 =>
                  if in_range 128 191 t2
                  then String b (String t1 (String t2 (utf8_decode r2)))
                  else bad (utf8_decode r1)
              | EmptyString => bad EmptyString
              end
            else bad (utf8_decode r)
        | EmptyString => bad EmptyString
        end
      else if in_range 240 244 b then
        match r with
        | String t1 r1 =>
            if in_range (if (code b =? 240)%N then 144 else 128)
                        (if (code b =? 244)%N then 143 else 191) t1
            then
              match r1 with
              | String t2 r2 =>
                  if in_range 128 191 t2 then
                    match r2 with
                    | String t3 r3 =>
                        if in_range 128 191 t3
                        then String b (String t1 (String t2 (String t3 (utf8_decode r3))))
                        else bad (utf8_decode r2)
                    | EmptyString => bad EmptyString
                    end
                  else bad (utf8_decode r1)
              | EmptyString => bad EmptyString
              end
            else bad (utf8_decode r)
        | EmptyString => bad EmptyString
        end
      else bad (utf8_decode r)
  end.

(** [response.text()]: the body decoded as UTF-8, without a leading byte
    order mark. *)
Definition text_of_bytes (body : string) : string :=
  utf8_decode (if starts_with byte_order_mark body then drop 3 body else body).

End JS.

(* ===================================================================== *)
(** * Numbers *)
(* ===================================================================== *)

(** The Number values a JSON text can denote, by exact integer arithmetic:
    the rounding of a decimal to the nearest binary64 value
    ([StringToNumber]) and the shortest decimal that rounds to a given
    value ([Number::toString]). *)
Module Number.
Local Open Scope Z_scope.

(** A binary64 magnitude: zero, the finite value [M * 2^E] with
    [0 < M < 2^53] and [-1074 <= E <= 971], or infinity. *)
Inductive double : Type :=
  | Zero
  | Finite (M E : Z)
  | Infinite.

Definition double_eqb (a b : double) : bool :=
  match a, b with
  | Zero, Zero => true
  | Finite M E, Finite M' E' => (M =? M') && (E =? E')
  | Infinite, Infinite => true
  | _, _ => false
  end.

(** [num/den >= b^k]. *)
Definition ge_pow (b : Z) (num den k : Z) : bool :=
  if 0 <=? k then den * b ^ k <=? num else den <=? num * b ^ (- k).

(** The fraction [m * 10^e]. *)
Definition fraction (m e : Z) : Z * Z :=
  if 0 <=? e then (m * 10 ^ e, 1) else (m, 10 ^ (- e)).

(** [num/den] rounded to the nearest integer, a tie to the even one. *)
Definition round_half_even (num den : Z) : Z :=
  let q := num / den in
  let r := num mod den in
  if 2 * r <? den then q
  else if den <? 2 * r then q + 1
  else if Z.even q then q else q + 1.

(** The Number value of the positive fraction [num/den]. *)
Definition round (num den : Z) : double :=
  let b0 := Z.log2 num - Z.log2 den in
  let b := if ge_pow 2 num den b0 then b0 else b0 - 1 in
  let E := Z.max (b - 52) (-1074) in
  let M := if 0 <=? E then round_half_even num (den * 2 ^ E)
           else round_half_even (num * 2 ^ (- E)) den in
  let '(M, E) := if M =? 2 ^ 53 then (2 ^ 52, E + 1) else (M, E) in
  if M =? 0 then Zero else if 971 <? E then Infinite else Finite M E.

(** The number of decimal digits of a positive integer. *)
Definition digits (m : Z) : Z :=
  Z.of_nat (String.length (NilZero.string_of_int (Z.to_int m))).

(** The Number value of [m * 10^e], for [m > 0].  Beyond [10^400] and
    below [10^-400] the outcome is known without the power. *)
Definition to_double (m e : Z) : double :=
  if 400 <? e then Infinite
  else if digits m + e <? -400 then Zero
  else let '(num, den) := fraction m e in round num den.

(** The place of the first digit of [num/den]: the [n] with
    [10^(n-1) <= num/den < 10^n], found from an estimate below it. *)
Fixpoint place_from (fuel : nat) (num den n : Z) : Z :=
  match fuel with
  | O => n
  | S f => if ge_pow 10 num den n then place_from f num den (n + 1) else n
  end.

Definition place (num den : Z) : Z :=
  let b := Z.log2 num - Z.log2 den in
  place_from 8 num den ((b - 1) * 30103 / 100000 - 1).

(** The decimals of [k] digits next to [num/den], the one below and the
    one above: each the integer [s] and the power [q] of [s * 10^q]. *)
Definition below (num den n k : Z) : Z * Z :=
  let q := n - k in
  let s := if 0 <=? q then num / (den * 10 ^ q) else (num * 10 ^ (- q)) / den in
  (s, q).

Definition above (num den n k : Z) : Z * Z :=
  let '(s, q) := below num den n k in
  if s + 1 =? 10 ^ k then (10 ^ (k - 1), q + 1) else (s + 1, q).

(** The distance from [num/den] to the first decimal minus that to the
    second, scaled to an integer: negative when the first is nearer. *)
Definition nearer (num den : Z) (c1 c2 : Z * Z) : Z :=
  let scale := Z.max 0 (- Z.min (snd c1) (snd c2)) in
  let dist (c : Z * Z) :=
    Z.abs (fst c * 10 ^ (snd c + scale) * den - num * 10 ^ scale) in
  dist c1 - dist c2.

(** The search of [Number::toString]: the least number of digits [k] for
    which a decimal of [k] digits has the Number value [x]; of two such
    decimals the nearer, of two equally near the even one. *)
Fixpoint shortest_from (fuel : nat) (x : double) (num den n k : Z) : Z * Z :=
  let lo := below num den n k in
  let hi := above num den n k in
  let ok (c : Z * Z) := (0 <? fst c) && double_eqb (to_double (fst c) (snd c)) x in
  match fuel with
  | O => lo
  | S f =>
      match ok lo, ok hi with
      | true, true =>
          let d := nearer num den lo hi in
          if d <? 0 then lo else if 0 <? d then hi
          else if Z.even (fst lo) then lo else hi
      | true, false => lo
      | false, true => hi
      | false, false => shortest_from f x num den n (k + 1)
      end
  end.

(** Trailing zeros of the integer go to the power. *)
Fixpoint strip_from (fuel : nat) (m e : Z) : Z * Z :=
  match fuel with
  | O => (m, e)
  | S f => if (m mod 10 =? 0) && (0 <? m) then strip_from f (m / 10) (e + 1) else (m, e)
  end.

Definition strip (m e : Z) : Z * Z := strip_from (Z.to_nat (Z.log2 m)) m e.

(** The shortest decimal [s * 10^q] whose Number value is the finite
    [M * 2^E]; [s] does not end in zero. *)
Definition shortest (M E : Z) : Z * Z :=
  let '(num, den) := if 0 <=? E then (M * 2 ^ E, 1) else (M, 2 ^ (- E)) in
  let '(s, q) := shortest_from 17 (Finite M E) num den (place num den) 1 in
  strip s q.

(** An integer a Number holds exactly and prints digit by digit. *)
Definition safe_integer (m e : Z) : bool :=
  (0 <=? e) && (e <=? 15) && (m * 10 ^ e <=? 9007199254740992).

End Number.

(* ===================================================================== *)
(** * JSON values, [JSON.stringify(v, null, 2)] and [JSON.parse] *)
(* ===================================================================== *)

(** The values a document can hold.  A number is written as a decimal:
    [JNum n] is the integer [n], which a Number holds exactly up to
    [2^53]; [JDec neg m e] is the Number value of [(-1)^neg * m * 10^e],
    for the numbers that are not such integers.  [JSON.canonical] gives
    the one way each Number is written: with the fewest digits, negative
    zero as [JDec true 0 0], an infinity as [JDec neg 1 309].  The members
    of an object are kept in property order. *)
#[warnings="-register-all"]
Inductive json : Type :=
  | JNull
  | JBool (b : bool)
  | JNum (n : Z)
  | JDec (neg : bool) (m e : Z)
  | JStr (s : string)
  | JArr (items : list json)
  | JObj (members : list (string * json)).

(** Structural equality of two values. *)
Fixpoint json_eqb (a b : json) {struct a} : bool :=
  match a, b with
  | JNull, JNull => true
  | JBool x, JBool y => Bool.eqb x y
  | JNum x, JNum y => Z.eqb x y
  | JDec s m e, JDec s' m' e' => Bool.eqb s s' && Z.eqb m m' && Z.eqb e e'
  | JStr x, JStr y => String.eqb x y
  | JArr l, JArr l' =>
      (fix go (l l' : list json) : bool :=
         match l, l' with
         | [], [] => true
         | x :: xs, y :: ys => json_eqb x y && go xs ys
         | _, _ => false
         end) l l'
  | JObj l, JObj l' =>
      (fix go (l l' : list (string * json)) : bool :=
         match l, l' with
         | [], [] => true
         | (k, x) :: xs, (k', y) :: ys => String.eqb k k' && json_eqb x y && go xs ys
         | _, _ => false
         end) l l'
  | _, _ => false
  end.

(** Induction on values, with the hypothesis for every item of an array
    and every member of an object. *)
Section json_rect.
Variable P : json -> Prop.
Hypothesis Hnull : P JNull.
Hypothesis Hbool : forall b, P (JBool b).
Hypothesis Hnum : forall n, P (JNum n).
Hypothesis Hdec : forall neg m e, P (JDec neg m e).
Hypothesis Hstr : forall s, P (JStr s).
Hypothesis Harr : forall l, Forall P l -> P (JArr l).
Hypothesis Hobj : forall l, Forall (fun kv => P (snd kv)) l -> P (JObj l).

Fixpoint json_nested_ind (v : json) : P v :=
  match v with
  | JNull => Hnull
  | JBool b => Hbool b
  | JNum n => Hnum n
  | JDec neg m e => Hdec neg m e
  | JStr s => Hstr s
  | JArr l =>
      Harr l ((fix go (l : list json) : Forall P l :=
                 match l with
                 | [] => @List.Forall_nil _ P
                 | x :: xs => @List.Forall_cons _ P x xs (json_nested_ind x) (go xs)
                 end) l)
  | JObj l =>
      Hobj l ((fix go (l : list (string * json)) : Forall (fun kv => P (snd kv)) l :=
                 match l with
                 | [] => @List.Forall_nil _ _
                 | (k, x) :: xs => @List.Forall_cons _ (fun kv => P (snd kv)) (k, x) xs (json_nested_ind x) (go xs)
                 end) l)
  end.
End json_rect.

Module JSON.

Definition nl : string := String "010" EmptyString.
Definition dquote : ascii := "034".
Definition backslash : ascii := "\".

Definition string_of_Z (n : Z) : string := NilZero.string_of_int (Z.to_int n).

(** ** Numbers and their text *)

Fixpoint zeros (n : nat) : string :=
  match n with
  | O => EmptyString
  | S k => String "0" (zeros k)
  end.

Fixpoint prefix (n : nat) (s : string) : string :=
  match n, s with
  | S n', String c r => String c (prefix n' r)
  | _, _ => EmptyString
  end.

(** The Number with the value of [(-1)^neg * m * 10^e], [m >= 0], as the
    model writes it. *)
Definition canonical (neg : bool) (m e : Z) : json :=
  let signed (v : Z) := JNum (if neg then - v else v) in
  let zero := if neg then JDec true 0 0 else JNum 0 in
  if (m <=? 0)%Z then zero
  else
    let '(m1, e1) := Number.strip m e in
    if Number.safe_integer m1 e1 then signed (m1 * 10 ^ e1)%Z
    else
      match Number.to_double m1 e1 with
      | Number.Zero => zero
      | Number.Infinite => JDec neg 1 309
      | Number.Finite M E =>
          let '(s, q) := Number.shortest M E in
          if Number.safe_integer s q then signed (s * 10 ^ q)%Z else JDec neg s q
      end.

(** The exponent part of a number in exponent form: [e], the sign, the
    digits. *)
Definition exponent_text (x : Z) : string :=
  "e" +:+ (if (x <? 0)%Z then "-" else "+") +:+ string_of_Z (Z.abs x).

(** [Number::toString] on the shortest decimal [s * 10^q] of a finite
    value that is not zero: plain digits while the first digit is at a
    place from -6 to 21, the exponent form beyond. *)
Definition decimal_text (s q : Z) : string :=
  let ds := string_of_Z s in
  let k := String.length ds in
  let n := (Z.of_nat k + q)%Z in
  if (Z.of_nat k <=? n)%Z && (n <=? 21)%Z then ds +:+ zeros (Z.to_nat q)
  else if (0 <? n)%Z && (n <=? 21)%Z
  then prefix (Z.to_nat n) ds +:+ "." +:+ JS.drop (Z.to_nat n) ds
  else if (-6 <? n)%Z && (n <=? 0)%Z then "0." +:+ zeros (Z.to_nat (- n)) +:+ ds
  else
    if (k =? 1)%nat then ds +:+ exponent_text (n - 1)
    else prefix 1 ds +:+ "." +:+ JS.drop 1 ds +:+ exponent_text (n - 1).

(** The text of the number [JDec neg m e]: [Number::toString] of its
    value; [infinity] is what stands for a value that is not finite. *)
Definition number_text (infinity : bool -> string) (neg : bool) (m e : Z) : string :=
  match canonical neg m e with
  | JNum n => string_of_Z n
  | JDec neg' m' e' =>
      if (m' =? 0)%Z then "0"
      else if (m' =? 1)%Z && (e' =? 309)%Z then infinity neg'
      else (if neg' then "-" else "") +:+ decimal_text m' e'
  | _ => EmptyString
  end.

(** [QuoteJSONString]: the two-character escapes, [\u00xx] for the other
    control characters, every other byte as it is. *)
Definition escape_char (c : ascii) : string :=
  if Ascii.eqb c dquote then String backslash (String dquote EmptyString)
  else if Ascii.eqb c backslash then String backslash (String backslash EmptyString)
  else if Ascii.eqb c "008" then String backslash "b"
  else if Ascii.eqb c "009" then String backslash "t"
  else if Ascii.eqb c "010" then String backslash "n"
  else if Ascii.eqb c "012" then String backslash "f"
  else if Ascii.eqb c "013" then String backslash "r"
  else if (JS.code c <? 32)%N then
    String backslash (String "u" (String "0" (String "0"
      (String (JS.hex_lower (JS.code c / 16))
      (String (JS.hex_lower (JS.code c mod 16)) EmptyString)))))
  else String c EmptyString.

Fixpoint escape (s : string) : string :=
  match s with
  | EmptyString => EmptyString
  | String c r => escape_char c +:+ escape r
  end.

Definition quote (s : string) : string :=
  String dquote (escape s +:+ String dquote EmptyString).

(** A string between quotes, as it is: [lit s] is the text of the literal
    when [s] needs no escape. *)
Definition lit (s : string) : string :=
  String dquote (s +:+ String dquote EmptyString).

(** The elements of an array, each on a line of its own at the inner
    indentation and followed by a comma unless it is the last, then the
    closing bracket at the outer indentation. *)
Fixpoint print_elems (pr : json -> string) (ind ind' : string) (l : list json) : string :=
  match l with
  | [] => nl +:+ ind +:+ "]"
  | x :: xs =>
      nl +:+ ind' +:+ pr x +:+
      match xs with [] => print_elems pr ind ind' xs | _ :: _ => "," +:+ print_elems pr ind ind' xs end
  end.

Fixpoint print_members (pr : json -> string) (ind ind' : string)
    (l : list (string * json)) : string :=
  match l with
  | [] => nl +:+ ind +:+ "}"
  | (k, v) :: xs =>
      nl +:+ ind' +:+ quote k +:+ ": " +:+ pr v +:+
      match xs with [] => print_members pr ind ind' xs | _ :: _ => "," +:+ print_members pr ind ind' xs end
  end.

(** [SerializeJSONProperty] with a gap of two spaces. *)
Fixpoint print (ind : string) (v : json) {struct v} : string :=
  match v with
  | JNull => "null"
  | JBool true => "true"
  | JBool false => "false"
  | JNum n => string_of_Z n
  | JDec neg m e => number_text (fun _ => "null") neg m e
  | JStr s => quote s
  | JArr items =>
      match items with
      | [] => "[]"
      | _ :: _ => "[" +:+ print_elems (print (ind +:+ "  ")) ind (ind +:+ "  ") items
      end
  | JObj members =>
      match members with
      | [] => "{}"
      | _ :: _ => "{" +:+ print_members (print (ind +:+ "  ")) ind (ind +:+ "  ") members
      end
  end.

(** [JSON.stringify(v, null, 2)]. *)
Definition stringify (v : json) : string := print "" v.

(** ** Parsing *)

Definition is_ws (c : ascii) : bool := JS.mem_char c (String " " (String "009" (String "010" (String "013" EmptyString)))).

Fixpoint skip_ws (s : string) : string :=
  match s with
  | EmptyString => EmptyString
  | String c r => if is_ws c then skip_ws r else s
  end.

Definition strip_prefix (p s : string) : option string :=
  if JS.starts_with p s then Some (JS.drop (String.length p) s) else None.

(** UTF-8 bytes of a code point (surrogates are encoded like any other
    code point of their range). *)
Definition utf8 (cp : N) : string :=
  let b (n : N) := ascii_of_N n in
  (if cp <? 128 then String (b cp) EmptyString
   else if cp <? 2048 then
     String (b (192 + cp / 64)) (String (b (128 + cp mod 64)) EmptyString)
   else if cp <? 65536 then
     String (b (224 + cp / 4096))
       (String (b (128 + (cp / 64) mod 64)) (String (b (128 + cp mod 64)) EmptyString))
   else
     String (b (240 + cp / 262144))
       (String (b (128 + (cp / 4096) mod 64))
         (String (b (128 + (cp / 64) mod 64)) (String (b (128 + cp mod 64)) EmptyString))))%N.

Definition hex4 (a b c d : ascii) : option N :=
  match JS.hex_val a, JS.hex_val b, JS.hex_val c, JS.hex_val d with
  | Some x, Some y, Some z, Some w => Some (4096 * x + 256 * y + 16 * z + w)%N
  | _, _, _, _ => None
  end.

Definition simple_escape (e : ascii) : option ascii :=
  if Ascii.eqb e dquote then Some dquote
  else if Ascii.eqb e backslash then Some backslash
  else if Ascii.eqb e "/" then Some "/"%char
  else if Ascii.eqb e "b" then Some "008"%char
  else if Ascii.eqb e "f" then Some "012"%char
  else if Ascii.eqb e "n" then Some "010"%char
  else if Ascii.eqb e "r" then Some "013"%char
  else if Ascii.eqb e "t" then Some "009"%char
  else None.

Definition prepend (p : string) (r : option (string * string)) : option (string * string) :=
  match r with
  | Some (s, rest) => Some (p +:+ s, rest)
  | None => None
  end.

Definition is_high (cu : N) : bool := ((55296 <=? cu) && (cu <=? 56319))%N.
Definition is_low (cu : N) : bool := ((56320 <=? cu) && (cu <=? 57343))%N.

(** The characters of a string literal after its opening quote, up to and
    including the closing quote.  A raw control character is refused. *)
Fixpoint parse_string_body (s : string) : option (string * string) :=
  match s with
  | EmptyString => None
  | String c r =>
      if Ascii.eqb c dquote then Some (EmptyString, r)
      else if Ascii.eqb c backslash then
        match r with
        | EmptyString => None
        | String e r1 =>
            if Ascii.eqb e "u" then
              match r1 with
              | String h1 (String h2 (String h3 (String h4 r4))) =>
                  match hex4 h1 h2 h3 h4 with
                  | None => None
                  | Some hi =>
                      if is_high hi then
                        match r4 with
                        | String b' (String u' (String l1 (String l2 (String l3 (String l4 r10))))) =>
                            match (if Ascii.eqb b' backslash && Ascii.eqb u' "u"
                                   then hex4 l1 l2 l3 l4 else None) with
                            | Some lo =>
                                if is_low lo then
                                  prepend (utf8 (65536 + (hi - 55296) * 1024 + (lo - 56320))%N)
                                          (parse_string_body r10)
                                else prepend (utf8 hi) (parse_string_body r4)
                            | None => prepend (utf8 hi) (parse_string_body r4)
                            end
                        | _ => prepend (utf8 hi) (parse_string_body r4)
                        end
                      else prepend (utf8 hi) (parse_string_body r4)
                  end
              | _ => None
              end
            else
              match simple_escape e with
              | Some c' => prepend (String c' EmptyString) (parse_string_body r1)
              | None => None
              end
        end
      else if (JS.code c <? 32)%N then None
      else prepend (String c EmptyString) (parse_string_body r)
  end.

(** Number tokens: the characters a JSON number can contain. *)
Definition num_char (c : ascii) : bool := JS.is_digit c || JS.mem_char c "-+.eE".

(** The digits at the head of [s], and what follows them. *)
Definition read_digits (s : string) : string * string :=
  let ds := JS.take_digits s in (ds, JS.drop (String.length ds) s).

(** The fraction of a number: nothing, or a point and at least one
    digit. *)
Definition read_fraction (s : string) : option (string * string) :=
  match s with
  | String c r =>
      if Ascii.eqb c "." then
        let '(ds, rest) := read_digits r in
        match ds with EmptyString => None | _ => Some (ds, rest) end
      else Some (EmptyString, s)
  | EmptyString => Some (EmptyString, s)
  end.

(** The exponent of a number: nothing, or [e] or [E], a sign or none, and
    at least one digit. *)
Definition read_exponent (s : string) : option (Z * string) :=
  match s with
  | String c r =>
      if Ascii.eqb c "e" || Ascii.eqb c "E" then
        let '(negative, r1) :=
          match r with
          | String d r' =>
              if Ascii.eqb d "-" then (true, r')
              else if Ascii.eqb d "+" then (false, r') else (false, r)
          | EmptyString => (false, r)
          end in
        let '(ds, rest) := read_digits r1 in
        match ds with
        | EmptyString => None
        | _ =>
            let x := Z.of_N (JS.digits_value ds) in
            Some (if negative then (- x)%Z else x, rest)
        end
      else Some (0%Z, s)
  | EmptyString => Some (0%Z, s)
  end.

(** A number literal of the JSON grammar: a minus sign or none, the
    integer part ([0], or digits of which the first is not [0]), a
    fraction or none, an exponent or none.  Its value is [canonical] of
    the decimal it writes. *)
Definition parse_number (s : string) : option (json * string) :=
  let '(neg, s1) :=
    match s with
    | String c r => if Ascii.eqb c "-" then (true, r) else (false, s)
    | EmptyString => (false, s)
    end in
  let '(ip, s2) := read_digits s1 in
  match ip with
  | EmptyString => None
  | String d more =>
      if Ascii.eqb d "0" && negb (String.eqb more EmptyString) then None
      else
        match read_fraction s2 with
        | None => None
        | Some (fp, s3) =>
            match read_exponent s3 with
            | None => None
            | Some (x, s4) =>
                Some (canonical neg (Z.of_N (JS.digits_value (ip +:+ fp)))
                        (x - Z.of_nat (String.length fp))%Z, s4)
            end
        end
  end.

(** What follows the digits of a number does not start with a digit. *)
Definition no_digit (s : string) : Prop := JS.take_digits s = EmptyString.

(** The text of a number literal from its parts: sign, integer part,
    fraction and exponent. *)
Definition literal (neg : bool) (ip fp : string) (ex : option Z) : string :=
  (if neg then "-" else "") +:+ ip
  +:+ (match fp with EmptyString => "" | _ => "." +:+ fp end)
  +:+ (match ex with Some x => exponent_text x | None => "" end).

(** Property definition on an object under construction: a repeated key
    keeps its first position and takes the last value. *)
Fixpoint assoc_set (k : string) (v : json) (l : list (string * json)) : list (string * json) :=
  match l with
  | [] => [(k, v)]
  | (k', v') :: t => if String.eqb k k' then (k, v) :: t else (k', v') :: assoc_set k v t
  end.

Definition dedupe (l : list (string * json)) : list (string * json) :=
  fold_left (fun acc kv => assoc_set (fst kv) (snd kv) acc) l [].

Fixpoint parse_value (fuel : nat) (s : string) {struct fuel} : option (json * string) :=
  match fuel with
  | O => None
  | S fuel' =>
      match skip_ws s with
      | EmptyString => None
      | String c r =>
          if Ascii.eqb c "n" then option_map (pair JNull) (strip_prefix "ull" r)
          else if Ascii.eqb c "t" then option_map (pair (JBool true)) (strip_prefix "rue" r)
          else if Ascii.eqb c "f" then option_map (pair (JBool false)) (strip_prefix "alse" r)
          else if Ascii.eqb c dquote then
            match parse_string_body r with
            | Some (str, r') => Some (JStr str, r')
            | None => None
            end
          else if Ascii.eqb c "[" then
            match strip_prefix "]" (skip_ws r) with
            | Some r' => Some (JArr [], r')
            | None =>
                match parse_elements fuel' r with
                | Some (l, r') => Some (JArr l, r')
                | None => None
                end
            end
          else if Ascii.eqb c "{" then
            match strip_prefix "}" (skip_ws r) with
            | Some r' => Some (JObj [], r')
            | None =>
                match parse_members fuel' r with
                | Some (l, r') => Some (JObj (dedupe l), r')
                | None => None
                end
            end
          else parse_number (String c r)
      end
  end
with parse_elements (fuel : nat) (s : string) {struct fuel} : option (list json * string) :=
  match fuel with
  | O => None
  | S fuel' =>
      match parse_value fuel' s with
      | None => None
      | Some (v, r) =>
          match skip_ws r with
          | String c r' =>
              if Ascii.eqb c "," then
                match parse_elements fuel' r' with
                | Some (vs, r'') => Some (v :: vs, r'')
                | None => None
                end
              else if Ascii.eqb c "]" then Some ([v], r')
              else None
          | EmptyString => None
          end
      end
  end
with parse_members (fuel : nat) (s : string) {struct fuel}
    : option (list (string * json) * string) :=
  match fuel with
  | O => None
  | S fuel' =>
      match skip_ws s with
      | String q r =>
          if Ascii.eqb q dquote then
            match parse_string_body r with
            | None => None
            | Some (k, r1) =>
                match skip_ws r1 with
                | String c r2 =>
                    if Ascii.eqb c ":" then
                      match parse_value fuel' r2 with
                      | None => None
                      | Some (v, r3) =>
                          match skip_ws r3 with
                          | String d r4 =>
                              if Ascii.eqb d "," then
                                match parse_members fuel' r4 with
                                | Some (ms, r5) => Some ((k, v) :: ms, r5)
                                | None => None
                                end
                              else if Ascii.eqb d "}" then Some ([(k, v)], r4)
                              else None
                          | EmptyString => None
                          end
                      end
                    else None
                | EmptyString => None
                end
            end
          else None
      | EmptyString => None
      end
  end.

(** [JSON.parse(text)]: one value, then only white space.  [None] is a
    [SyntaxError]. *)
Definition parse (text : string) : option json :=
  match parse_value (S (String.length text)) text with
  | Some (v, r) => match skip_ws r with EmptyString => Some v | _ => None end
  | None => None
  end.

(** What can follow a number: anything but a number character. *)
Definition ok_rest (rest : string) : bool :=
  match rest with
  | EmptyString => true
  | String c _ => negb (num_char c)
  end.

Definition sign_or_digit (c : ascii) : bool := JS.is_digit c || Ascii.eqb c "-".

Definition value_start (c : ascii) : bool :=
  JS.is_digit c || JS.mem_char c "-ntf[{" || Ascii.eqb c dquote.

(** A value as a document holds it.  Every string, a key or a value, is
    the image of a JavaScript string: well-formed UTF-8.  The keys of an
    object are pairwise distinct.  Every number is finite and written the
    one way the model writes it: an integer up to [2^53] in magnitude as
    [JNum], any other number as the [JDec] that [canonical] gives.
    Negative zero is left out: its text is that of zero. *)
Fixpoint wf (v : json) : bool :=
  match v with
  | JNum n => (Z.abs n <=? 9007199254740992)%Z
  | JDec neg m e =>
      (0 <? m)%Z && negb (m mod 10 =? 0)%Z && negb ((m =? 1)%Z && (e =? 309)%Z)
      && json_eqb (canonical neg m e) (JDec neg m e)
  | JStr s => JS.utf8_valid s
  | JArr l => forallb wf l
  | JObj l =>
      bool_decide (NoDup (l.*1))
      && forallb (fun kv => match kv with (k, x) => JS.utf8_valid k && wf x end) l
  | _ => true
  end.

(** The number of nodes of a value: the fuel its text needs. *)
Fixpoint nodes (v : json) : nat :=
  match v with
  | JArr l => S (list_sum (map (fun x => S (nodes x)) l))
  | JObj l => S (list_sum (map (fun kv => match kv with (_, x) => S (nodes x) end) l))
  | _ => 1
  end.

(** The text of a value, whatever follows it, parses back to the value. *)
Definition roundtrips (v : json) : Prop :=
  wf v = true -> forall fuel ind rest,
    JS.all_chars is_ws ind = true -> nodes v <= fuel -> ok_rest rest = true ->
    parse_value fuel (print ind v +:+ rest) = Some (v, rest).

End JSON.

Definition sample_doc : json :=
  JObj [("_id", JStr "plugin/demo:settings");
        ("_rev", JStr "3-0123456789abcdef0123456789abcdef");
        ("tags", JArr [JStr (String JSON.dquote "a\b"); JNum (-12); JNull; JArr []; JObj []]);
        ("on", JBool true)].

(* ===================================================================== *)
(** * The transport: the [webdav] package against a WebDAV server *)
(* ===================================================================== *)

(** What the client can throw. *)
Inductive error : Type :=
  | NotInitialized                 (* Error('WebDAV 客户端未初始化') *)
  | ConnectionFailed (cause : error) (* Error('WebDAV 连接失败: ' + error.message) *)
  | NetworkError                   (* a request that got no response *)
  | HttpError (status : Z)         (* a response with a failure status *)
  | SyntaxError                    (* JSON.parse *)
  | URIError                       (* decodeURIComponent *)
  | TypeError.                     (* property access on null *)

Inductive result (A : Type) : Type :=
  | Ok (a : A)
  | Err (e : error).
Arguments Ok {A} a.
Arguments Err {A} e.

Module WebDAV.

Inductive resource : Type :=
  | File (content : string) (lastmod : Z)
  | Directory.

(** The requests of the six client methods the sync client uses. *)
Inductive request : Type :=
  | ReqList (path : string)             (* getDirectoryContents: PROPFIND, depth 1 *)
  | ReqExists (path : string)           (* exists: PROPFIND, depth 0 *)
  | ReqMkcol (path : string)            (* createDirectory *)
  | ReqPut (path content : string)      (* putFileContents, overwrite *)
  | ReqGet (path : string)              (* getFileContents *)
  | ReqDelete (path : string).          (* deleteFile *)

(** The server: its resources by path (the root [/] is always there), its
    clock, what becomes of the coming requests ([Some e]: the request fails
    with [e], be it the network or the server; [None], or none left: the
    request is served), and the requests received so far, oldest first. *)
Record server : Type := {
  resources : gmap string resource;
  clock : Z;
  faults : list (option error);
  log : list request
}.

Definition next_fault (s : server) : option error :=
  match faults s with
  | Some e :: _ => Some e
  | _ => None
  end.

(** The handle returned by [createClient]. *)
Record WebDAVClient : Type := {
  remoteURL : string;
  username : string;
  password : string
}.

Definition createClient (url user pass : string) : WebDAVClient :=
  {| remoteURL := url; username := user; password := pass |}.

Inductive file_type : Type := TFile | TDirectory.

(** The [format] option of [getFileContents]. *)
Inductive format : Type := Text | Binary.

Record FileStat : Type := {
  filename : string;
  basename : string;
  lastmod : Z;
  type : file_type
}.

(** [getDirectoryContents] answers with the array itself, or with an object
    whose [data] is the array when [details] is set. *)
Inductive response : Type :=
  | Plain (items : list FileStat)
  | Detailed (data : list FileStat).

Fixpoint base_of (s : string) : string :=
  match s with
  | EmptyString => EmptyString
  | String c r =>
      if JS.mem_char "/" r then base_of r
      else if Ascii.eqb c "/" then r else String c r
  end.

Fixpoint take (n : nat) (s : string) : string :=
  match n, s with
  | S n', String c r => String c (take n' r)
  | _, _ => EmptyString
  end.

Definition dir_of (s : string) : string :=
  match take (String.length s - String.length (base_of s) - 1) s with
  | EmptyString => "/"
  | d => d
  end.

Definition is_dir (fs : gmap string resource) (p : string) : bool :=
  if String.eqb p "/" then true
  else match fs !! p with Some Directory => true | _ => false end.

Definition present (fs : gmap string resource) (p : string) : bool :=
  if String.eqb p "/" then true
  else match fs !! p with Some _ => true | None => false end.

Definition stat_of (p : string) (r : resource) : FileStat :=
  {| filename := p; basename := base_of p;
     lastmod := match r with File _ t => t | Directory => 0 end;
     type := match r with File _ _ => TFile | Directory => TDirectory end |}.

Definition children (fs : gmap string resource) (p : string) : list FileStat :=
  (fun kv => stat_of (fst kv) (snd kv))
    <$> filter (fun kv => String.eqb (dir_of (fst kv)) p) (map_to_list fs).

Definition under (p q : string) : bool := JS.starts_with (p +:+ "/") q.

Definition with_resources (s : server) (fs : gmap string resource) : server :=
  {| resources := fs; clock := clock s; faults := faults s; log := log s |}.

(** ** The path of a request

    [encodePath] of the package (tools/path), which every method applies
    to its path before the request is made: the separators are set aside
    under two reserved texts, the rest is percent-encoded, and the
    reserved texts are turned back into separators, wherever they are
    found. *)
Definition SEP_PATH_POSIX : string := "__PATH_SEPARATOR_POSIX__".
Definition SEP_PATH_WINDOWS : string := "__PATH_SEPARATOR_WINDOWS__".
Definition two_backslashes : string := String "\" (String "\" EmptyString).

Definition encodePath (filePath : string) : string :=
  let replaced :=
    JS.replaceAll two_backslashes SEP_PATH_WINDOWS
      (JS.replaceAll "/" SEP_PATH_POSIX filePath) in
  let formatted := JS.encodeURIComponent replaced in
  JS.replaceAll SEP_PATH_POSIX "/" (JS.replaceAll SEP_PATH_WINDOWS two_backslashes formatted).

(** The server undoes the escapes of the path it is asked for. *)
Definition url_decode (s : string) : option string :=
  option_map (fun bs => JS.string_of_bytes (bs.*2)) (JS.unescape s).

(** The path the server receives when a method is called on [path]. *)
Definition received (path : string) : option string := url_decode (encodePath path).

(** ** The methods

    A method of the package sends its request for [encodePath path], and
    the server serves the path it receives, [received path].  The
    definitions below take that path as their argument, so they describe
    a call of the client exactly when [received] is the identity on the
    path the client passes.  It is the identity on the paths of the
    directories, and on the three paths of every id in which the text
    [PATH_SEPARATOR_] does not occur ([plain]).  It is not for an id that
    holds a reserved text: the server receives the requests for such an
    id at another path than the one the client makes. *)

(** Sending a request: it is recorded, and either fails or is served by
    [serve]. *)
Definition send {A : Type} (rq : request) (serve : server -> result A * server)
    (s : server) : result A * server :=
  let s' := {| resources := resources s; clock := clock s;
               faults := tail (faults s); log := log s ++ [rq] |} in
  match next_fault s with
  | Some e => (Err e, s')
  | None => serve s'
  end.

(** [client.getDirectoryContents(path, {details})]. *)
Definition getDirectoryContents (c : WebDAVClient) (path : string) (details : bool)
    : server -> result response * server :=
  send (ReqList path) (fun s =>
    if present (resources s) path
    then (Ok ((if details then Detailed else Plain) (children (resources s) path)), s)
    else (Err (HttpError 404), s)).

(** The answer 404 Not Found. *)
Definition not_found (e : error) : bool :=
  match e with
  | HttpError status => (status =? 404)%Z
  | _ => false
  end.

(** [client.exists(path)]: the package asks for the properties of the
    path and takes the answer 404, from whatever side it comes, for
    [false]; any other failure is thrown. *)
Definition exists_ (c : WebDAVClient) (path : string) : server -> result bool * server :=
  fun s =>
    match send (ReqExists path) (fun s => (Ok (present (resources s) path), s)) s with
    | (Err e, s') => if not_found e then (Ok false, s') else (Err e, s')
    | answer => answer
    end.

(** [client.createDirectory(path)]: refused when the path is taken (405) or
    when its parent is not a directory (409). *)
Definition createDirectory (c : WebDAVClient) (path : string) : server -> result unit * server :=
  send (ReqMkcol path) (fun s =>
    if present (resources s) path then (Err (HttpError 405), s)
    else if is_dir (resources s) (dir_of path)
    then (Ok tt, with_resources s (<[path := Directory]> (resources s)))
    else (Err (HttpError 409), s)).

(** [client.putFileContents(path, data, {overwrite: true})]: the file is
    written whether or not it was there; its parent must be a directory. *)
Definition putFileContents (c : WebDAVClient) (path data : string)
    : server -> result bool * server :=
  send (ReqPut path data) (fun s =>
    if is_dir (resources s) path then (Err (HttpError 405), s)
    else if is_dir (resources s) (dir_of path)
    then (Ok true, {| resources := <[path := File data (clock s)]> (resources s);
                      clock := clock s + 1; faults := faults s; log := log s |})
    else (Err (HttpError 409), s)).

(** [client.getFileContents(path, {format})]: with the format [binary]
    the bytes of the body as they are, with [text] the body decoded as
    UTF-8, without its byte order mark. *)
Definition getFileContents (c : WebDAVClient) (path : string) (fmt : format)
    : server -> result string * server :=
  send (ReqGet path) (fun s =>
    match resources s !! path with
    | Some (File content _) =>
        (Ok (match fmt with Text => JS.text_of_bytes content | Binary => content end), s)
    | Some Directory => (Err (HttpError 405), s)
    | None => (Err (HttpError (if String.eqb path "/" then 405 else 404)), s)
    end).

(** [client.deleteFile(path)]: a path that is not there is answered with
    404, which the package throws; a directory goes with all it contains. *)
Definition deleteFile (c : WebDAVClient) (path : string) : server -> result unit * server :=
  send (ReqDelete path) (fun s =>
    match resources s !! path with
    | Some _ =>
        (Ok tt, with_resources s
                  (filter (fun kv => negb (under path (fst kv))) (delete path (resources s))))
    | None => (Err (HttpError (if String.eqb path "/" then 403 else 404)), s)
    end).

End WebDAV.

(* ===================================================================== *)
(** * [sync/types.ts] *)
(* ===================================================================== *)

(** The interfaces of [types.ts], field for field.  A field name that two
    interfaces share ([docId], [timestamp], and [username], [password]
    with the transport's handle) carries a prefix here; [any] is a JSON
    value; a count is a [nat], a time a [Z] (milliseconds). *)

Record SyncConfig : Type := {
  enabled : bool;
  serverUrl : string;
  cfg_username : string;
  cfg_password : string;
  syncInterval : Z;
  lastSyncTime : Z;
  deviceId : string
}.

Inductive operation : Type := OpPut | OpRemove.

Record SyncQueueItem : Type := {
  q_docId : string;
  q_operation : operation;
  q_timestamp : Z;
  retryCount : nat
}.

Record ConflictRecord : Type := {
  c_docId : string;
  localDoc : json;
  remoteDoc : json;
  c_timestamp : Z
}.

Record SyncResult : Type := {
  uploaded : nat;
  downloaded : nat;
  conflicts : nat;
  errors : nat
}.

Record RemoteFileMeta : Type := {
  docId : string;
  lastModified : Z
}.

(* ===================================================================== *)
(** * [WebDAVSyncClient] *)
(* ===================================================================== *)

(** The state a method runs in: the [client] field of the object and the
    server behind it. *)
Record state : Type := {
  client : option WebDAV.WebDAVClient;
  remote : WebDAV.server
}.

(** An [async] method: it ends with a value or throws, in a new state. *)
Definition M (A : Type) : Type := state -> result A * state.

Definition ret {A : Type} (a : A) : M A := fun st => (Ok a, st).

Definition throw {A : Type} (e : error) : M A := fun st => (Err e, st).

Definition bind {A B : Type} (m : M A) (k : A -> M B) : M B :=
  fun st =>
    match m st with
    | (Ok a, st') => k a st'
    | (Err e, st') => (Err e, st')
    end.

(** [try { m } catch (e) { handler e }]. *)
Definition try_catch {A : Type} (m : M A) (handler : error -> M A) : M A :=
  fun st =>
    match m st with
    | (Ok a, st') => (Ok a, st')
    | (Err e, st') => handler e st'
    end.

(** [await m; k] is written [x ← m; k], or [m;; k] when the value is dropped. *)
#[global] Instance M_ret : MRet M := @ret.
#[global] Instance M_bind : MBind M := fun A B k m => bind m k.

(** [await this.client.method(...)]. *)
Definition await {A : Type} (rq : WebDAV.server -> result A * WebDAV.server) : M A :=
  fun st =>
    let (r, s') := rq (remote st) in
    (r, {| client := client st; remote := s' |}).

(** [if (!this.client) throw new Error('WebDAV 客户端未初始化')]. *)
Definition this_client : M WebDAV.WebDAVClient :=
  fun st =>
    match client st with
    | Some c => (Ok c, st)
    | None => (Err NotInitialized, st)
    end.

Definition set_client (c : WebDAV.WebDAVClient) : M unit :=
  fun st => (Ok tt, {| client := Some c; remote := remote st |}).

(** Property access [v[k]]: [undefined] is [None]; on [null] it throws. *)
Fixpoint assoc (k : string) (l : list (string * json)) : option json :=
  match l with
  | [] => None
  | (k', v) :: t => if String.eqb k k' then Some v else assoc k t
  end.

Definition get_prop (v : json) (k : string) : result (option json) :=
  match v with
  | JNull => Err TypeError
  | JObj l => Ok (assoc k l)
  | _ => Ok None
  end.

(** [ToString], as applied by [encodeURIComponent] to its argument. *)
Fixpoint to_string (v : json) : string :=
  match v with
  | JNull => "null"
  | JBool true => "true"
  | JBool false => "false"
  | JNum n => JSON.string_of_Z n
  | JDec neg m e =>
      JSON.number_text (fun negative => if negative then "-Infinity" else "Infinity") neg m e
  | JStr s => s
  | JArr l =>
      (fix join (l : list json) : string :=
         match l with
         | [] => EmptyString
         | x :: xs =>
             (match x with JNull => EmptyString | _ => to_string x end) +:+
             (match xs with [] => EmptyString | _ :: _ => "," +:+ join xs end)
         end) l
  | JObj _ => "[object Object]"
  end.

Definition ToString (o : option json) : string :=
  match o with
  | None => "undefined"
  | Some v => to_string v
  end.

(** Truthiness of an optional argument: [undefined], [null], [false],
    a zero and the empty string are falsy. *)
Definition truthy (o : option json) : bool :=
  match o with
  | None | Some JNull | Some (JBool false) | Some (JNum 0) | Some (JStr EmptyString) => false
  | Some (JDec neg m e) =>
      match JSON.canonical neg m e with
      | JNum 0 | JDec _ 0 _ => false
      | _ => true
      end
  | Some _ => true
  end.

(** [s.includes(p)]: the text [p] occurs in [s]. *)
Fixpoint includes (p s : string) {struct s} : bool :=
  JS.starts_with p s
  || match s with
     | EmptyString => false
     | String _ r => includes p r
     end.

(** The three remote paths of an id. *)
Definition docPath (docId : string) : string :=
  "/ztools-sync/" +:+ JS.encodeURIComponent docId +:+ ".json".

Definition dataPath (docId : string) : string :=
  "/ztools-sync/attachments/" +:+ JS.encodeURIComponent docId +:+ ".bin".

Definition metaPath (docId : string) : string :=
  "/ztools-sync/attachments/" +:+ JS.encodeURIComponent docId +:+ ".meta.json".

(** An id in which the text the [webdav] package reserves for the path
    separators does not occur.  For such an id the server receives the
    three paths as the client makes them. *)
Definition plain (docId : string) : Prop := includes "PATH_SEPARATOR_" docId = false.

(** What follows the directory in a path of the client: it holds no
    separator, and the reserved text occurs nowhere in its encoding. *)
Definition entry_name (t : string) : Prop :=
  JS.mem_char "/" t = false /\ JS.mem_char "\" t = false
  /\ includes "PATH_SEPARATOR_" (JS.encodeURIComponent t) = false.

Module WebDAVSyncClient.
Import WebDAV.

(** [testConnection()]: the guard, then the listing of the root; what the
    listing throws is wrapped in the connection error. *)
Definition testConnection : M bool :=
  c ← this_client;
  try_catch
    (await (getDirectoryContents c "/" false);; ret true)
    (fun e => throw (ConnectionFailed e)).

(** [ensureRemoteDirectory()]: returns at once without a handle; creates
    each of the two directories when [exists] says it is not there. *)
Definition ensureRemoteDirectory : M unit :=
  fun st =>
    match client st with
    | None => (Ok tt, st)
    | Some c =>
        (ex ← await (exists_ c "/ztools-sync");
         (if negb ex then await (createDirectory c "/ztools-sync") else ret tt);;
         attachmentExists ← await (exists_ c "/ztools-sync/attachments");
         if negb attachmentExists
         then await (createDirectory c "/ztools-sync/attachments") else ret tt) st
    end.

(** [init(config)]: the handle is assigned first. *)
Definition init (config : SyncConfig) : M unit :=
  set_client (createClient (serverUrl config) (cfg_username config) (cfg_password config));;
  testConnection;;
  ensureRemoteDirectory.

(** [uploadDoc(doc)]: the path is made of [encodeURIComponent(doc._id)];
    the [catch] logs and throws the error again. *)
Definition uploadDoc (doc : json) : M unit :=
  c ← this_client;
  match get_prop doc "_id" with
  | Err e => throw e
  | Ok id =>
      let remotePath := docPath (ToString id) in
      let content := JSON.stringify doc in
      try_catch
        (await (putFileContents c remotePath content);; ret tt)
        (fun e => throw e)
  end.

(** [downloadDoc(docId)]: [null] (here [JNull]) when [exists] says the path
    is not there, else the parsed text of the file. *)
Definition downloadDoc (docId : string) : M json :=
  c ← this_client;
  let remotePath := docPath docId in
  ex ← await (exists_ c remotePath);
  if negb ex then ret JNull
  else
    content ← await (getFileContents c remotePath Text);
    match JSON.parse content with
    | Some v => ret v
    | None => throw SyntaxError
    end.

(** [Array.isArray(response) ? response : response.data], when that is an
    array. *)
Definition contents_of (r : response) : option (list FileStat) :=
  match r with
  | Plain l => Some l
  | Detailed l => Some l
  end.

Definition is_file (item : FileStat) : bool :=
  match type item with TFile => true | TDirectory => false end.

(** [Array.prototype.map] with a callback that can throw. *)
Fixpoint map_throwing {A B : Type} (f : A -> result B) (l : list A) : result (list B) :=
  match l with
  | [] => Ok []
  | x :: xs =>
      match f x with
      | Err e => Err e
      | Ok y => match map_throwing f xs with Ok ys => Ok (y :: ys) | Err e => Err e end
      end
  end.

Definition of_result {A : Type} (r : result A) : M A :=
  match r with Ok a => ret a | Err e => throw e end.

Definition decode_or_throw (s : string) : result string :=
  match JS.decodeURIComponent s with Some d => Ok d | None => Err URIError end.

(** [listRemoteDocsWithMeta()]: the files of the sync directory whose name
    ends in [.json]; the id is decoded from
    [item.basename.replace('.json', '')]. *)
Definition listRemoteDocsWithMeta : M (list RemoteFileMeta) :=
  c ← this_client;
  response ← await (getDirectoryContents c "/ztools-sync" true);
  match contents_of response with
  | None => ret []
  | Some contents =>
      of_result
        (map_throwing
           (fun item =>
              let encodedDocId := JS.replace ".json" "" (basename item) in
              match decode_or_throw encodedDocId with
              | Ok docId => Ok {| docId := docId; lastModified := lastmod item |}
              | Err e => Err e
              end)
           (List.filter (fun item => is_file item && JS.endsWith (filename item) ".json")
                        contents))
  end.

(** [deleteDoc(docId)]: the guard, then [deleteFile]. *)
Definition deleteDoc (docId : string) : M unit :=
  c ← this_client;
  await (deleteFile c (docPath docId)).

(** [uploadAttachment(docId, data, metadata?)]: the payload, then the
    sidecar when [metadata] is truthy.  A [Buffer] is the string of its
    bytes. *)
Definition uploadAttachment (docId data : string) (metadata : option json) : M unit :=
  c ← this_client;
  await (putFileContents c (dataPath docId) data);;
  if truthy metadata then
    await (putFileContents c (metaPath docId)
             (JSON.stringify (default JNull metadata)));; ret tt
  else ret tt.

(** The value [{ data, metadata }]; [metadata] is [None] for [undefined]. *)
Record attachment : Type := {
  data : string;
  metadata : option json
}.

(** [downloadAttachment(docId)]: [null] (here [None]) when the payload is
    not there; the sidecar is fetched and parsed inside a [try] whose
    [catch] only warns. *)
Definition downloadAttachment (docId : string) : M (option attachment) :=
  c ← this_client;
  dataExists ← await (exists_ c (dataPath docId));
  if negb dataExists then ret None
  else
    data ← await (getFileContents c (dataPath docId) Binary);
    metadata ←
      try_catch (A := option json)
        (metaExists ← await (exists_ c (metaPath docId));
         if (metaExists : bool) then
           metaContent ← await (getFileContents c (metaPath docId) Text);
           match JSON.parse metaContent with
           | Some v => ret (Some v)
           | None => throw SyntaxError
           end
         else ret None)
        (fun _ => ret None);
    ret (Some {| data := data; metadata := metadata |}).

(** [deleteAttachment(docId)]: [deleteFile] only when [exists] says the
    payload is there. *)
Definition deleteAttachment (docId : string) : M unit :=
  c ← this_client;
  ex ← await (exists_ c (dataPath docId));
  if (ex : bool) then await (deleteFile c (dataPath docId)) else ret tt.

(** [listRemoteAttachments()]. *)
Definition listRemoteAttachments : M (list string) :=
  c ← this_client;
  response ← await (getDirectoryContents c "/ztools-sync/attachments" true);
  match contents_of response with
  | None => ret []
  | Some contents =>
      of_result
        (map_throwing
           (fun item => decode_or_throw (JS.replace ".bin" "" (basename item)))
           (List.filter (fun item => is_file item && JS.endsWith (filename item) ".bin")
                        contents))
  end.

End WebDAVSyncClient.

(* ===================================================================== *)
(** * The revision generator *)
(* ===================================================================== *)

Module Rev.

(** Modelled from the spec: the leading integer of a revision, the
    number its first digits write, 0 when it has no numeric prefix. *)
Definition leading_int (s : string) : N := JS.digits_value (JS.take_digits s).

Definition string_of_N (n : N) : string := NilZero.string_of_uint (N.to_uint n).

(** Modelled from the spec: the random suffix, [n] lower-case hexadecimal
    digits of the random draw [r]. *)
Fixpoint hex_digits (n : nat) (r : N) : string :=
  match n with
  | O => EmptyString
  | S k => hex_digits k (r / 16) +:+ String (JS.hex_lower (r mod 16)) EmptyString
  end.

(** Modelled from the spec: [generateNewRev] of [main/core/lmdb/utils],
    of which only the tests are at hand.  It parses the leading integer of
    [previousRev] (0 when missing or without numeric prefix), increments
    it, and appends a freshly generated random suffix of 32 hexadecimal
    characters; [rnd] is the random draw. *)
Definition generateNewRev (previousRev : option string) (rnd : N) : string :=
  let seq := match previousRev with Some p => leading_int p | None => 0%N end in
  string_of_N (seq + 1) +:+ "-" +:+ hex_digits 32 rnd.

Definition is_lower_hex (c : ascii) : bool := JS.is_digit c || JS.in_range 97 102 c.

(** The regular expression [^<seq>-[0-9a-f]{32}$]. *)
Definition matches_rev (seq : N) (rev : string) : bool :=
  match JSON.strip_prefix (string_of_N seq +:+ "-") rev with
  | Some suffix => (String.length suffix =? 32)%nat && JS.all_chars is_lower_hex suffix
  | None => false
  end.

Definition starts_with_digit (s : string) : bool :=
  match s with
  | String c _ => JS.is_digit c
  | EmptyString => false
  end.

End Rev.

(* ===================================================================== *)
(** * The sync cycle *)
(* ===================================================================== *)

Module Engine.

(** Modelled from the spec: the Sync Engine is not among the sources, which
    hold only its record types ([types.ts]).  The definitions of this module
    follow sections 3 and 4.5 of the spec.

    What the Remote Client shows of a document: its value and the time the
    remote file was last modified. *)
Record RemoteDoc : Type := {
  r_doc : json;
  r_lastModified : Z
}.

Record EngineState : Type := {
  localDocs : gmap string json;          (* the Document Store *)
  queue : gmap string SyncQueueItem;     (* the Sync Queue, one entry per id *)
  checkpoints : gmap string Z;           (* the last recorded sync checkpoint per id *)
  conflictStore : list ConflictRecord;   (* the Conflict Store, oldest first *)
  remoteDocs : gmap string RemoteDoc;    (* the remote, through the Remote Client *)
  e_lastSyncTime : Z
}.

(** What a cycle is given: the time, whether the connection can be
    established, which documents' remote calls succeed, the retry cap. *)
Record Env : Type := {
  now : Z;
  connected : bool;
  transport_ok : string -> bool;
  maxRetries : nat
}.

(** The cycle under way: the state, the tally, and the ids found in
    conflict. *)
Record Cycle : Type := {
  st : EngineState;
  res : SyncResult;
  conflicted : gset string
}.

Definition tally_downloaded (r : SyncResult) : SyncResult :=
  {| uploaded := uploaded r; downloaded := S (downloaded r);
     conflicts := conflicts r; errors := errors r |}.
Definition tally_uploaded (r : SyncResult) : SyncResult :=
  {| uploaded := S (uploaded r); downloaded := downloaded r;
     conflicts := conflicts r; errors := errors r |}.
Definition tally_conflict (r : SyncResult) : SyncResult :=
  {| uploaded := uploaded r; downloaded := downloaded r;
     conflicts := S (conflicts r); errors := errors r |}.
Definition tally_error (r : SyncResult) : SyncResult :=
  {| uploaded := uploaded r; downloaded := downloaded r;
     conflicts := conflicts r; errors := S (errors r) |}.

Section Cycle.

(** The content of a document: its value apart from the revision
    bookkeeping.  The spec does not say how a document holds its content,
    so the cycle is defined for any such projection. *)
Variable content : json -> json.
Variable env : Env.

(** Modelled from the spec: step 2, the remote file is newer than the last
    recorded checkpoint of the id, or the id has none. *)
Definition changed_remotely (s : EngineState) (m : RemoteFileMeta) : bool :=
  match checkpoints s !! docId m with
  | Some t => bool_decide (t < lastModified m)%Z
  | None => true
  end.

(** Modelled from the spec: step 3, a queue entry for the id is pending and
    the local content differs from the pulled one (a pending removal
    differs from any pulled content). *)
Definition in_conflict (s : EngineState) (id : string) (pulled : json) : bool :=
  match queue s !! id with
  | Some _ =>
      match localDocs s !! id with
      | Some d => negb (json_eqb (content d) (content pulled))
      | None => true
      end
  | None => false
  end.

Definition record_conflict (s : EngineState) (id : string) (pulled : json) : EngineState :=
  {| localDocs := localDocs s; queue := queue s; checkpoints := checkpoints s;
     conflictStore :=
       conflictStore s ++
       [{| c_docId := id; localDoc := default JNull (localDocs s !! id);
           remoteDoc := pulled; c_timestamp := now env |}];
     remoteDocs := remoteDocs s; e_lastSyncTime := e_lastSyncTime s |}.

Definition apply_pull (s : EngineState) (m : RemoteFileMeta) (pulled : json) : EngineState :=
  {| localDocs := <[docId m := pulled]> (localDocs s); queue := queue s;
     checkpoints := <[docId m := lastModified m]> (checkpoints s);
     conflictStore := conflictStore s;
     remoteDocs := remoteDocs s; e_lastSyncTime := e_lastSyncTime s |}.

(** Modelled from the spec: steps 2 and 3 for one listed remote document.
    A document that cannot be downloaded counts as an error; one in
    conflict is recorded and marked; any other is applied locally and its
    checkpoint advanced. *)
Definition pull_step (c : Cycle) (m : RemoteFileMeta) : Cycle :=
  if negb (changed_remotely (st c) m) then c
  else
    match (if transport_ok env (docId m) then remoteDocs (st c) !! docId m else None) with
    | None => {| st := st c; res := tally_error (res c); conflicted := conflicted c |}
    | Some rd =>
        if in_conflict (st c) (docId m) (r_doc rd) then
          {| st := record_conflict (st c) (docId m) (r_doc rd);
             res := tally_conflict (res c);
             conflicted := {[docId m]} ∪ conflicted c |}
        else
          {| st := apply_pull (st c) m (r_doc rd);
             res := tally_downloaded (res c); conflicted := conflicted c |}
    end.

Definition retry (it : SyncQueueItem) : SyncQueueItem :=
  {| q_docId := q_docId it; q_operation := q_operation it;
     q_timestamp := q_timestamp it; retryCount := S (retryCount it) |}.

Definition push_failed (c : Cycle) (id : string) : Cycle :=
  let s := st c in
  {| st := {| localDocs := localDocs s; queue := alter retry id (queue s);
              checkpoints := checkpoints s; conflictStore := conflictStore s;
              remoteDocs := remoteDocs s; e_lastSyncTime := e_lastSyncTime s |};
     res := tally_error (res c); conflicted := conflicted c |}.

Definition push_done (c : Cycle) (id : string) (r : gmap string RemoteDoc) : Cycle :=
  let s := st c in
  {| st := {| localDocs := localDocs s; queue := delete id (queue s);
              checkpoints := <[id := now env]> (checkpoints s);
              conflictStore := conflictStore s;
              remoteDocs := r; e_lastSyncTime := e_lastSyncTime s |};
     res := tally_uploaded (res c); conflicted := conflicted c |}.

(** Modelled from the spec: step 4 for one queue entry.  An entry in
    conflict is skipped; one past the retry cap is reported and held; a
    failed transfer increments [retryCount]; a confirmed one removes the
    entry and advances the checkpoint. *)
Definition push_step (c : Cycle) (entry : string * SyncQueueItem) : Cycle :=
  let (id, it) := entry in
  if bool_decide (id ∈ conflicted c) then c
  else if (maxRetries env <? retryCount it)%nat then
    {| st := st c; res := tally_error (res c); conflicted := conflicted c |}
  else if negb (transport_ok env id) then push_failed c id
  else
    match q_operation it with
    | OpPut =>
        match localDocs (st c) !! id with
        | Some d =>
            push_done c id (<[id := {| r_doc := d; r_lastModified := now env |}]>
                              (remoteDocs (st c)))
        | None => push_failed c id
        end
    | OpRemove => push_done c id (delete id (remoteDocs (st c)))
    end.

Definition listing (s : EngineState) : list RemoteFileMeta :=
  (fun kv => {| docId := fst kv; lastModified := r_lastModified (snd kv) |})
    <$> map_to_list (remoteDocs s).

Definition finish (s : EngineState) : EngineState :=
  {| localDocs := localDocs s; queue := queue s; checkpoints := checkpoints s;
     conflictStore := conflictStore s; remoteDocs := remoteDocs s;
     e_lastSyncTime := now env |}.

(** Modelled from the spec: the Sync Engine's cycle (section 4.5), of which
    the sources hold only the record types.  Connect; pull with the
    conflict check; push what is not in conflict; bookkeeping.  The
    attachment pass touches neither documents, queue nor conflicts and is
    left out.  [None] is the terminal state Aborted. *)
Definition syncCycle (s : EngineState) : EngineState * option SyncResult :=
  if negb (connected env) then (s, None)
  else
    let start := {| st := s;
                    res := {| uploaded := 0; downloaded := 0; conflicts := 0; errors := 0 |};
                    conflicted := ∅ |} in
    let pulled := foldl pull_step start (listing s) in
    let pushed := foldl push_step pulled (map_to_list (queue (st pulled))) in
    (finish (st pushed), Some (res pushed)).

End Cycle.

(** ** What a cycle keeps of one document in conflict *)

Section Invariants.

Variable env : Env.
Variable s : EngineState.
Variable id : string.
Variable rd : RemoteDoc.

(** The record the conflict check makes of the document [id]. *)
Definition the_record : ConflictRecord :=
  {| c_docId := id; localDoc := default JNull (localDocs s !! id);
     remoteDoc := r_doc rd; c_timestamp := now env |}.

(** What the pull phase keeps of the document [id]. *)
Definition pull_inv (c : Cycle) : Prop :=
  queue (st c) = queue s
  /\ remoteDocs (st c) = remoteDocs s
  /\ localDocs (st c) !! id = localDocs s !! id
  /\ checkpoints (st c) !! id = checkpoints s !! id
  /\ exists new, conflictStore (st c) = conflictStore s ++ new
                 /\ conflicts (res c) = length new
                 /\ (id ∈ conflicted c -> the_record ∈ new).

(** What the push phase keeps of a document in conflict. *)
Definition push_inv (c0 c : Cycle) : Prop :=
  id ∈ conflicted c
  /\ queue (st c) !! id = queue (st c0) !! id
  /\ remoteDocs (st c) !! id = remoteDocs (st c0) !! id
  /\ localDocs (st c) = localDocs (st c0)
  /\ conflictStore (st c) = conflictStore (st c0)
  /\ conflicts (res c) = conflicts (res c0).

End Invariants.

End Engine.

(* ===================================================================== *)
(** * Vocabulary of the statements *)
(* ===================================================================== *)

(** The server once it has received [rq]. *)
Definition sent (rq : WebDAV.request) (s : WebDAV.server) : WebDAV.server :=
  {| WebDAV.resources := WebDAV.resources s; WebDAV.clock := WebDAV.clock s;
     WebDAV.faults := tail (WebDAV.faults s); WebDAV.log := WebDAV.log s ++ [rq] |}.

Definition on_remote (f : WebDAV.server -> WebDAV.server) (st : state) : state :=
  {| client := client st; remote := f (remote st) |}.

(** The remote is reachable: no request is lost. *)
Definition reachable (st : state) : Prop := WebDAV.faults (remote st) = [].

(** The next [n] requests are answered. *)
Definition answered (n : nat) (st : state) : Prop :=
  forallb (fun o => match o with None => true | Some _ => false end)
          (firstn n (WebDAV.faults (remote st))) = true.

(** The remote layout: the sync directory and, inside it, the attachments
    directory; nothing else inside the sync directory is a directory. *)
Definition layout (st : state) : Prop :=
  let fs := WebDAV.resources (remote st) in
  fs !! "/ztools-sync" = Some WebDAV.Directory
  /\ fs !! "/ztools-sync/attachments" = Some WebDAV.Directory
  /\ forall p, fs !! p = Some WebDAV.Directory ->
               WebDAV.dir_of p = "/ztools-sync" -> p = "/ztools-sync/attachments".

(** A client object just constructed, in front of an empty server. *)
Definition fresh (fl : list (option error)) : state :=
  {| client := None;
     remote := {| WebDAV.resources := ∅; WebDAV.clock := 1700000000000;
                  WebDAV.faults := fl; WebDAV.log := [] |} |}.

Definition sample_config : SyncConfig :=
  {| enabled := true; serverUrl := "https://dav.example.org/remote.php/dav";
     cfg_username := "alice"; cfg_password := "secret";
     syncInterval := 300; lastSyncTime := 0; deviceId := "device-1" |}.

(** The requests a method sent: what the log gained. *)
Definition new_requests (before after : state) : list WebDAV.request :=
  List.skipn (length (WebDAV.log (remote before))) (WebDAV.log (remote after)).

(** The handle [init] creates from a configuration, and the object with
    that handle set. *)
Definition handle (config : SyncConfig) : WebDAV.WebDAVClient :=
  WebDAV.createClient (serverUrl config) (cfg_username config) (cfg_password config).

Definition opened (config : SyncConfig) (st : state) : state :=
  {| client := Some (handle config); remote := remote st |}.


(** The [try] block of [downloadAttachment] with its [catch]: it never
    throws. *)
Definition fetch_metadata (c : WebDAV.WebDAVClient) (docId : string) : M (option json) :=
  try_catch (A := option json)
    (metaExists ← await (WebDAV.exists_ c (metaPath docId));
     if (metaExists : bool) then
       metaContent ← await (WebDAV.getFileContents c (metaPath docId) WebDAV.Text);
       match JSON.parse metaContent with
       | Some v => ret (Some v)
       | None => throw SyntaxError
       end
     else ret None)
    (fun _ => ret None).


(** The client after [init] with the sample configuration, in front of a
    server that was empty. *)
Definition after_init (fl : list (option error)) : state :=
  snd (WebDAVSyncClient.init sample_config (fresh fl)).

(** A second client object, just constructed, in front of the server the
    first one has initialised; [fl] are the outcomes of its requests. *)
Definition second_client (fl : list (option error)) : state :=
  let s := remote (after_init []) in
  {| client := None;
     remote := {| WebDAV.resources := WebDAV.resources s; WebDAV.clock := WebDAV.clock s;
                  WebDAV.faults := fl; WebDAV.log := WebDAV.log s |} |}.

(** The state once [data] has been written at [p]. *)
Definition stored (p data : string) (st : state) : state :=
  on_remote (fun s =>
    {| WebDAV.resources := <[p := WebDAV.File data (WebDAV.clock s)]> (WebDAV.resources s);
       WebDAV.clock := WebDAV.clock s + 1;
       WebDAV.faults := tail (WebDAV.faults s);
       WebDAV.log := WebDAV.log s ++ [WebDAV.ReqPut p data] |}) st.

(** The conflict scenario of the spec: the document [A] was edited locally
    (its entry is pending) and, since its checkpoint at time 100, remotely
    too (time 200); another document [B] changed only remotely. *)
Definition scenario_local_A : json := JObj [("_id", JStr "A"); ("text", JStr "edited here")].
Definition scenario_remote_A : json := JObj [("_id", JStr "A"); ("text", JStr "edited there")].
Definition scenario_remote_B : json := JObj [("_id", JStr "B"); ("text", JStr "new")].

Definition scenario : Engine.EngineState :=
  {| Engine.localDocs := {[ "A" := scenario_local_A ]};
     Engine.queue := {[ "A" := {| q_docId := "A"; q_operation := OpPut;
                                  q_timestamp := 150; retryCount := 0 |} ]};
     Engine.checkpoints := {[ "A" := 100%Z ]};
     Engine.conflictStore := [];
     Engine.remoteDocs :=
       {[ "A" := {| Engine.r_doc := scenario_remote_A; Engine.r_lastModified := 200 |};
          "B" := {| Engine.r_doc := scenario_remote_B; Engine.r_lastModified := 210 |} ]};
     Engine.e_lastSyncTime := 100 |}.

Definition scenario_env : Engine.Env :=
  {| Engine.now := 300; Engine.connected := true;
     Engine.transport_ok := fun _ => true; Engine.maxRetries := 3 |}.

(** A remote where the attachment [icon] has its payload and a sidecar
    that is not JSON. *)
Definition broken_sidecar : state :=
  stored (metaPath "icon") "{ not json"
    (snd (WebDAVSyncClient.uploadAttachment "icon" "PNG-bytes" None (after_init []))).



(** A document whose id holds the text the [webdav] package reserves for
    the path separator, and one with numbers that are not integers. *)
Definition reserved_doc : json :=
  JObj [("_id", JStr "a__PATH_SEPARATOR_POSIX__b"); ("text", JStr "hello")].

Definition measured_doc : json :=
  JObj [("_id", JStr "measure"); ("opacity", JDec false 8 (-1));
        ("ratio", JDec true 15 (-1)); ("tiny", JDec false 5 (-324));
        ("big", JDec false 12 20); ("count", JNum 9007199254740991)].

(** The same attachment with a sidecar that holds a fraction, in compact
    text. *)
Definition sized_sidecar : state :=
  stored (metaPath "icon") ("{" +:+ JSON.lit "size" +:+ ":1.5}")
    (snd (WebDAVSyncClient.uploadAttachment "icon" "PNG-bytes" None (after_init []))).

(** A document whose id holds the text [.json]. *)
Definition backup_doc : json :=
  JObj [("_id", JStr "notes.json.bak"); ("text", JStr "hello")].

(* ===================================================================== *)
(** * Vocabulary of the further statements *)
(* ===================================================================== *)

(** The state once the resource at [p], with all it contains, has been
    deleted. *)
Definition deleted (p : string) (st : state) : state :=
  on_remote (fun s =>
    WebDAV.with_resources (sent (WebDAV.ReqDelete p) s)
      (filter (fun kv => negb (WebDAV.under p (fst kv))) (delete p (WebDAV.resources s)))) st.

(** The attachments directory is there and holds no directory. *)
Definition attachments_layout (st : state) : Prop :=
  let fs := WebDAV.resources (remote st) in
  fs !! "/ztools-sync/attachments" = Some WebDAV.Directory
  /\ forall p, fs !! p = Some WebDAV.Directory ->
               WebDAV.dir_of p <> "/ztools-sync/attachments".

(** A method that leaves the resources of the remote and the handle as
    they were, in every state. *)
Definition read_only {A : Type} (m : M A) : Prop :=
  forall st,
    WebDAV.resources (remote (snd (m st))) = WebDAV.resources (remote st)
    /\ client (snd (m st)) = client st.

(** The remote after [init], with one more file, written by another tool,
    whose name is not an encoded id. *)
Definition foreign_file : state :=
  stored "/ztools-sync/100%.json" "{}" (after_init []).

(** Two documents and an attachment for the examples. *)
Definition doc_a : json := JObj [("_id", JStr "a/1"); ("n", JNum 1)].
Definition doc_b : json := JObj [("_id", JStr "b:2"); ("n", JNum 2)].
Definition icon_meta : json := JObj [("type", JStr "image/png"); ("size", JNum 9)].

(** A client with its handle set whose next request the server refuses
    (507 Insufficient Storage). *)
Definition full_disk : state :=
  {| client := Some (handle sample_config);
     remote := remote (second_client [Some (HttpError 507)]) |}.

(** What [downloadAttachment] makes of the sidecar of [id]: the value
    parsed from its text, or [undefined]. *)
Definition sidecar (id : string) (st : state) : option json :=
  match WebDAV.resources (remote st) !! metaPath id with
  | Some (WebDAV.File body _) => JSON.parse (JS.text_of_bytes body)
  | _ => None
  end.

(** The remote after [init] and the upload of the attachment [icon] with
    its metadata. *)
Definition with_icon : state :=
  snd (WebDAVSyncClient.uploadAttachment "icon" "PNG-bytes" (Some icon_meta) (after_init [])).

(** A client with its handle set in front of the server that holds [icon],
    whose first request is answered and whose second is lost. *)
Definition flaky : state :=
  {| client := Some (handle sample_config);
     remote := {| WebDAV.resources := WebDAV.resources (remote with_icon);
                  WebDAV.clock := WebDAV.clock (remote with_icon);
                  WebDAV.faults := [None; Some NetworkError];
                  WebDAV.log := WebDAV.log (remote with_icon) |} |}.

(** A client with its handle set in front of the server that holds [icon],
    whose first request is answered 404. *)
Definition not_found_once : state :=
  {| client := Some (handle sample_config);
     remote := {| WebDAV.resources := WebDAV.resources (remote with_icon);
                  WebDAV.clock := WebDAV.clock (remote with_icon);
                  WebDAV.faults := [Some (HttpError 404)];
                  WebDAV.log := WebDAV.log (remote with_icon) |} |}.

(* ===================================================================== *)
(** * Facts about strings *)
(* ===================================================================== *)

Example encode_slash : JS.encodeURIComponent "a/b:c d" = "a%2Fb%3Ac%20d".
Proof. reflexivity. Qed.

Example decode_slash : JS.decodeURIComponent "a%2Fb%3Ac%20d" = Some "a/b:c d".
Proof. reflexivity. Qed.

Example decode_malformed : JS.decodeURIComponent "100%" = None.
Proof. reflexivity. Qed.

Example decode_bad_utf8 : JS.decodeURIComponent "%FF" = None.
Proof. reflexivity. Qed.

Example replace_first_only : JS.replace ".json" "" "a.json.b.json" = "a.b.json".
Proof. reflexivity. Qed.


Lemma app_String c a b : String c a +:+ b = String c (a +:+ b).
Proof. reflexivity. Qed.
Lemma app_empty_l b : EmptyString +:+ b = b.
Proof. reflexivity. Qed.
Lemma app_empty_r a : a +:+ EmptyString = a.
Proof. induction a as [|c a IH]; [done|]. by rewrite app_String, IH. Qed.
Lemma app_assoc_s a b c : (a +:+ b) +:+ c = a +:+ (b +:+ c).
Proof. induction a as [|x a IH]; [done|]. by rewrite !app_String, IH. Qed.
Lemma length_app_s a b : String.length (a +:+ b) = String.length a + String.length b.
Proof. induction a as [|x a IH]; [done|]. rewrite app_String. simpl. by rewrite IH. Qed.
Lemma drop_app_s a b : JS.drop (String.length a) (a +:+ b) = b.
Proof. induction a as [|x a IH]; [by destruct b|]. done. Qed.

Section Digits.

(** ** Digits *)

Lemma digits_value_from_app acc a b :
  JS.digits_value_from acc (a +:+ b) = JS.digits_value_from (JS.digits_value_from acc a) b.
Proof. revert acc. induction a as [|c a IH]; intros acc; [done|]. apply IH. Qed.

Lemma digits_value_from_shift acc s :
  JS.digits_value_from acc s
  = (acc * 10 ^ N.of_nat (String.length s) + JS.digits_value s)%N.
Proof.
  unfold JS.digits_value. revert acc. induction s as [|c s IH]; intros acc.
  - simpl. lia.
  - cbn [JS.digits_value_from String.length]. rewrite IH, (IH (10 * 0 + _)%N).
    rewrite Nat2N.inj_succ, N.pow_succ_r'. lia.
Qed.

Lemma digits_value_app a b :
  JS.digits_value (a +:+ b)
  = (JS.digits_value a * 10 ^ N.of_nat (String.length b) + JS.digits_value b)%N.
Proof.
  unfold JS.digits_value at 1. rewrite digits_value_from_app, digits_value_from_shift. done.
Qed.

Lemma digits_value_zeros n : JS.digits_value (JSON.zeros n) = 0%N.
Proof. induction n as [|n IH]; [done|]. exact IH. Qed.

Lemma length_zeros n : String.length (JSON.zeros n) = n.
Proof. induction n as [|n IH]; [done|]. simpl. by rewrite IH. Qed.

Lemma digits_zeros n : JS.all_chars JS.is_digit (JSON.zeros n) = true.
Proof. induction n as [|n IH]; [done|]. exact IH. Qed.

(** The digits of a decimal of the library denote its value. *)
Lemma digits_value_acc d acc :
  JS.digits_value_from (Npos acc) (NilEmpty.string_of_uint d) = Npos (Pos.of_uint_acc d acc).
Proof.
  revert acc. induction d; intros acc; [done|..];
    cbn [NilEmpty.string_of_uint JS.digits_value_from Pos.of_uint_acc]; rewrite <- IHd;
    f_equal; cbn; lia.
Qed.

Lemma digits_value_uint d : JS.digits_value (NilEmpty.string_of_uint d) = Pos.of_uint d.
Proof.
  unfold JS.digits_value. induction d; [done|..];
    cbn [NilEmpty.string_of_uint JS.digits_value_from Pos.of_uint];
    [exact IHd|..]; rewrite <- digits_value_acc; f_equal.
Qed.

Lemma string_of_uint_nonnil d :
  d <> Decimal.Nil -> NilZero.string_of_uint d = NilEmpty.string_of_uint d.
Proof. by destruct d. Qed.

Lemma digits_string_of_uint d : JS.all_chars JS.is_digit (NilEmpty.string_of_uint d) = true.
Proof. induction d; simpl; auto. Qed.

(** The decimal of an integer that is not negative: digits, at least one,
    that denote it; the first is [0] only for zero. *)
Lemma string_of_Z_digits m :
  (0 <= m)%Z ->
  JS.all_chars JS.is_digit (JSON.string_of_Z m) = true
  /\ Z.of_N (JS.digits_value (JSON.string_of_Z m)) = m
  /\ exists c r, JSON.string_of_Z m = String c r
       /\ ((0 < m)%Z -> Ascii.eqb c "0" = false).
Proof.
  intros Hm. destruct m as [|p|p]; [|clear Hm|lia].
  - split; [done|split; [done|]]. exists "0"%char, EmptyString. split; [done|lia].
  - unfold JSON.string_of_Z. cbn [Z.to_int NilZero.string_of_int].
    pose proof (DecimalPos.Unsigned.to_uint_nonnil p) as Hn.
    rewrite string_of_uint_nonnil by done. split; [apply digits_string_of_uint|]. split.
    + rewrite digits_value_uint, DecimalPos.Unsigned.of_to. done.
    + pose proof (DecimalN.Unsigned.to_of (Pos.to_uint p)) as Hu.
      change (N.of_uint (Pos.to_uint p)) with (Pos.of_uint (Pos.to_uint p)) in Hu.
      rewrite DecimalPos.Unsigned.of_to in Hu. cbn [N.to_uint] in Hu.
      pose proof (DecimalPos.Unsigned.to_uint_nonzero p) as Hz.
      destruct (Pos.to_uint p) as [|u|u|u|u|u|u|u|u|u|u] eqn:E; try done;
        try (eexists _, _; split; [reflexivity|done]).
      exfalso. unfold Decimal.unorm in Hu. cbn [Decimal.nzhead] in Hu.
      pose proof (DecimalFacts.nb_digits_nzhead u) as Hlen.
      destruct (Decimal.nzhead u) eqn:En;
        [injection Hu as ->; by apply Hz|..];
        rewrite <- Hu in Hlen; cbn [Decimal.nb_digits] in Hlen; lia.
Qed.

Lemma string_of_Z_neg m :
  (m < 0)%Z -> JSON.string_of_Z m = String "-" (JSON.string_of_Z (- m)).
Proof.
  intros Hm. destruct m as [|p|p]; [lia|lia|]. unfold JSON.string_of_Z.
  cbn [Z.to_int Z.opp NilZero.string_of_int]. done.
Qed.

End Digits.


(* ===================================================================== *)
(** * Numbers: reading and writing *)
(* ===================================================================== *)

Section Numbers.
Import JSON.

(** ** Reading a number *)

Lemma not_num_char c :
  num_char c = false ->
  JS.is_digit c = false /\ Ascii.eqb c "." = false /\ Ascii.eqb c "e" = false
  /\ Ascii.eqb c "E" = false /\ Ascii.eqb c "-" = false.
Proof. destruct c as [[] [] [] [] [] [] [] []]; intros H; try discriminate H; done. Qed.

Lemma digit_not_sign c :
  JS.is_digit c = true ->
  Ascii.eqb c "-" = false /\ Ascii.eqb c "." = false /\ Ascii.eqb c "e" = false
  /\ Ascii.eqb c "E" = false /\ Ascii.eqb c "+" = false.
Proof. destruct c as [[] [] [] [] [] [] [] []]; intros H; try discriminate H; done. Qed.


Lemma no_digit_rest rest : ok_rest rest = true -> no_digit rest.
Proof.
  destruct rest as [|c r]; [done|]. unfold ok_rest, no_digit. simpl.
  intros H%negb_true_iff%not_num_char. by destruct H as (-> & _).
Qed.

Lemma read_digits_app ds rest :
  JS.all_chars JS.is_digit ds = true -> no_digit rest ->
  read_digits (ds +:+ rest) = (ds, rest).
Proof.
  intros Hd Hr. unfold read_digits.
  assert (E : JS.take_digits (ds +:+ rest) = ds).
  { induction ds as [|c ds IH]; [done|]. simpl in Hd.
    apply andb_true_iff in Hd as [Hc Hd]. rewrite app_String. simpl. by rewrite Hc, IH. }
  by rewrite E, drop_app_s.
Qed.


Lemma read_exponent_text x rest :
  ok_rest rest = true -> read_exponent (exponent_text x +:+ rest) = Some (x, rest).
Proof.
  intros Hr. unfold exponent_text.
  destruct (string_of_Z_digits (Z.abs x)) as (Hd & Hv & c & r & Es & _); [lia|].
  assert (H : forall sign : bool,
            read_exponent ("e" +:+ (if sign then "-" else "+") +:+ string_of_Z (Z.abs x) +:+ rest)
            = Some (if sign then (- Z.abs x)%Z else Z.abs x, rest)).
  { intros sign. unfold read_exponent.
    destruct sign; rewrite !app_String, !app_empty_l; cbn [Ascii.eqb Bool.eqb orb];
      rewrite read_digits_app by (done || by apply no_digit_rest);
      rewrite Es, <- Es, Hv; done. }
  rewrite !app_assoc_s, H. destruct (x <? 0)%Z eqn:E; do 2 f_equal; lia.
Qed.

Lemma read_exponent_none rest :
  ok_rest rest = true -> read_exponent rest = Some (0%Z, rest).
Proof.
  destruct rest as [|c r]; [done|]. unfold ok_rest, read_exponent.
  intros H%negb_true_iff%not_num_char. destruct H as (_ & _ & -> & -> & _). done.
Qed.

Lemma read_fraction_text fp rest :
  JS.all_chars JS.is_digit fp = true -> fp <> EmptyString -> no_digit rest ->
  read_fraction ("." +:+ fp +:+ rest) = Some (fp, rest).
Proof.
  intros Hd Hn Hr. unfold read_fraction. rewrite app_String, app_empty_l.
  cbn [Ascii.eqb Bool.eqb]. rewrite read_digits_app by done. by destruct fp.
Qed.

Lemma no_digit_exponent x rest : no_digit (exponent_text x +:+ rest).
Proof. done. Qed.

Lemma read_fraction_none_exponent x rest :
  read_fraction (exponent_text x +:+ rest) = Some (EmptyString, exponent_text x +:+ rest).
Proof. done. Qed.

Lemma read_fraction_none rest :
  ok_rest rest = true -> read_fraction rest = Some (EmptyString, rest).
Proof.
  destruct rest as [|c r]; [done|]. unfold ok_rest, read_fraction.
  intros H%negb_true_iff%not_num_char. destruct H as (_ & -> & _). done.
Qed.


Lemma parse_number_literal neg ip fp ex rest :
  JS.all_chars JS.is_digit ip = true -> JS.all_chars JS.is_digit fp = true ->
  (exists d more, ip = String d more
     /\ (Ascii.eqb d "0" = true -> more = EmptyString)) ->
  ok_rest rest = true ->
  parse_number (literal neg ip fp ex +:+ rest)
  = Some (canonical neg (Z.of_N (JS.digits_value (ip +:+ fp)))
            (default 0%Z ex - Z.of_nat (String.length fp))%Z, rest).
Proof.
  intros Hip Hfp (d & more & -> & Hz) Hr.
  assert (Hd : JS.is_digit d = true) by (simpl in Hip; by apply andb_true_iff in Hip as [? _]).
  destruct (digit_not_sign d Hd) as (Hm & _).
  set (tail3 := match ex with Some x => exponent_text x | None => "" end +:+ rest).
  set (tail2 := match fp with EmptyString => "" | _ => "." +:+ fp end +:+ tail3).
  assert (E : literal neg (String d more) fp ex +:+ rest
              = (if neg then "-" else "") +:+ String d more +:+ tail2).
  { unfold literal, tail2, tail3. by rewrite !app_assoc_s. }
  rewrite E. clear E. unfold parse_number.
  assert (Hnd3 : no_digit tail3).
  { unfold tail3. destruct ex; [done|]. rewrite app_empty_l. by apply no_digit_rest. }
  assert (Hnd2 : no_digit tail2).
  { unfold tail2. destruct fp; [by rewrite app_empty_l|done]. }
  assert (H3 : read_fraction tail2 = Some (fp, tail3)).
  { unfold tail2. destruct fp as [|c fp'] eqn:Efp.
    - rewrite app_empty_l. unfold tail3. destruct ex.
      + apply read_fraction_none_exponent.
      + rewrite app_empty_l. by apply read_fraction_none.
    - rewrite app_assoc_s. by apply read_fraction_text. }
  assert (H4 : read_exponent tail3 = Some (default 0%Z ex, rest)).
  { unfold tail3. destruct ex; [by apply read_exponent_text|].
    rewrite app_empty_l. by apply read_exponent_none. }
  destruct neg.
  - rewrite app_String, app_empty_l. cbn [Ascii.eqb Bool.eqb].
    rewrite read_digits_app by done.
    destruct (Ascii.eqb d "0") eqn:Ed.
    + rewrite (Hz eq_refl). cbn [String.eqb negb andb]. by rewrite H3, H4.
    + cbn [andb]. by rewrite H3, H4.
  - rewrite app_empty_l, app_String, Hm, <- app_String.
    rewrite read_digits_app by done.
    destruct (Ascii.eqb d "0") eqn:Ed.
    + rewrite (Hz eq_refl). cbn [String.eqb negb andb]. by rewrite H3, H4.
    + cbn [andb]. by rewrite H3, H4.
Qed.

End Numbers.

Section Decimals.
Import JSON.

(** ** Trailing zeros *)

Lemma strip_from_pow (j fuel : nat) s e :
  (0 < s)%Z -> (s mod 10 <> 0)%Z -> j <= fuel ->
  Number.strip_from fuel (s * 10 ^ Z.of_nat j) e = (s, (e + Z.of_nat j)%Z).
Proof.
  intros Hs Hm. revert fuel e. induction j as [|j IH]; intros fuel e Hf.
  - rewrite Z.mul_1_r, Z.add_0_r. destruct fuel; [done|]. simpl.
    by apply Z.eqb_neq in Hm as ->.
  - destruct fuel as [|f]; [lia|]. cbn [Number.strip_from].
    rewrite Nat2Z.inj_succ, Z.pow_succ_r by lia.
    replace (s * (10 * 10 ^ Z.of_nat j))%Z with (s * 10 ^ Z.of_nat j * 10)%Z by lia.
    rewrite Z.mod_mul by lia. rewrite Z.div_mul by lia.
    assert (0 < s * 10 ^ Z.of_nat j * 10)%Z as ->%Z.ltb_lt by (apply Z.mul_pos_pos; lia).
    cbn [Z.eqb andb]. rewrite IH by lia. f_equal. lia.
Qed.

Lemma strip_pow s e j :
  (0 < s)%Z -> (s mod 10 <> 0)%Z -> (0 <= j)%Z ->
  Number.strip (s * 10 ^ j) e = (s, (e + j)%Z).
Proof.
  intros Hs Hm Hj. unfold Number.strip.
  assert (2 ^ j <= s * 10 ^ j)%Z.
  { transitivity (10 ^ j)%Z; [apply Z.pow_le_mono_l; lia|].
    assert (0 < 10 ^ j)%Z by (apply Z.pow_pos_nonneg; lia). nia. }
  apply Z.log2_le_mono in H. rewrite Z.log2_pow2 in H by done.
  revert H. generalize (Z.log2 (s * 10 ^ j)). intros b Hb.
  rewrite <- (Z2Nat.id j) by done.
  apply strip_from_pow; [done|done|lia].
Qed.

(** The value of a decimal does not depend on where its zeros are
    written. *)
Lemma canonical_pow neg s e j :
  (0 < s)%Z -> (s mod 10 <> 0)%Z -> (0 <= j)%Z ->
  canonical neg (s * 10 ^ j) (e - j) = canonical neg s e.
Proof.
  intros Hs Hm Hj. unfold canonical.
  assert (0 < s * 10 ^ j)%Z by (apply Z.mul_pos_pos; [done|apply Z.pow_pos_nonneg; lia]).
  assert ((s * 10 ^ j <=? 0)%Z = false) as -> by (apply Z.leb_gt; lia).
  assert ((s <=? 0)%Z = false) as -> by (apply Z.leb_gt; lia).
  rewrite strip_pow by done. replace (e - j + j)%Z with e by lia.
  pose proof (strip_pow s e 0 Hs Hm ltac:(lia)) as H0.
  rewrite Z.mul_1_r, Z.add_0_r in H0. by rewrite H0.
Qed.

Lemma strip_from_value fuel m e :
  (0 < m)%Z ->
  let '(m1, e1) := Number.strip_from fuel m e in
  (0 < m1)%Z /\ (e <= e1)%Z /\ (m1 * 10 ^ (e1 - e) = m)%Z.
Proof.
  revert m e. induction fuel as [|f IH]; intros m e Hm; cbn [Number.strip_from].
  - rewrite Z.sub_diag. lia.
  - destruct (m mod 10 =? 0)%Z eqn:E; cbn [andb]; [|rewrite Z.sub_diag; lia].
    assert ((0 <? m)%Z = true) as -> by (by apply Z.ltb_lt).
    apply Z.eqb_eq in E. pose proof (Z.div_mod m 10 ltac:(lia)) as Hd.
    specialize (IH (m / 10)%Z (e + 1)%Z ltac:(lia)).
    destruct (Number.strip_from f (m / 10) (e + 1)) as [m1 e1].
    destruct IH as (H1 & H2 & H3). split; [done|]. split; [lia|].
    replace (e1 - e)%Z with (Z.succ (e1 - (e + 1))) by lia.
    rewrite Z.pow_succ_r by lia. lia.
Qed.

(** An integer up to [2^53] is written as itself. *)
Lemma canonical_integer n :
  (Z.abs n <= 9007199254740992)%Z -> canonical (n <? 0)%Z (Z.abs n) 0 = JNum n.
Proof.
  intros Hn. unfold canonical. destruct (Z.abs n <=? 0)%Z eqn:E.
  - apply Z.leb_le in E. assert (n = 0%Z) as -> by lia. done.
  - apply Z.leb_gt in E. unfold Number.strip.
    pose proof (strip_from_value (Z.to_nat (Z.log2 (Z.abs n))) (Z.abs n) 0 E) as H.
    destruct (Number.strip_from _ _ _) as [m1 e1]. destruct H as (H1 & H2 & H3).
    rewrite Z.sub_0_r in H3.
    assert (He : (e1 <= 15)%Z).
    { destruct (Z.le_gt_cases e1 15) as [|Hgt]; [done|exfalso].
      assert (10 ^ 16 <= 10 ^ e1)%Z by (apply Z.pow_le_mono_r; lia).
      assert (10 ^ e1 <= m1 * 10 ^ e1)%Z by nia. 
      change (10 ^ 16)%Z with 10000000000000000%Z in *. lia. }
    unfold Number.safe_integer.
    assert ((0 <=? e1)%Z = true) as -> by (by apply Z.leb_le).
    assert ((e1 <=? 15)%Z = true) as -> by (by apply Z.leb_le).
    assert ((m1 * 10 ^ e1 <=? 9007199254740992)%Z = true) as -> by (apply Z.leb_le; lia).
    cbn [andb]. rewrite H3. f_equal. destruct (n <? 0)%Z eqn:En; lia.
Qed.

(** ** The text of a decimal *)

Lemma prefix_drop n s : prefix n s +:+ JS.drop n s = s.
Proof.
  revert s. induction n as [|n IH]; intros [|c s]; try done.
  cbn [prefix JS.drop]. by rewrite app_String, IH.
Qed.

Lemma length_prefix n s : n <= String.length s -> String.length (prefix n s) = n.
Proof.
  revert s. induction n as [|n IH]; intros [|c s] H; simpl in *; try done; try lia.
  rewrite IH; lia.
Qed.

Lemma all_chars_split P n s :
  JS.all_chars P s = true ->
  JS.all_chars P (prefix n s) = true /\ JS.all_chars P (JS.drop n s) = true.
Proof.
  revert s. induction n as [|n IH]; intros [|c s] H; try done.
  simpl in *. apply andb_true_iff in H as [Hc Hs]. rewrite Hc.
  by destruct (IH s Hs).
Qed.

Lemma all_chars_app P a b :
  JS.all_chars P a = true -> JS.all_chars P b = true -> JS.all_chars P (a +:+ b) = true.
Proof.
  induction a as [|c a IH]; [done|]. simpl. intros [Hc Ha]%andb_true_iff Hb.
  rewrite Hc. auto.
Qed.


(** The text of a decimal is a literal of the grammar that writes the
    same decimal. *)
Lemma decimal_text_literal s q :
  (0 < s)%Z -> (s mod 10 <> 0)%Z ->
  exists ip fp ex (j : Z),
    decimal_text s q = literal false ip fp ex
    /\ JS.all_chars JS.is_digit ip = true /\ JS.all_chars JS.is_digit fp = true
    /\ (exists d more, ip = String d more /\ (Ascii.eqb d "0" = true -> more = EmptyString))
    /\ (0 <= j)%Z
    /\ Z.of_N (JS.digits_value (ip +:+ fp)) = (s * 10 ^ j)%Z
    /\ (default 0%Z ex - Z.of_nat (String.length fp) = q - j)%Z.
Proof.
  intros Hs Hm. unfold decimal_text.
  destruct (string_of_Z_digits s) as (Hd & Hv & c & r & Es & Hc); [lia|].
  specialize (Hc Hs).
  set (ds := string_of_Z s) in *. set (k := String.length ds).
  assert (Hk : 1 <= k) by (unfold k; rewrite Es; simpl; lia).
  set (n := (Z.of_nat k + q)%Z).
  assert (Hhead : forall i, 1 <= i -> exists more, prefix i ds = String c more
                    /\ (Ascii.eqb c "0" = true -> more = EmptyString)).
  { intros [|i] Hi; [lia|]. rewrite Es. simpl. eexists; split; [done|]. by rewrite Hc. }
  destruct ((Z.of_nat k <=? n)%Z && (n <=? 21)%Z) eqn:Ca.
  { (* digits, then zeros *)
    apply andb_true_iff in Ca as [Hq%Z.leb_le _].
    exists (ds +:+ zeros (Z.to_nat q)), EmptyString, None, q.
    unfold literal. rewrite !app_empty_r, app_empty_l. split; [done|].
    split; [apply all_chars_app; [done|apply digits_zeros]|]. split; [done|].
    split. { rewrite Es, app_String. eexists _, _; split; [done|]. by rewrite Hc. }
    split; [unfold n in Hq; lia|]. split; [|simpl; lia].
    rewrite digits_value_app, digits_value_zeros, length_zeros, N.add_0_r.
    rewrite N2Z.inj_mul, N2Z.inj_pow, Hv. simpl Z.of_N. rewrite nat_N_Z, Z2Nat.id; [done|].
    unfold n in Hq. lia. }
  destruct ((0 <? n)%Z && (n <=? 21)%Z) eqn:Cb.
  { (* a point inside the digits *)
    apply andb_true_iff in Cb as [Hn%Z.ltb_lt Hn21%Z.leb_le].
    apply andb_false_iff in Ca as [Ca%Z.leb_gt|Ca%Z.leb_gt]; [|lia].
    destruct (all_chars_split _ (Z.to_nat n) ds Hd) as [H1 H2].
    assert (Hlen : String.length (JS.drop (Z.to_nat n) ds) = k - Z.to_nat n).
    { pose proof (f_equal String.length (prefix_drop (Z.to_nat n) ds)) as H.
      rewrite length_app_s, length_prefix in H by (fold k; lia). fold k in H. lia. }
    exists (prefix (Z.to_nat n) ds), (JS.drop (Z.to_nat n) ds), None, 0%Z.
    unfold literal. rewrite app_empty_l, app_empty_r.
    split. { destruct (JS.drop (Z.to_nat n) ds) eqn:E; [simpl in Hlen; lia|done]. }
    split; [done|]. split; [done|].
    split. { destruct (Hhead (Z.to_nat n) ltac:(lia)) as (more & -> & H). by eexists _, _. }
    split; [lia|]. rewrite prefix_drop, Hv, Hlen, Z.pow_0_r, Z.mul_1_r, Z.sub_0_r.
    split; [done|]. simpl. unfold n in *. lia. }
  destruct ((-6 <? n)%Z && (n <=? 0)%Z) eqn:Cc.
  { (* zeros after the point *)
    apply andb_true_iff in Cc as [_ Hn%Z.leb_le].
    exists "0", (zeros (Z.to_nat (- n)) +:+ ds), None, 0%Z.
    unfold literal. rewrite app_empty_l, app_empty_r.
    split. { rewrite Es. by destruct (Z.to_nat (- n)). }
    split; [done|]. split; [apply all_chars_app; [apply digits_zeros|done]|].
    split; [by eexists _, _|]. split; [lia|].
    rewrite length_app_s, length_zeros. fold k. split; [|simpl; unfold n in *; lia].
    rewrite app_String, app_empty_l.
    change (JS.digits_value (String "0" ?t)) with (JS.digits_value t).
    rewrite digits_value_app, digits_value_zeros, N.mul_0_l, N.add_0_l, Hv. lia. }
  (* the exponent form *)
  destruct (k =? 1)%nat eqn:Ck.
  - apply Nat.eqb_eq in Ck.
    exists ds, EmptyString, (Some (n - 1)%Z), 0%Z.
    unfold literal. rewrite app_empty_l. split; [done|].
    split; [done|]. split; [done|].
    split. { rewrite Es. eexists _, _; split; [done|]. by rewrite Hc. }
    split; [lia|]. rewrite app_empty_r, Hv, Z.pow_0_r, Z.mul_1_r, Z.sub_0_r.
    split; [done|]. simpl. unfold n. lia.
  - apply Nat.eqb_neq in Ck.
    destruct (all_chars_split _ 1 ds Hd) as [H1 H2].
    assert (Hlen : String.length (JS.drop 1 ds) = k - 1).
    { unfold k. rewrite Es. simpl. lia. }
    exists (prefix 1 ds), (JS.drop 1 ds), (Some (n - 1)%Z), 0%Z.
    unfold literal. rewrite app_empty_l.
    split. { destruct (JS.drop 1 ds) eqn:E; [simpl in Hlen; lia|]. by rewrite !app_assoc_s. }
    split; [done|]. split; [done|].
    split. { destruct (Hhead 1 ltac:(lia)) as (more & -> & H). by eexists _, _. }
    split; [lia|]. rewrite prefix_drop, Hv, Hlen, Z.pow_0_r, Z.mul_1_r, Z.sub_0_r.
    split; [done|]. simpl. unfold n. lia.
Qed.

(** Reading the text of a number gives the number. *)
Lemma parse_decimal_text (neg : bool) s q rest :
  (0 < s)%Z -> (s mod 10 <> 0)%Z -> ok_rest rest = true ->
  parse_number ((if neg then "-" else "") +:+ decimal_text s q +:+ rest)
  = Some (canonical neg s q, rest).
Proof.
  intros Hs Hm Hr.
  destruct (decimal_text_literal s q Hs Hm)
    as (ip & fp & ex & j & -> & Hip & Hfp & Hz & Hj & Hv & He).
  assert (E : (if neg then "-" else "") +:+ literal false ip fp ex +:+ rest
              = literal neg ip fp ex +:+ rest).
  { unfold literal. by rewrite !app_empty_l, !app_assoc_s. }
  rewrite E, parse_number_literal by done. rewrite Hv, He.
  by rewrite canonical_pow.
Qed.

Lemma parse_integer_text n rest :
  (Z.abs n <= 9007199254740992)%Z -> ok_rest rest = true ->
  parse_number (string_of_Z n +:+ rest) = Some (JNum n, rest).
Proof.
  intros Hn Hr.
  destruct (string_of_Z_digits (Z.abs n)) as (Hd & Hv & c & r & Es & Hc); [lia|].
  assert (E : string_of_Z n = literal (n <? 0)%Z (string_of_Z (Z.abs n)) EmptyString None).
  { unfold literal. rewrite !app_empty_r. destruct (n <? 0)%Z eqn:En.
    - apply Z.ltb_lt in En. rewrite string_of_Z_neg by done.
      by replace (Z.abs n) with (- n)%Z by lia.
    - apply Z.ltb_ge in En. by replace (Z.abs n) with n by lia. }
  rewrite E, parse_number_literal; [|done|done| |done].
  - rewrite app_empty_r, Hv. cbn [default String.length Z.of_nat].
    by rewrite Z.sub_0_r, canonical_integer.
  - rewrite Es. eexists _, _. split; [done|]. intros H0.
    destruct (Z.eq_dec (Z.abs n) 0%Z) as [E0|E0].
    + rewrite E0 in Es. by injection Es as <- <-.
    + rewrite Hc in H0 by lia. done.
Qed.

End Decimals.

(* ===================================================================== *)
(** * Well-formed UTF-8 *)
(* ===================================================================== *)

Section Utf8.

Lemma utf8_valid_unfold b r :
  JS.utf8_valid (String b r) =
  if (JS.code b <? 128)%N then JS.utf8_valid r
  else if JS.in_range 194 223 b then
    match r with
    | String t1 r1 => JS.in_range 128 191 t1 && JS.utf8_valid r1
    | _ => false
    end
  else if JS.in_range 224 239 b then
    match r with
    | String t1 (String t2 r2) =>
        JS.in_range (if (JS.code b =? 224)%N then 160 else 128)
                    (if (JS.code b =? 237)%N then 159 else 191) t1
        && JS.in_range 128 191 t2 && JS.utf8_valid r2
    | _ => false
    end
  else if JS.in_range 240 244 b then
    match r with
    | String t1 (String t2 (String t3 r3)) =>
        JS.in_range (if (JS.code b =? 240)%N then 144 else 128)
                    (if (JS.code b =? 244)%N then 143 else 191) t1
        && JS.in_range 128 191 t2 && JS.in_range 128 191 t3 && JS.utf8_valid r3
    | _ => false
    end
  else false.
Proof. destruct r as [|t1 [|t2 [|t3 r3]]]; reflexivity. Qed.

(** Induction on a well-formed text, one character at a time. *)
Lemma utf8_valid_ind (P : string -> Prop) :
  P EmptyString ->
  (forall b r, (JS.code b <? 128)%N = true -> JS.utf8_valid r = true -> P r -> P (String b r)) ->
  (forall b t1 r,
     (JS.code b <? 128)%N = false -> JS.in_range 194 223 b = true ->
     JS.in_range 128 191 t1 = true ->
     JS.utf8_valid r = true -> P r -> P (String b (String t1 r))) ->
  (forall b t1 t2 r,
     (JS.code b <? 128)%N = false -> JS.in_range 194 223 b = false ->
     JS.in_range 224 239 b = true ->
     JS.in_range (if (JS.code b =? 224)%N then 160 else 128)
                 (if (JS.code b =? 237)%N then 159 else 191) t1 = true ->
     JS.in_range 128 191 t2 = true ->
     JS.utf8_valid r = true -> P r -> P (String b (String t1 (String t2 r)))) ->
  (forall b t1 t2 t3 r,
     (JS.code b <? 128)%N = false -> JS.in_range 194 223 b = false ->
     JS.in_range 224 239 b = false -> JS.in_range 240 244 b = true ->
     JS.in_range (if (JS.code b =? 240)%N then 144 else 128)
                 (if (JS.code b =? 244)%N then 143 else 191) t1 = true ->
     JS.in_range 128 191 t2 = true -> JS.in_range 128 191 t3 = true ->
     JS.utf8_valid r = true -> P r -> P (String b (String t1 (String t2 (String t3 r))))) ->
  forall s, JS.utf8_valid s = true -> P s.
Proof.
  intros H0 H1 H2 H3 H4 s.
  remember (String.length s) as n eqn:En. revert s En.
  induction n as [n IH] using lt_wf_ind. intros [|b r] -> Hv; [done|].
  rewrite utf8_valid_unfold in Hv.
  destruct (JS.code b <? 128)%N eqn:E1.
  { apply H1; [done|done|]. by apply (IH (String.length r)); [simpl; lia|..]. }
  destruct (JS.in_range 194 223 b) eqn:E2.
  { destruct r as [|t1 r1]; [done|]. apply andb_true_iff in Hv as [Ht1 Hv].
    apply H2; [done..|]. by apply (IH (String.length r1)); [simpl; lia|..]. }
  destruct (JS.in_range 224 239 b) eqn:E3.
  { destruct r as [|t1 [|t2 r2]]; [done..|].
    apply andb_true_iff in Hv as [[Ht1 Ht2]%andb_true_iff Hv].
    apply H3; [done..|]. by apply (IH (String.length r2)); [simpl; lia|..]. }
  destruct (JS.in_range 240 244 b) eqn:E4; [|done].
  destruct r as [|t1 [|t2 [|t3 r3]]]; [done..|].
  apply andb_true_iff in Hv as [[[Ht1 Ht2]%andb_true_iff Ht3]%andb_true_iff Hv].
  apply H4; [done..|]. by apply (IH (String.length r3)); [simpl; lia|..].
Qed.

Lemma utf8_valid_app a b :
  JS.utf8_valid a = true -> JS.utf8_valid b = true -> JS.utf8_valid (a +:+ b) = true.
Proof.
  intros Ha Hb. revert a Ha.
  apply (utf8_valid_ind (fun a => JS.utf8_valid (a +:+ b) = true)); [done|..].
  - intros c r E1 _ IH. by rewrite !app_String, utf8_valid_unfold, E1.
  - intros c t1 r E1 E2 T1 _ IH. by rewrite !app_String, utf8_valid_unfold, E1, E2, T1.
  - intros c t1 t2 r E1 E2 E3 T1 T2 _ IH.
    by rewrite !app_String, utf8_valid_unfold, E1, E2, E3, T1, T2.
  - intros c t1 t2 t3 r E1 E2 E3 E4 T1 T2 T3 _ IH.
    by rewrite !app_String, utf8_valid_unfold, E1, E2, E3, E4, T1, T2, T3.
Qed.

Lemma ascii_valid s : JS.all_chars JS.is_ascii s = true -> JS.utf8_valid s = true.
Proof.
  induction s as [|c s IH]; [done|]. simpl. intros [Hc Hs]%andb_true_iff.
  rewrite utf8_valid_unfold. unfold JS.is_ascii in Hc. rewrite Hc. auto.
Qed.

(** Decoding a well-formed text changes nothing. *)
Lemma utf8_decode_valid s : JS.utf8_valid s = true -> JS.utf8_decode s = s.
Proof.
  revert s. apply (utf8_valid_ind (fun s => JS.utf8_decode s = s)); [done|..].
  - intros c r E1 _ IH. cbn [JS.utf8_decode]. by rewrite E1, IH.
  - intros c t1 r E1 E2 T1 _ IH. cbn [JS.utf8_decode]. rewrite E1, E2, T1. cbv iota.
    by rewrite IH.
  - intros c t1 t2 r E1 E2 E3 T1 T2 _ IH. cbn [JS.utf8_decode].
    rewrite E1, E2, E3, T1, T2. cbv iota. by rewrite IH.
  - intros c t1 t2 t3 r E1 E2 E3 E4 T1 T2 T3 _ IH. cbn [JS.utf8_decode].
    rewrite E1, E2, E3, E4, T1, T2, T3. cbv iota. by rewrite IH.
Qed.

End Utf8.

(* ===================================================================== *)
(** * [JSON.parse] inverts [JSON.stringify] *)
(* ===================================================================== *)


Module JSONFacts.
Import JSON.

Example stringify_sample :
  JSON.stringify (JObj [("a", JNum 1); ("b", JArr [JBool false; JStr "x"])]) =
  "{" +:+ nl +:+ "  " +:+ lit "a" +:+ ": 1," +:+ nl +:+ "  " +:+ lit "b" +:+ ": [" +:+ nl
  +:+ "    false," +:+ nl +:+ "    " +:+ lit "x" +:+ nl +:+ "  ]" +:+ nl +:+ "}".
Proof. reflexivity. Qed.

Example parse_stringify_sample : JSON.parse (JSON.stringify sample_doc) = Some sample_doc.
Proof. vm_compute. reflexivity. Qed.

(** Compact text, a repeated key, an escape and two bytes of UTF-8. *)
Example parse_compact :
  JSON.parse ("{" +:+ lit "k" +:+ ":[1,2,{" +:+ lit "z" +:+ ":null}]," +:+ lit "k" +:+ ":"
              +:+ lit "é\n" +:+ "}")
  = Some (JObj [("k", JStr (String "195" (String "169" (String "010" EmptyString))))]).
Proof. vm_compute. reflexivity. Qed.

Example parse_truncated : JSON.parse ("{" +:+ lit "k" +:+ ": [1, 2") = None.
Proof. vm_compute. reflexivity. Qed.

Example parse_trailing : JSON.parse "{} x" = None.
Proof. vm_compute. reflexivity. Qed.

(** Numbers: a fraction, an exponent, an integer that no Number holds, a
    decimal with more digits than a Number keeps, an overflow, and the
    literals the grammar refuses. *)
Example parse_numbers :
  JSON.parse ("{" +:+ lit "size" +:+ ":1.5}") = Some (JObj [("size", JDec false 15 (-1))])
  /\ JSON.parse ("{" +:+ lit "v" +:+ ":1e2}") = Some (JObj [("v", JNum 100)])
  /\ JSON.parse "9007199254740993" = Some (JNum 9007199254740992)
  /\ JSON.parse "0.1000000000000000055511151231257827" = Some (JDec false 1 (-1))
  /\ JSON.parse "-0.0" = Some (JDec true 0 0)
  /\ JSON.parse "1e400" = Some (JDec false 1 309)
  /\ JSON.parse "01" = None /\ JSON.parse "1." = None /\ JSON.parse ".5" = None
  /\ JSON.parse "+1" = None /\ JSON.parse "1e" = None.
Proof. vm_compute. repeat split. Qed.

Example stringify_numbers :
  JSON.stringify (JDec false 15 (-1)) = "1.5"
  /\ JSON.stringify (JDec false 1 21) = "1e+21"
  /\ JSON.stringify (JDec false 1 (-7)) = "1e-7"
  /\ JSON.stringify (JDec false 123 (-8)) = "0.00000123"
  /\ JSON.stringify (JDec false 1152921504606846976 0) = "1152921504606847000"
  /\ JSON.stringify (JDec true 0 0) = "0"
  /\ JSON.stringify (JDec true 1 309) = "null".
Proof. vm_compute. repeat split. Qed.

Example text_of_bytes_samples :
  JS.text_of_bytes (JS.byte_order_mark +:+ "{}") = "{}"
  /\ JS.text_of_bytes (String "255" "a") = JS.replacement_character +:+ "a"
  /\ JS.text_of_bytes (String "195" (String "169" "a")) = String "195" (String "169" "a").
Proof. vm_compute. repeat split. Qed.

(** ** Strings *)

Lemma parse_escape_char c t :
  parse_string_body (escape_char c +:+ t) = prepend (String c EmptyString) (parse_string_body t).
Proof. destruct c as [[] [] [] [] [] [] [] []]; reflexivity. Qed.

Lemma parse_string_body_escape s rest :
  parse_string_body (escape s +:+ String dquote rest) = Some (s, rest).
Proof.
  induction s as [|c s IH]; [done|].
  cbn [escape]. rewrite app_assoc_s, parse_escape_char, IH. done.
Qed.

Lemma all_chars_impl (P Q : ascii -> bool) s :
  (forall c, P c = true -> Q c = true) -> JS.all_chars P s = true -> JS.all_chars Q s = true.
Proof.
  intros HPQ. induction s as [|c s IH]; simpl; [done|].
  intros [Hc Hs]%andb_true_iff. by rewrite (HPQ _ Hc), IH.
Qed.

(** ** The text of a number *)

Lemma digit_num_char c : JS.is_digit c = true -> num_char c = true.
Proof. unfold num_char. by intros ->. Qed.

Lemma sign_or_digit_num_char c : sign_or_digit c = true -> num_char c = true.
Proof. destruct c as [[] [] [] [] [] [] [] []]; intros H; try discriminate H; reflexivity. Qed.

Lemma sign_or_digit_value_start c : sign_or_digit c = true -> value_start c = true.
Proof. destruct c as [[] [] [] [] [] [] [] []]; intros H; try discriminate H; reflexivity. Qed.

Lemma num_char_ascii c : num_char c = true -> JS.is_ascii c = true.
Proof. destruct c as [[] [] [] [] [] [] [] []]; intros H; try discriminate H; reflexivity. Qed.

(** The decimal rendering of an integer: an optional sign, then digits,
    the first of which exists. *)
Lemma string_of_Z_shape z :
  exists c r, string_of_Z z = String c r /\ sign_or_digit c = true
              /\ JS.all_chars num_char r = true.
Proof.
  assert (Hu : forall p, exists c r, NilZero.string_of_uint (Pos.to_uint p) = String c r
                 /\ JS.is_digit c = true /\ JS.all_chars num_char r = true).
  { intros p. pose proof (DecimalPos.Unsigned.to_uint_nonnil p) as Hn.
    pose proof (digits_string_of_uint (Pos.to_uint p)) as Hd.
    destruct (Pos.to_uint p) as [|u|u|u|u|u|u|u|u|u|u] eqn:E; [done|..]; simpl in *;
      (eexists _, _; split; [reflexivity|]; split; [done|]);
      by apply (all_chars_impl _ _ _ digit_num_char). }
  destruct z as [|p|p]; unfold string_of_Z; simpl.
  - by exists "0"%char, EmptyString.
  - destruct (Hu p) as (c & r & E & Hc & Hr). exists c, r.
    unfold sign_or_digit. by rewrite Hc.
  - destruct (Hu p) as (c & r & E & Hc & Hr).
    exists "-"%char, (String c r). rewrite E. simpl.
    by rewrite (digit_num_char _ Hc), Hr.
Qed.

Lemma num_chars_string_of_Z z : JS.all_chars num_char (string_of_Z z) = true.
Proof.
  destruct (string_of_Z_shape z) as (c & r & -> & Hc & Hr). simpl.
  by rewrite (sign_or_digit_num_char _ Hc), Hr.
Qed.

Lemma num_chars_literal neg ip fp ex :
  JS.all_chars JS.is_digit ip = true -> JS.all_chars JS.is_digit fp = true ->
  JS.all_chars num_char (literal neg ip fp ex) = true.
Proof.
  intros Hip Hfp. unfold literal.
  apply all_chars_app; [by destruct neg|].
  apply all_chars_app; [by apply (all_chars_impl _ _ _ digit_num_char)|].
  apply all_chars_app.
  - destruct fp; [done|]. apply (all_chars_app _ "."); [done|].
    by apply (all_chars_impl _ _ _ digit_num_char).
  - destruct ex as [x|]; [|done]. unfold exponent_text.
    apply (all_chars_app _ "e"); [done|].
    apply all_chars_app; [by destruct (x <? 0)%Z|]. apply num_chars_string_of_Z.
Qed.

(** The text of a decimal, with its sign: it starts with the sign or a
    digit and is made of the characters of a number. *)
Lemma decimal_text_chars (neg : bool) s q :
  (0 < s)%Z -> (s mod 10 <> 0)%Z ->
  (exists c r, (if neg then "-" else "") +:+ decimal_text s q = String c r
     /\ sign_or_digit c = true)
  /\ JS.all_chars num_char ((if neg then "-" else "") +:+ decimal_text s q) = true.
Proof.
  intros Hs Hm.
  destruct (decimal_text_literal s q Hs Hm)
    as (ip & fp & ex & j & E & Hip & Hfp & (d & more & -> & _) & _).
  assert (E' : (if neg then "-" else "") +:+ decimal_text s q
               = literal neg (String d more) fp ex).
  { rewrite E. unfold literal. by rewrite !app_empty_l. }
  assert (Hd : JS.is_digit d = true) by (simpl in Hip; by apply andb_true_iff in Hip as [? _]).
  rewrite E'. split; [|by apply num_chars_literal].
  unfold literal. destruct neg.
  - rewrite app_String, app_empty_l. by eexists _, _.
  - rewrite app_empty_l, app_String. eexists _, _. split; [done|].
    unfold sign_or_digit. by rewrite Hd.
Qed.

Lemma json_eqb_dec a neg m e : json_eqb a (JDec neg m e) = true -> a = JDec neg m e.
Proof.
  destruct a; try done. simpl.
  intros [[H1%Bool.eqb_prop H2%Z.eqb_eq]%andb_true_iff H3%Z.eqb_eq]%andb_true_iff.
  by subst.
Qed.

(** What [wf] says of a decimal. *)
Lemma wf_dec neg m e :
  wf (JDec neg m e) = true ->
  (0 < m)%Z /\ (m mod 10 <> 0)%Z /\ canonical neg m e = JDec neg m e
  /\ forall inf, number_text inf neg m e = (if neg then "-" else "") +:+ decimal_text m e.
Proof.
  cbn [wf].
  intros [[[H1%Z.ltb_lt H2]%andb_true_iff H3]%andb_true_iff H4%json_eqb_dec]%andb_true_iff.
  apply negb_true_iff in H2, H3. apply Z.eqb_neq in H2.
  split; [done|]. split; [done|]. split; [done|].
  intros inf. unfold number_text. rewrite H4, H3.
  by assert ((m =? 0)%Z = false) as -> by lia.
Qed.

Lemma canonical_number neg m e :
  (exists n, canonical neg m e = JNum n) \/ (exists s m' e', canonical neg m e = JDec s m' e').
Proof. unfold canonical. repeat case_match; eauto. Qed.

Lemma decimal_text_nonempty s q : 1 <= String.length (decimal_text s q).
Proof.
  unfold decimal_text. destruct (string_of_Z_shape s) as (c & r & E & _). rewrite E.
  repeat case_match; rewrite ?length_app_s; simpl; lia.
Qed.

Lemma number_text_nonempty inf neg m e :
  (forall b, 1 <= String.length (inf b)) -> 1 <= String.length (number_text inf neg m e).
Proof.
  intros Hinf. unfold number_text.
  destruct (canonical_number neg m e) as [(n & ->)|(s & m' & e' & ->)].
  - destruct (string_of_Z_shape n) as (c & r & -> & _). simpl. lia.
  - repeat case_match; [simpl; lia|apply Hinf|..];
      rewrite ?length_app_s; pose proof (decimal_text_nonempty m' e'); simpl; lia.
Qed.

Lemma sign_or_digit_dispatch fuel c r :
  sign_or_digit c = true -> parse_value (S fuel) (String c r) = parse_number (String c r).
Proof. destruct c as [[] [] [] [] [] [] [] []]; intros H; try discriminate H; reflexivity. Qed.

(** ** Values *)

Lemma print_head ind v :
  wf v = true -> exists c r, print ind v = String c r /\ value_start c = true.
Proof.
  intros Hwf. destruct v as [|[]|n|neg m e|s|[|x l]|[|[k x] l]]; try (by eexists _, _).
  - destruct (string_of_Z_shape n) as (c & r & E & Hc & _).
    exists c, r. split; [done|]. by apply sign_or_digit_value_start.
  - destruct (wf_dec _ _ _ Hwf) as (Hm & Hm' & _ & Ht). cbn [print]. rewrite Ht.
    destruct (decimal_text_chars neg m e Hm Hm') as ((c & r & -> & Hc) & _).
    exists c, r. split; [done|]. by apply sign_or_digit_value_start.
Qed.

Lemma skip_ws_app w s : JS.all_chars is_ws w = true -> skip_ws (w +:+ s) = skip_ws s.
Proof.
  induction w as [|c w IH]; [done|]. simpl. intros [Hc Hw]%andb_true_iff.
  rewrite Hc. auto.
Qed.

Lemma skip_ws_idem s : skip_ws (skip_ws s) = skip_ws s.
Proof.
  induction s as [|c s IH]; [done|]. simpl. destruct (is_ws c) eqn:E; [done|].
  simpl. by rewrite E.
Qed.

Lemma parse_value_S f s :
  parse_value (S f) s = parse_value (S f) (skip_ws s).
Proof. simpl. by rewrite skip_ws_idem. Qed.

Lemma parse_value_ws fuel w s :
  JS.all_chars is_ws w = true -> parse_value fuel (w +:+ s) = parse_value fuel s.
Proof.
  intros Hw. destruct fuel; [done|].
  rewrite parse_value_S, skip_ws_app, <- parse_value_S; done.
Qed.

Lemma parse_members_ws fuel w s :
  JS.all_chars is_ws w = true -> parse_members fuel (w +:+ s) = parse_members fuel s.
Proof.
  intros Hw. destruct fuel; [done|]. simpl. by rewrite skip_ws_app.
Qed.

Lemma value_start_facts c r :
  value_start c = true ->
  skip_ws (String c r) = String c r /\
  strip_prefix "]" (String c r) = None /\ strip_prefix "}" (String c r) = None.
Proof. destruct c as [[] [] [] [] [] [] [] []]; intros H; try discriminate H; done. Qed.

Lemma assoc_set_fresh k v l : k ∉ l.*1 -> assoc_set k v l = l ++ [(k, v)].
Proof.
  induction l as [|[k' v'] l IH]; [done|]. simpl. intros Hk.
  apply not_elem_of_cons in Hk as [Hne Hk].
  destruct (String.eqb_spec k k'); [done|]. by rewrite IH.
Qed.

Lemma dedupe_NoDup l : NoDup (l.*1) -> dedupe l = l.
Proof.
  unfold dedupe.
  assert (H : forall acc, NoDup ((acc ++ l).*1) ->
     fold_left (fun acc kv => assoc_set (fst kv) (snd kv) acc) l acc = acc ++ l).
  { induction l as [|[k v] l IH]; intros acc Hnd; simpl.
    - by rewrite app_nil_r.
    - rewrite assoc_set_fresh.
      + rewrite IH; rewrite <- app_assoc; done.
      + rewrite fmap_app in Hnd. apply NoDup_app in Hnd as (_ & Hd & _).
        intros Hin. apply (Hd k Hin). simpl. left. }
  intros Hnd. by rewrite (H []).
Qed.


Lemma all_ws_indent ind : JS.all_chars is_ws ind = true -> JS.all_chars is_ws (nl +:+ ind +:+ "  ") = true.
Proof. intros H. apply (all_chars_app _ nl); [done|]. by apply all_chars_app. Qed.

Lemma all_ws_nl ind : JS.all_chars is_ws ind = true -> JS.all_chars is_ws (nl +:+ ind) = true.
Proof. intros H. by apply (all_chars_app _ nl). Qed.

Lemma ok_rest_elems pr ind ind' (xs : list json) rest :
  ok_rest ((match xs with
            | [] => print_elems pr ind ind' xs
            | _ :: _ => "," +:+ print_elems pr ind ind' xs
            end) +:+ rest) = true.
Proof. by destruct xs. Qed.

Lemma ok_rest_members pr ind ind' (xs : list (string * json)) rest :
  ok_rest ((match xs with
            | [] => print_members pr ind ind' xs
            | _ :: _ => "," +:+ print_members pr ind ind' xs
            end) +:+ rest) = true.
Proof. by destruct xs. Qed.

Lemma parse_elements_print ind ind' (l : list json) :
  JS.all_chars is_ws ind = true -> JS.all_chars is_ws ind' = true ->
  Forall roundtrips l -> forallb wf l = true -> l <> [] ->
  forall fuel rest, list_sum (map (fun x => S (nodes x)) l) <= fuel ->
  parse_elements fuel (print_elems (print ind') ind ind' l +:+ rest) = Some (l, rest).
Proof.
  intros Hind Hind'. induction 1 as [|x xs Hx Hxs IH]; [done|].
  intros [Hwx Hwxs]%andb_true_iff _ fuel rest Hfuel. simpl in Hfuel.
  destruct fuel as [|f]; [lia|].
  cbn [print_elems]. rewrite !app_assoc_s.
  change (parse_elements (S f) ?s) with
    (match parse_value f s with
     | None => None
     | Some (v, r) =>
         match skip_ws r with
         | String c r' =>
             if Ascii.eqb c "," then
               match parse_elements f r' with
               | Some (vs, r'') => Some (v :: vs, r'')
               | None => None
               end
             else if Ascii.eqb c "]" then Some ([v], r')
             else None
         | EmptyString => None
         end
     end).
  rewrite <- (app_assoc_s nl), parse_value_ws by (by apply all_ws_nl).
  rewrite Hx; [|done|done|lia|apply ok_rest_elems].
  destruct xs as [|y ys].
  - cbn [print_elems]. rewrite !app_assoc_s, <- (app_assoc_s nl), skip_ws_app by (by apply all_ws_nl). done.
  - rewrite !app_String, app_empty_l.
    change (skip_ws (String "," ?s)) with (String "," s). cbn [Ascii.eqb Bool.eqb].
    rewrite IH; [done|done|done|lia].
Qed.

Lemma parse_members_print ind ind' (l : list (string * json)) :
  JS.all_chars is_ws ind = true -> JS.all_chars is_ws ind' = true ->
  Forall (fun kv => roundtrips (snd kv)) l ->
  forallb (fun kv => match kv with (k, x) => JS.utf8_valid k && wf x end) l = true -> l <> [] ->
  forall fuel rest,
    list_sum (map (fun kv => match kv with (_, x) => S (nodes x) end) l) <= fuel ->
  parse_members fuel (print_members (print ind') ind ind' l +:+ rest) = Some (l, rest).
Proof.
  intros Hind Hind'. induction 1 as [|[k x] xs Hx Hxs IH]; [done|].
  intros [[_ Hwx]%andb_true_iff Hwxs]%andb_true_iff _ fuel rest Hfuel. simpl in Hfuel, Hx.
  destruct fuel as [|f]; [lia|].
  cbn [print_members]. rewrite !app_assoc_s.
  rewrite <- (app_assoc_s nl), parse_members_ws by (by apply all_ws_nl).
  unfold quote. rewrite !app_String, !app_assoc_s, !app_String, !app_empty_l.
  change (parse_members (S f) (String dquote ?s)) with
    (match parse_string_body s with
     | None => None
     | Some (k, r1) =>
         match skip_ws r1 with
         | String c r2 =>
             if Ascii.eqb c ":" then
               match parse_value f r2 with
               | None => None
               | Some (v, r3) =>
                   match skip_ws r3 with
                   | String d r4 =>
                       if Ascii.eqb d "," then
                         match parse_members f r4 with
                         | Some (ms, r5) => Some ((k, v) :: ms, r5)
                         | None => None
                         end
                       else if Ascii.eqb d "}" then Some ([(k, v)], r4)
                       else None
                   | EmptyString => None
                   end
               end
             else None
         | EmptyString => None
         end
     end).
  rewrite parse_string_body_escape.
  change (skip_ws (String ":" ?s)) with (String ":" s). cbn [Ascii.eqb Bool.eqb].
  change (parse_value f (String " " ?s)) with (parse_value f (" " +:+ s)).
  rewrite (parse_value_ws f " ") by done.
  rewrite Hx; [|done|done|lia|apply ok_rest_members].
  destruct xs as [|[k' y] ys].
  - cbn [print_members]. rewrite !app_assoc_s, <- (app_assoc_s nl), skip_ws_app by (by apply all_ws_nl). done.
  - rewrite ?app_String, ?app_empty_l.
    change (skip_ws (String "," ?s)) with (String "," s). cbn [Ascii.eqb Bool.eqb].
    rewrite IH; [done|done|done|lia].
Qed.

Ltac norm_app := repeat (rewrite app_String || rewrite app_empty_l).

Theorem parse_print v : roundtrips v.
Proof.
  induction v as [|b|n|neg m e|s|l IH|l IH] using json_nested_ind;
    intros Hwf fuel ind rest Hind Hfuel Hrest;
    (destruct fuel as [|f]; [simpl in Hfuel; lia|]).
  - reflexivity.
  - destruct b; reflexivity.
  - cbn [print]. destruct (string_of_Z_shape n) as (c & r & E & Hc & _).
    cbn [wf] in Hwf. apply Z.leb_le in Hwf.
    pose proof (parse_integer_text n rest ltac:(lia) Hrest) as Hp. rewrite E in *.
    rewrite app_String in *. by rewrite sign_or_digit_dispatch.
  - destruct (wf_dec _ _ _ Hwf) as (Hm & Hm' & Hc & Ht). cbn [print]. rewrite Ht.
    pose proof (parse_decimal_text neg m e rest Hm Hm' Hrest) as Hp.
    rewrite <- app_assoc_s in Hp.
    destruct (decimal_text_chars neg m e Hm Hm') as ((c & r & E & Hd) & _).
    rewrite E in *. rewrite app_String in *.
    by rewrite sign_or_digit_dispatch, Hp, Hc.
  - cbn [print]. unfold quote. rewrite app_String, app_assoc_s, app_String, app_empty_l.
    change (parse_value (S f) (String dquote ?t)) with
      (match parse_string_body t with
       | Some (str, r') => Some (JStr str, r')
       | None => None
       end).
    by rewrite parse_string_body_escape.
  - destruct l as [|x xs]; [reflexivity|].
    cbn [print]. norm_app.
    change (parse_value (S f) (String "[" ?t)) with
      (match strip_prefix "]" (skip_ws t) with
       | Some r' => Some (JArr [], r')
       | None =>
           match parse_elements f t with
           | Some (l, r') => Some (JArr l, r')
           | None => None
           end
       end).
    assert (Hind' : JS.all_chars is_ws (ind +:+ "  ") = true) by (by apply all_chars_app).
    set (ind' := ind +:+ "  ") in *. clearbody ind'.
    rewrite parse_elements_print; [|done|done|done|done|done|simpl in *; lia].
    cbn [print_elems]. rewrite !app_assoc_s, <- (app_assoc_s nl), skip_ws_app by (by apply all_ws_nl).
    cbn [wf forallb] in Hwf. apply andb_true_iff in Hwf as [Hwx _].
    destruct (print_head ind' x Hwx) as (c & r & -> & Hc).
    rewrite app_String.
    match goal with
    | |- context [skip_ws (String c ?t)] =>
        destruct (value_start_facts c t Hc) as (-> & -> & _)
    end.
    done.
  - destruct l as [|[k x] xs]; [reflexivity|].
    cbn [print]. norm_app.
    change (parse_value (S f) (String "{" ?t)) with
      (match strip_prefix "}" (skip_ws t) with
       | Some r' => Some (JObj [], r')
       | None =>
           match parse_members f t with
           | Some (l, r') => Some (JObj (dedupe l), r')
           | None => None
           end
       end).
    assert (Hind' : JS.all_chars is_ws (ind +:+ "  ") = true) by (by apply all_chars_app).
    set (ind' := ind +:+ "  ") in *. clearbody ind'.
    cbn [wf] in Hwf. apply andb_true_iff in Hwf as [Hnd%bool_decide_eq_true Hwf].
    rewrite parse_members_print; [|done|done|done|done|done|simpl in *; lia].
    rewrite dedupe_NoDup by done.
    cbn [print_members]. rewrite !app_assoc_s, <- (app_assoc_s nl), skip_ws_app by (by apply all_ws_nl).
    unfold quote. rewrite app_String.
    match goal with
    | |- context [skip_ws (String dquote ?t)] =>
        destruct (value_start_facts dquote t eq_refl) as (-> & _ & ->)
    end.
    done.
Qed.

Lemma size_le_print_elems ind ind' (l : list json) :
  Forall (fun x => forall ind, nodes x <= String.length (print ind x)) l ->
  list_sum (map (fun x => S (nodes x)) l)
  <= String.length (print_elems (print ind') ind ind' l).
Proof.
  induction 1 as [|x xs Hx _ IH]; [simpl; lia|].
  cbn [print_elems]. change (list_sum (map ?f (x :: xs))) with (S (nodes x) + list_sum (map f xs)).
  rewrite !length_app_s. specialize (Hx ind'). cbn [nl String.length].
  destruct xs; [|rewrite length_app_s]; lia.
Qed.

Lemma size_le_print_members ind ind' (l : list (string * json)) :
  Forall (fun kv => forall ind, nodes (snd kv) <= String.length (print ind (snd kv))) l ->
  list_sum (map (fun kv => match kv with (_, x) => S (nodes x) end) l)
  <= String.length (print_members (print ind') ind ind' l).
Proof.
  induction 1 as [|[k x] xs Hx _ IH]; [simpl; lia|].
  cbn [print_members]. change (list_sum (map ?f ((k, x) :: xs))) with (S (nodes x) + list_sum (map f xs)).
  rewrite !length_app_s. specialize (Hx ind'). cbn [nl String.length snd] in *.
  destruct xs as [|[??]?]; [|rewrite length_app_s]; lia.
Qed.

Lemma size_le_print v : forall ind, nodes v <= String.length (print ind v).
Proof.
  induction v as [|b|n|neg m e|s|l IH|l IH] using json_nested_ind; intros ind.
  - simpl. lia.
  - destruct b; simpl; lia.
  - cbn [print nodes]. destruct (string_of_Z_shape n) as (c & r & -> & _). simpl. lia.
  - cbn [print nodes]. apply number_text_nonempty. intros _. simpl. lia.
  - simpl. lia.
  - destruct l as [|x xs]; [simpl; lia|].
    cbn [print nodes]. rewrite length_app_s.
    pose proof (size_le_print_elems ind (ind +:+ "  ") _ IH). simpl in *. lia.
  - destruct l as [|x xs]; [simpl; lia|].
    cbn [print nodes]. rewrite length_app_s.
    pose proof (size_le_print_members ind (ind +:+ "  ") _ IH). simpl in *. lia.
Qed.

Theorem parse_stringify v : wf v = true -> parse (stringify v) = Some v.
Proof.
  intros Hwf. unfold parse, stringify.
  pose proof (parse_print v Hwf (S (String.length (print "" v))) "" "" eq_refl) as H.
  rewrite app_empty_r in H. rewrite H; [done| |done].
  pose proof (size_le_print v ""). lia.
Qed.

(** ** The text of a value is well-formed UTF-8 *)

Lemma ws_ascii c : is_ws c = true -> JS.is_ascii c = true.
Proof. destruct c as [[] [] [] [] [] [] [] []]; intros H; try discriminate H; reflexivity. Qed.

Lemma escape_char_ascii c :
  JS.is_ascii c = true -> JS.all_chars JS.is_ascii (escape_char c) = true.
Proof. destruct c as [[] [] [] [] [] [] [] []]; intros H; try discriminate H; reflexivity. Qed.

Lemma escape_char_high c : (JS.code c <? 128)%N = false -> escape_char c = String c EmptyString.
Proof. destruct c as [[] [] [] [] [] [] [] []]; intros H; try discriminate H; reflexivity. Qed.

Lemma in_range_high lo hi c :
  (128 <= lo)%N -> JS.in_range lo hi c = true -> (JS.code c <? 128)%N = false.
Proof.
  unfold JS.in_range. intros Hlo [H _]%andb_true_iff. apply N.leb_le in H.
  apply N.ltb_ge. lia.
Qed.

Lemma escape_valid s : JS.utf8_valid s = true -> JS.utf8_valid (escape s) = true.
Proof.
  revert s. apply (utf8_valid_ind (fun s => JS.utf8_valid (escape s) = true)); [done|..].
  - intros c r E1 _ IH. cbn [escape].
    apply utf8_valid_app; [|done]. by apply ascii_valid, escape_char_ascii.
  - intros c t1 r E1 E2 T1 _ IH. cbn [escape].
    assert (H1 : (JS.code t1 <? 128)%N = false) by (by apply (in_range_high 128 191)).
    rewrite (escape_char_high c E1), (escape_char_high t1 H1).
    rewrite !app_String, !app_empty_l, utf8_valid_unfold. by rewrite E1, E2, T1.
  - intros c t1 t2 r E1 E2 E3 T1 T2 _ IH. cbn [escape].
    assert (H1 : (JS.code t1 <? 128)%N = false).
    { eapply in_range_high; [|exact T1]. destruct (JS.code c =? 224)%N; lia. }
    assert (H2 : (JS.code t2 <? 128)%N = false) by (by apply (in_range_high 128 191)).
    rewrite (escape_char_high c E1), (escape_char_high t1 H1), (escape_char_high t2 H2).
    rewrite !app_String, !app_empty_l, utf8_valid_unfold. by rewrite E1, E2, E3, T1, T2.
  - intros c t1 t2 t3 r E1 E2 E3 E4 T1 T2 T3 _ IH. cbn [escape].
    assert (H1 : (JS.code t1 <? 128)%N = false).
    { eapply in_range_high; [|exact T1]. destruct (JS.code c =? 240)%N; lia. }
    assert (H2 : (JS.code t2 <? 128)%N = false) by (by apply (in_range_high 128 191)).
    assert (H3 : (JS.code t3 <? 128)%N = false) by (by apply (in_range_high 128 191)).
    rewrite (escape_char_high c E1), (escape_char_high t1 H1), (escape_char_high t2 H2),
      (escape_char_high t3 H3).
    rewrite !app_String, !app_empty_l, utf8_valid_unfold.
    by rewrite E1, E2, E3, E4, T1, T2, T3.
Qed.

Lemma quote_valid s : JS.utf8_valid s = true -> JS.utf8_valid (quote s) = true.
Proof.
  intros Hs. unfold quote. apply (utf8_valid_app (String dquote EmptyString)); [done|].
  apply utf8_valid_app; [by apply escape_valid|done].
Qed.

Lemma ws_valid ind : JS.all_chars is_ws ind = true -> JS.utf8_valid ind = true.
Proof. intros H. by apply ascii_valid, (all_chars_impl _ _ _ ws_ascii). Qed.

Lemma num_chars_valid s : JS.all_chars num_char s = true -> JS.utf8_valid s = true.
Proof. intros H. by apply ascii_valid, (all_chars_impl _ _ _ num_char_ascii). Qed.

Lemma print_elems_valid ind ind' (l : list json) :
  JS.utf8_valid ind = true -> JS.utf8_valid ind' = true ->
  Forall (fun x => wf x = true -> JS.utf8_valid (print ind' x) = true) l ->
  forallb wf l = true ->
  JS.utf8_valid (print_elems (print ind') ind ind' l) = true.
Proof.
  intros Hind Hind'. induction 1 as [|x xs Hx _ IH].
  - intros _. cbn [print_elems]. apply (utf8_valid_app nl); [done|].
    by apply utf8_valid_app.
  - intros [Hwx Hwxs]%andb_true_iff. cbn [print_elems].
    apply (utf8_valid_app nl); [done|]. apply utf8_valid_app; [done|].
    apply utf8_valid_app; [by apply Hx|].
    destruct xs; [by apply IH|]. apply (utf8_valid_app ","); [done|]. by apply IH.
Qed.

Lemma print_members_valid ind ind' (l : list (string * json)) :
  JS.utf8_valid ind = true -> JS.utf8_valid ind' = true ->
  Forall (fun kv => wf (snd kv) = true -> JS.utf8_valid (print ind' (snd kv)) = true) l ->
  forallb (fun kv => match kv with (k, x) => JS.utf8_valid k && wf x end) l = true ->
  JS.utf8_valid (print_members (print ind') ind ind' l) = true.
Proof.
  intros Hind Hind'. induction 1 as [|[k x] xs Hx _ IH].
  - intros _. cbn [print_members]. apply (utf8_valid_app nl); [done|].
    by apply utf8_valid_app.
  - intros [[Hk Hwx]%andb_true_iff Hwxs]%andb_true_iff. cbn [print_members].
    apply (utf8_valid_app nl); [done|]. apply utf8_valid_app; [done|].
    apply utf8_valid_app; [by apply quote_valid|].
    apply (utf8_valid_app ": "); [done|].
    apply utf8_valid_app; [by apply Hx|].
    destruct xs; [by apply IH|]. apply (utf8_valid_app ","); [done|]. by apply IH.
Qed.

Lemma print_valid v :
  wf v = true -> forall ind, JS.all_chars is_ws ind = true ->
  JS.utf8_valid (print ind v) = true.
Proof.
  induction v as [|b|n|neg m e|s|l IH|l IH] using json_nested_ind; intros Hwf ind Hind.
  - done.
  - by destruct b.
  - cbn [print]. apply num_chars_valid, num_chars_string_of_Z.
  - destruct (wf_dec _ _ _ Hwf) as (Hm & Hm' & _ & Ht). cbn [print]. rewrite Ht.
    destruct (decimal_text_chars neg m e Hm Hm') as [_ Hall].
    by apply num_chars_valid.
  - cbn [print]. by apply quote_valid.
  - destruct l as [|x xs]; [done|]. cbn [print].
    assert (Hind' : JS.all_chars is_ws (ind +:+ "  ") = true) by (by apply all_chars_app).
    apply (utf8_valid_app "["); [done|].
    apply print_elems_valid; [by apply ws_valid|by apply ws_valid| |done].
    eapply Forall_impl; [exact IH|]. intros y Hy Hwy. by apply Hy.
  - destruct l as [|x xs]; [done|]. cbn [print].
    assert (Hind' : JS.all_chars is_ws (ind +:+ "  ") = true) by (by apply all_chars_app).
    cbn [wf] in Hwf. apply andb_true_iff in Hwf as [_ Hwf].
    apply (utf8_valid_app "{"); [done|].
    apply print_members_valid; [by apply ws_valid|by apply ws_valid| |done].
    eapply Forall_impl; [exact IH|]. intros y Hy Hwy. by apply Hy.
Qed.

Lemma value_start_not_mark c r :
  value_start c = true -> JS.starts_with JS.byte_order_mark (String c r) = false.
Proof. destruct c as [[] [] [] [] [] [] [] []]; intros H; try discriminate H; reflexivity. Qed.

(** The text written for a value is read back as it is. *)
Theorem text_of_bytes_stringify v :
  wf v = true -> JS.text_of_bytes (stringify v) = stringify v.
Proof.
  intros Hwf. unfold JS.text_of_bytes, stringify.
  destruct (print_head "" v Hwf) as (c & r & E & Hc).
  rewrite E, value_start_not_mark by done. rewrite <- E.
  by apply utf8_decode_valid, print_valid.
Qed.

Theorem parse_text_stringify v :
  wf v = true -> parse (JS.text_of_bytes (stringify v)) = Some v.
Proof. intros Hwf. by rewrite text_of_bytes_stringify, parse_stringify. Qed.

End JSONFacts.

(* ===================================================================== *)
(** * Ids and the paths the server receives *)
(* ===================================================================== *)

Section PathFacts.
Import WebDAV.

Lemma mem_char_app c a b : JS.mem_char c (a +:+ b) = JS.mem_char c a || JS.mem_char c b.
Proof.
  induction a as [|x a IH]; [done|]. rewrite app_String. simpl. rewrite IH.
  by rewrite orb_assoc.
Qed.

(** An encoded id holds no path separator. *)
Lemma encode_no_slash s : JS.mem_char "/" (JS.encodeURIComponent s) = false.
Proof.
  induction s as [|c s IH]; [done|]. simpl.
  destruct (JS.uriUnreserved c) eqn:E.
  - simpl. rewrite IH, orb_false_r. revert E.
    destruct c as [[] [] [] [] [] [] [] []]; intros E; try discriminate E; reflexivity.
  - simpl. rewrite IH. clear.
    destruct c as [[] [] [] [] [] [] [] []]; reflexivity.
Qed.

Lemma encode_no_backslash s : JS.mem_char "\" (JS.encodeURIComponent s) = false.
Proof.
  induction s as [|c s IH]; [done|]. simpl.
  destruct (JS.uriUnreserved c) eqn:E.
  - simpl. rewrite IH, orb_false_r. revert E.
    destruct c as [[] [] [] [] [] [] [] []]; intros E; try discriminate E; reflexivity.
  - simpl. rewrite IH. clear.
    destruct c as [[] [] [] [] [] [] [] []]; reflexivity.
Qed.

Lemma encode_app a b :
  JS.encodeURIComponent (a +:+ b) = JS.encodeURIComponent a +:+ JS.encodeURIComponent b.
Proof.
  induction a as [|c a IH]; [done|]. rewrite app_String. cbn [JS.encodeURIComponent].
  rewrite IH. by destruct (JS.uriUnreserved c).
Qed.

Lemma encode_unreserved s :
  JS.all_chars JS.uriUnreserved s = true -> JS.encodeURIComponent s = s.
Proof.
  induction s as [|c s IH]; [done|]. cbn [JS.all_chars JS.encodeURIComponent].
  intros [-> Hs]%andb_true_iff. by rewrite IH.
Qed.

Lemma starts_with_app p s : JS.starts_with p (p +:+ s) = true.
Proof.
  induction p as [|c p IH]; [done|]. rewrite app_String. simpl.
  by rewrite Ascii.eqb_refl, IH.
Qed.

Lemma starts_with_before_dot u x z :
  JS.mem_char "." u = false -> JS.starts_with u (x +:+ String "." z) = true ->
  JS.starts_with u x = true.
Proof.
  revert x. induction u as [|a u IH]; intros x Hu H; [done|].
  cbn [JS.mem_char] in Hu. apply orb_false_iff in Hu as [Ha Hu].
  destruct x as [|c x].
  - rewrite app_empty_l in H. cbn [JS.starts_with] in H.
    rewrite Ascii.eqb_sym, Ha in H. done.
  - rewrite app_String in H. cbn [JS.starts_with] in *.
    apply andb_true_iff in H as [-> H]. by apply IH.
Qed.

Lemma unreserved_neq a c :
  JS.uriUnreserved a = true -> JS.uriUnreserved c = false -> Ascii.eqb a c = false.
Proof.
  intros Ha Hc. destruct (Ascii.eqb a c) eqn:E; [|done].
  apply Ascii.eqb_eq in E. congruence.
Qed.

Lemma unreserved_not_percent a : JS.uriUnreserved a = true -> Ascii.eqb a "%" = false.
Proof. intros Ha. by apply unreserved_neq. Qed.

(** Encoding keeps the unreserved characters in place: a text of
    unreserved characters starts the encoding exactly when it starts the
    string. *)
Lemma starts_with_encode p s :
  JS.all_chars JS.uriUnreserved p = true ->
  JS.starts_with p (JS.encodeURIComponent s) = JS.starts_with p s.
Proof.
  revert s. induction p as [|a p IH]; intros s Hp; [done|].
  cbn [JS.all_chars] in Hp. apply andb_true_iff in Hp as [Ha Hp].
  destruct s as [|c s]; [done|]. cbn [JS.encodeURIComponent].
  destruct (JS.uriUnreserved c) eqn:Ec; cbn [JS.starts_with].
  - by rewrite IH.
  - by rewrite unreserved_not_percent, (unreserved_neq a c).
Qed.

Lemma hex_upper_cases (P : ascii -> Prop) :
  (forall c, JS.mem_char c "0123456789ABCDEF" = true -> P c) -> forall n, P (JS.hex_upper n).
Proof.
  intros H n. apply H. unfold JS.hex_upper, JS.nth_char. generalize (N.to_nat n) as k.
  intros k. do 16 (destruct k as [|k]; [reflexivity|]). reflexivity.
Qed.

(** The escapes are made of [%] and hexadecimal digits, so a text of
    unreserved characters whose first is no such digit occurs in the
    encoding exactly when it occurs in the string. *)
Lemma includes_encode a q s :
  JS.mem_char a "0123456789ABCDEF" = false ->
  JS.all_chars JS.uriUnreserved (String a q) = true ->
  includes (String a q) (JS.encodeURIComponent s) = includes (String a q) s.
Proof.
  intros Ha Hq.
  assert (Hhex : forall n, Ascii.eqb a (JS.hex_upper n) = false).
  { apply (hex_upper_cases (fun c => Ascii.eqb a c = false)). intros c Hc. destruct (Ascii.eqb a c) eqn:E; [|done].
    apply Ascii.eqb_eq in E. congruence. }
  induction s as [|c s IH]; [done|].
  cbn [JS.encodeURIComponent]. destruct (JS.uriUnreserved c) eqn:Ec.
  - cbn [includes]. rewrite IH. f_equal.
    rewrite <- (starts_with_encode (String a q) (String c s)) by done.
    cbn [JS.encodeURIComponent]. by rewrite Ec.
  - cbn [includes JS.starts_with]. rewrite IH, !Hhex.
    cbn [JS.all_chars] in Hq. apply andb_true_iff in Hq as [Hua _].
    by rewrite unreserved_not_percent, (unreserved_neq a c).
Qed.

(** A text without a dot that occurs neither before a dot nor from it on
    does not occur at all. *)
Lemma includes_before_dot q x z :
  JS.mem_char "." q = false -> includes q x = false ->
  includes q (String "." z) = false -> includes q (x +:+ String "." z) = false.
Proof.
  intros Hq Hx Hz. induction x as [|c x IH]; [by rewrite app_empty_l|].
  cbn [includes] in Hx. apply orb_false_iff in Hx as [Hs Hx].
  rewrite app_String. cbn [includes]. rewrite IH by done. rewrite orb_false_r.
  destruct (JS.starts_with q (String c (x +:+ String "." z))) eqn:E; [|done].
  rewrite <- app_String in E. apply starts_with_before_dot in E; [congruence|done].
Qed.

(** A text occurs wherever a text that holds it does. *)
Lemma starts_with_infix a q b s :
  includes q s = false -> JS.starts_with (a +:+ q +:+ b) s = false.
Proof.
  revert s. induction a as [|c a IH]; intros s Hs.
  - rewrite app_empty_l. destruct (JS.starts_with (q +:+ b) s) eqn:E; [|done].
    assert (H : JS.starts_with q s = true).
    { clear Hs. revert s E. induction q as [|d q IHq]; intros s E; [done|].
      destruct s as [|e s]; [done|]. rewrite app_String in E. cbn [JS.starts_with] in *.
      apply andb_true_iff in E as [-> E]. by apply IHq. }
    destruct s; cbn [includes] in Hs; by rewrite H in Hs.
  - destruct s as [|d s]; [done|]. rewrite app_String. cbn [JS.starts_with].
    cbn [includes] in Hs. apply orb_false_iff in Hs as [_ Hs].
    rewrite IH by done. apply andb_false_r.
Qed.

Lemma includes_infix a q b s :
  includes q s = false -> includes (a +:+ q +:+ b) s = false.
Proof.
  induction s as [|c s IH]; intros Hs.
  - cbn [includes]. by rewrite starts_with_infix.
  - cbn [includes]. rewrite starts_with_infix by done.
    cbn [includes] in Hs. apply orb_false_iff in Hs as [_ Hs]. by rewrite IH.
Qed.

(** ** Replacing every occurrence *)

Lemma replaceAll_absent p rep s :
  includes p s = false -> JS.replaceAll p rep s = s.
Proof.
  unfold JS.replaceAll. induction s as [|c s IH]; [done|].
  cbn [includes]. intros [Hs Hi]%orb_false_iff.
  cbn [JS.replaceAll_from]. by rewrite Hs, IH.
Qed.

Lemma includes_absent_head c p s :
  JS.mem_char c s = false -> includes (String c p) s = false.
Proof.
  induction s as [|d s IH]; [done|]. cbn [JS.mem_char includes JS.starts_with].
  intros [-> Hs]%orb_false_iff. by rewrite IH.
Qed.

(** Reading back the escapes of an encoded id gives its bytes, each
    tagged with whether it was escaped. *)
Lemma unescape_encode s :
  JS.unescape (JS.encodeURIComponent s)
  = Some ((fun c => (negb (JS.uriUnreserved c), c)) <$> String.list_ascii_of_string s).
Proof.
  induction s as [|c s IH]; [done|]. cbn [JS.encodeURIComponent].
  destruct (JS.uriUnreserved c) eqn:E.
  - assert (Hc : Ascii.eqb c "%" = false).
    { revert E. destruct c as [[] [] [] [] [] [] [] []]; intros E; try discriminate E; reflexivity. }
    cbn [JS.unescape]. rewrite Hc, IH. cbn [String.list_ascii_of_string fmap list_fmap].
    by rewrite E.
  - cbn [JS.unescape Ascii.eqb Bool.eqb].
    assert (Hb : JS.hex_byte (JS.hex_upper (JS.code c / 16)) (JS.hex_upper (JS.code c mod 16))
                 = Some c).
    { clear. destruct c as [[] [] [] [] [] [] [] []]; reflexivity. }
    rewrite Hb, IH. cbn [String.list_ascii_of_string fmap list_fmap].
    by rewrite E.
Qed.

Lemma string_of_bytes_tag (f : ascii -> bool) s :
  JS.string_of_bytes (((fun c => (f c, c)) <$> String.list_ascii_of_string s).*2) = s.
Proof. induction s as [|c s IH]; [done|]. csimpl. by rewrite IH. Qed.

(** ** The three paths of a plain id *)

Lemma entry_name_encoded id ext :
  plain id -> JS.all_chars JS.uriUnreserved ext = true ->
  JS.mem_char "/" ext = false -> JS.mem_char "\" ext = false ->
  includes "PATH_SEPARATOR_" (String "." ext) = false ->
  entry_name (JS.encodeURIComponent id +:+ String "." ext).
Proof.
  intros Hid Hu Hs Hb Hi. split; [|split].
  - by rewrite mem_char_app, encode_no_slash.
  - by rewrite mem_char_app, encode_no_backslash.
  - rewrite encode_app, (encode_unreserved (String "." ext)) by done.
    apply includes_before_dot; [done| |done].
    rewrite !includes_encode by done. exact Hid.
Qed.



Lemma replaceAll_skip a p rep s :
  JS.replaceAll_from (String.length a) p rep (a +:+ s) = JS.replaceAll_from 0 p rep s.
Proof.
  induction a as [|c a IH]; [done|]. rewrite app_String. cbn [String.length JS.replaceAll_from].
  exact IH.
Qed.

Lemma replaceAll_match c p rep s :
  JS.replaceAll (String c p) rep (String c p +:+ s)
  = rep +:+ JS.replaceAll (String c p) rep s.
Proof.
  unfold JS.replaceAll. rewrite app_String. cbn [JS.replaceAll_from].
  assert (JS.starts_with (String c p) (String c (p +:+ s)) = true) as ->
    by apply (starts_with_app (String c p)).
  change (String.length (String c p) - 1) with (String.length p - 0).
  rewrite Nat.sub_0_r. by rewrite replaceAll_skip.
Qed.

Lemma replaceAll_miss p rep d s :
  JS.starts_with p (String d s) = false ->
  JS.replaceAll p rep (String d s) = String d (JS.replaceAll p rep s).
Proof. intros H. unfold JS.replaceAll. cbn [JS.replaceAll_from]. by rewrite H. Qed.

Lemma includes_cons_false p c s :
  JS.starts_with p (String c s) = false -> includes p s = false ->
  includes p (String c s) = false.
Proof. intros H1 H2. cbn [includes]. by rewrite H1, H2. Qed.

(** No occurrence of a separator text in [x +:+ y], [x] given, when the
    reserved text does not occur in [y]. *)
Lemma starts_with_cons a p b s :
  JS.starts_with (String a p) (String b s) = Ascii.eqb a b && JS.starts_with p s.
Proof. reflexivity. Qed.

Ltac no_occurrence H :=
  repeat (apply includes_cons_false;
          [first [reflexivity
                 |rewrite !starts_with_cons; cbn [Ascii.eqb Bool.eqb andb];
                  lazymatch goal with
                  | |- JS.starts_with "PATH_SEPARATOR_WINDOWS__" _ = false =>
                      exact (starts_with_infix "" "PATH_SEPARATOR_" "WINDOWS__" _ H)
                  | |- JS.starts_with "_PATH_SEPARATOR_WINDOWS__" _ = false =>
                      exact (starts_with_infix "_" "PATH_SEPARATOR_" "WINDOWS__" _ H)
                  end]|]);
  exact (includes_infix "__" "PATH_SEPARATOR_" "WINDOWS__" _ H).

Lemma replaceAll_pass c p rep x s :
  JS.mem_char c x = false ->
  JS.replaceAll (String c p) rep (x +:+ s) = x +:+ JS.replaceAll (String c p) rep s.
Proof.
  induction x as [|d x IH]; [done|]. cbn [JS.mem_char]. intros [Hd Hx]%orb_false_iff.
  rewrite !app_String, replaceAll_miss by (by cbn [JS.starts_with]; rewrite Hd).
  by rewrite IH.
Qed.

Lemma encodePath_sync t :
  entry_name t ->
  encodePath ("/ztools-sync/" +:+ t) = "/ztools-sync/" +:+ JS.encodeURIComponent t.
Proof.
  intros (Hs & Hb & Hi). unfold encodePath.
  assert (E1 : JS.replaceAll "/" SEP_PATH_POSIX ("/ztools-sync/" +:+ t)
               = SEP_PATH_POSIX +:+ "ztools-sync" +:+ SEP_PATH_POSIX +:+ t).
  { change ("/ztools-sync/" +:+ t) with ("/" +:+ "ztools-sync" +:+ "/" +:+ t).
    rewrite (replaceAll_match "/" ""), replaceAll_pass by done.
    by rewrite (replaceAll_match "/" ""), replaceAll_absent by (by apply includes_absent_head). }
  rewrite E1. clear E1.
  rewrite (replaceAll_absent two_backslashes).
  2:{ apply includes_absent_head. by rewrite !mem_char_app, Hb. }
  rewrite !encode_app. change (JS.encodeURIComponent SEP_PATH_POSIX) with SEP_PATH_POSIX.
  change (JS.encodeURIComponent "ztools-sync") with "ztools-sync"%string.
  set (y := JS.encodeURIComponent t) in *.
  rewrite (replaceAll_absent SEP_PATH_WINDOWS).
  2:{ unfold SEP_PATH_POSIX, SEP_PATH_WINDOWS. cbn [String.append]. no_occurrence Hi. }
  unfold SEP_PATH_POSIX.
  rewrite (replaceAll_match "_"), replaceAll_pass by done.
  rewrite (replaceAll_match "_"), replaceAll_absent; [reflexivity|].
  apply (includes_infix "__" "PATH_SEPARATOR_" "POSIX__"). exact Hi.
Qed.

Lemma encodePath_attachments t :
  entry_name t ->
  encodePath ("/ztools-sync/attachments/" +:+ t)
  = "/ztools-sync/attachments/" +:+ JS.encodeURIComponent t.
Proof.
  intros (Hs & Hb & Hi). unfold encodePath.
  assert (E1 : JS.replaceAll "/" SEP_PATH_POSIX ("/ztools-sync/attachments/" +:+ t)
               = SEP_PATH_POSIX +:+ "ztools-sync" +:+ SEP_PATH_POSIX +:+ "attachments"
                 +:+ SEP_PATH_POSIX +:+ t).
  { change ("/ztools-sync/attachments/" +:+ t)
      with ("/" +:+ "ztools-sync" +:+ "/" +:+ "attachments" +:+ "/" +:+ t).
    rewrite (replaceAll_match "/" ""), replaceAll_pass by done.
    rewrite (replaceAll_match "/" ""), replaceAll_pass by done.
    by rewrite (replaceAll_match "/" ""), replaceAll_absent by (by apply includes_absent_head). }
  rewrite E1. clear E1.
  rewrite (replaceAll_absent two_backslashes).
  2:{ apply includes_absent_head. by rewrite !mem_char_app, Hb. }
  rewrite !encode_app. change (JS.encodeURIComponent SEP_PATH_POSIX) with SEP_PATH_POSIX.
  change (JS.encodeURIComponent "ztools-sync") with "ztools-sync"%string.
  change (JS.encodeURIComponent "attachments") with "attachments"%string.
  set (y := JS.encodeURIComponent t) in *.
  rewrite (replaceAll_absent SEP_PATH_WINDOWS).
  2:{ unfold SEP_PATH_POSIX, SEP_PATH_WINDOWS. cbn [String.append]. no_occurrence Hi. }
  unfold SEP_PATH_POSIX.
  rewrite (replaceAll_match "_"), replaceAll_pass by done.
  rewrite (replaceAll_match "_"), replaceAll_pass by done.
  rewrite (replaceAll_match "_"), replaceAll_absent; [reflexivity|].
  apply (includes_infix "__" "PATH_SEPARATOR_" "POSIX__"). exact Hi.
Qed.

Lemma url_decode_encode s : url_decode (JS.encodeURIComponent s) = Some s.
Proof. unfold url_decode. rewrite unescape_encode. cbn [option_map]. by rewrite string_of_bytes_tag. Qed.

Lemma url_decode_cons c s :
  Ascii.eqb c "%" = false -> url_decode (String c s) = String c <$> url_decode s.
Proof.
  intros Hc. unfold url_decode. cbn [JS.unescape]. rewrite Hc.
  by destruct (JS.unescape s).
Qed.

Lemma url_decode_pass x s t :
  JS.mem_char "%" x = false -> url_decode s = Some t -> url_decode (x +:+ s) = Some (x +:+ t).
Proof.
  intros Hx Hs. induction x as [|c x IH]; [done|].
  cbn [JS.mem_char] in Hx. apply orb_false_iff in Hx as [Hc Hx].
  rewrite !app_String, url_decode_cons by (by rewrite Ascii.eqb_sym).
  by rewrite IH.
Qed.

(** The server receives the three paths of a plain id as the client makes
    them. *)
Lemma received_docPath id : plain id -> received (docPath id) = Some (docPath id).
Proof.
  intros Hid. unfold received, docPath.
  rewrite encodePath_sync by (by apply (entry_name_encoded id "json")).
  apply url_decode_pass; [done|]. apply url_decode_encode.
Qed.

Lemma received_dataPath id : plain id -> received (dataPath id) = Some (dataPath id).
Proof.
  intros Hid. unfold received, dataPath.
  rewrite encodePath_attachments by (by apply (entry_name_encoded id "bin")).
  apply url_decode_pass; [done|]. apply url_decode_encode.
Qed.

Lemma received_metaPath id : plain id -> received (metaPath id) = Some (metaPath id).
Proof.
  intros Hid. unfold received, metaPath.
  rewrite encodePath_attachments by (by apply (entry_name_encoded id "meta.json")).
  apply url_decode_pass; [done|]. apply url_decode_encode.
Qed.


(** The paths of the directories are received as they are; the path of
    an id that holds the reserved text is not. *)
Example received_directories :
  received "/" = Some "/"
  /\ received "/ztools-sync" = Some "/ztools-sync"
  /\ received "/ztools-sync/attachments" = Some "/ztools-sync/attachments"
  /\ received (docPath "plugin/demo:settings")
     = Some "/ztools-sync/plugin%2Fdemo%3Asettings.json"
  /\ received (docPath "a__PATH_SEPARATOR_POSIX__b") = Some "/ztools-sync/a/b.json".
Proof. vm_compute. repeat split. Qed.

End PathFacts.

(* ===================================================================== *)
(** * The client: running its methods *)
(* ===================================================================== *)

Section ClientFacts.
Import WebDAV WebDAVSyncClient.

Lemma bind_ok {A B} (m : M A) (k : A -> M B) st a st' :
  m st = (Ok a, st') -> (m ≫= k) st = k a st'.
Proof. intros H. unfold mbind, M_bind, bind. by rewrite H. Qed.

Lemma bind_err {A B} (m : M A) (k : A -> M B) st e st' :
  m st = (Err e, st') -> (m ≫= k) st = (Err e, st').
Proof. intros H. unfold mbind, M_bind, bind. by rewrite H. Qed.

Lemma this_client_some st c : client st = Some c -> this_client st = (Ok c, st).
Proof. intros H. unfold this_client. by rewrite H. Qed.

Lemma this_client_none st : client st = None -> this_client st = (Err NotInitialized, st).
Proof. intros H. unfold this_client. by rewrite H. Qed.

Lemma send_answered {A} rq (serve : server -> result A * server) s :
  next_fault s = None -> send rq serve s = serve (sent rq s).
Proof. unfold send, sent. by intros ->. Qed.

Lemma send_failed {A} rq (serve : server -> result A * server) s e :
  next_fault s = Some e -> send rq serve s = (Err e, sent rq s).
Proof. unfold send, sent. by intros ->. Qed.

Lemma answered_head n st : answered (S n) st -> next_fault (remote st) = None.
Proof.
  unfold answered, next_fault. by destruct (faults (remote st)) as [|[] fl].
Qed.

Lemma answered_sent n rq st : answered (S n) st -> answered n (on_remote (sent rq) st).
Proof.
  unfold answered. simpl. destruct (faults (remote st)) as [|[] fl]; simpl; try done.
  by destruct n.
Qed.

Lemma answered_S n st : answered (S n) st -> answered n st.
Proof.
  unfold answered. generalize (faults (remote st)). induction n as [|n IH]; [done|].
  intros [|[] fl]; simpl; try done. apply (IH fl).
Qed.

Lemma next_fault_answered st : next_fault (remote st) = None -> answered 1 st.
Proof.
  unfold answered, next_fault. by destruct (faults (remote st)) as [|[e|] fl].
Qed.

Lemma reachable_answered n st : reachable st -> answered n st.
Proof. unfold reachable, answered. intros ->. by destruct n. Qed.

Lemma reachable_sent rq st : reachable st -> reachable (on_remote (sent rq) st).
Proof. unfold reachable. simpl. by intros ->. Qed.

(** Each transport call on a request that is answered. *)
Lemma await_exists st c p :
  answered 1 st ->
  await (exists_ c p) st
  = (Ok (present (resources (remote st)) p), on_remote (sent (ReqExists p)) st).
Proof.
  intros H%answered_head. unfold await, exists_. by rewrite send_answered.
Qed.

Lemma await_getFileContents st c p fmt content t :
  answered 1 st -> resources (remote st) !! p = Some (File content t) ->
  await (getFileContents c p fmt) st
  = (Ok (match fmt with Text => JS.text_of_bytes content | Binary => content end),
     on_remote (sent (ReqGet p)) st).
Proof.
  intros H%answered_head Hp. unfold await, getFileContents.
  rewrite send_answered by done. simpl. by rewrite Hp.
Qed.

Lemma await_failed {A} (rq : request) (serve : server -> result A * server) st e :
  next_fault (remote st) = Some e ->
  await (send rq serve) st = (Err e, on_remote (sent rq) st).
Proof. intros H. unfold await. by rewrite (send_failed _ _ _ e). Qed.

(** [exists] on a request that fails: the answer 404 is [false], any
    other failure is thrown. *)
Lemma not_found_404 e : not_found e = true <-> e = HttpError 404.
Proof.
  destruct e as [| | |status| | |]; simpl; try (split; [discriminate|intros [=]]).
  rewrite Z.eqb_eq. split; [by intros ->|by intros [=]].
Qed.

Lemma await_exists_failed st c p e :
  next_fault (remote st) = Some e ->
  await (exists_ c p) st
  = (if not_found e then Ok false else Err e, on_remote (sent (ReqExists p)) st).
Proof.
  intros H. unfold await, exists_. rewrite (send_failed _ _ _ e) by done.
  by destruct (not_found e).
Qed.

Lemma await_exists_thrown st c p e :
  next_fault (remote st) = Some e -> e <> HttpError 404 ->
  await (exists_ c p) st = (Err e, on_remote (sent (ReqExists p)) st).
Proof.
  intros H Hne. rewrite (await_exists_failed _ _ _ e H).
  destruct (not_found e) eqn:E; [|done]. by apply not_found_404 in E.
Qed.

Lemma await_exists_404 st c p :
  next_fault (remote st) = Some (HttpError 404) ->
  await (exists_ c p) st = (Ok false, on_remote (sent (ReqExists p)) st).
Proof. intros H. by rewrite (await_exists_failed _ _ _ _ H). Qed.

Lemma await_exists_outcome st c p e :
  next_fault (remote st) = Some e ->
  await (exists_ c p) st = (Ok false, on_remote (sent (ReqExists p)) st)
  \/ await (exists_ c p) st = (Err e, on_remote (sent (ReqExists p)) st).
Proof.
  intros H. rewrite (await_exists_failed _ _ _ e H).
  destruct (not_found e); [by left|by right].
Qed.

Lemma present_some fs p r : fs !! p = Some r -> present fs p = true.
Proof. intros H. unfold present. rewrite H. by destruct (String.eqb p "/"). Qed.

Lemma present_none fs p : String.eqb p "/" = false -> fs !! p = None -> present fs p = false.
Proof. intros H1 H2. unfold present. by rewrite H1, H2. Qed.


(** ** Paths *)

Lemma docPath_not_root id : String.eqb (docPath id) "/" = false.
Proof. reflexivity. Qed.

Lemma dataPath_not_root id : String.eqb (dataPath id) "/" = false.
Proof. reflexivity. Qed.

Lemma metaPath_not_root id : String.eqb (metaPath id) "/" = false.
Proof. reflexivity. Qed.

Lemma base_of_child d n : JS.mem_char "/" n = false -> base_of (d +:+ "/" +:+ n) = n.
Proof.
  intros Hn. induction d as [|c d IH].
  - rewrite app_empty_l, app_String, app_empty_l. simpl. by rewrite Hn.
  - rewrite app_String. simpl. rewrite mem_char_app, IH.
    by rewrite app_String, orb_true_r.
Qed.

Lemma take_app_s d x : take (String.length d) (d +:+ x) = d.
Proof.
  induction d as [|c d IH]; [by destruct x|]. rewrite app_String. simpl. by rewrite IH.
Qed.

Lemma dir_of_child d n :
  d <> EmptyString -> JS.mem_char "/" n = false -> dir_of (d +:+ "/" +:+ n) = d.
Proof.
  intros Hd Hn. unfold dir_of. rewrite base_of_child by done.
  rewrite !length_app_s. simpl.
  replace (String.length d + S (String.length n) - String.length n - 1)
    with (String.length d) by lia.
  rewrite take_app_s. by destruct d.
Qed.

Lemma dir_of_docPath id : dir_of (docPath id) = "/ztools-sync".
Proof.
  change (docPath id)
    with ("/ztools-sync" +:+ "/" +:+ (JS.encodeURIComponent id +:+ ".json")).
  apply dir_of_child; [done|]. by rewrite mem_char_app, encode_no_slash.
Qed.

Lemma docPath_not_directory id :
  docPath id <> "/ztools-sync" /\ docPath id <> "/ztools-sync/attachments".
Proof.
  unfold docPath. generalize (JS.encodeURIComponent id). intros e. split; intros H.
  - discriminate H.
  - do 12 (try destruct e as [|? e]); discriminate H.
Qed.

Lemma layout_is_dir st :
  layout st -> is_dir (resources (remote st)) "/ztools-sync" = true.
Proof.
  intros (H & _ & _). unfold is_dir. cbn [String.eqb Ascii.eqb Bool.eqb]. by rewrite H.
Qed.

Lemma layout_docPath_file st id :
  layout st -> is_dir (resources (remote st)) (docPath id) = false.
Proof.
  intros (_ & _ & Hl). unfold is_dir. rewrite (docPath_not_root id).
  destruct (resources (remote st) !! docPath id) as [[|]|] eqn:E; try done.
  apply Hl in E; [|apply dir_of_docPath]. by destruct (docPath_not_directory id).
Qed.

Lemma await_putFileContents st c p data :
  answered 1 st -> is_dir (resources (remote st)) p = false ->
  is_dir (resources (remote st)) (dir_of p) = true ->
  await (putFileContents c p data) st = (Ok true, stored p data st).
Proof.
  intros H%answered_head Hp Hd. unfold await, putFileContents.
  rewrite send_answered by done. simpl. by rewrite Hp, Hd.
Qed.

End ClientFacts.

(* ===================================================================== *)
(** * The client: what the methods guarantee *)
(* ===================================================================== *)

Section ClientGuarantees.
Import WebDAV WebDAVSyncClient.


Lemma downloadDoc_file st c id content t :
  client st = Some c -> answered 2 st ->
  resources (remote st) !! docPath id = Some (File content t) ->
  downloadDoc id st
  = (match JSON.parse (JS.text_of_bytes content) with
     | Some v => Ok v
     | None => Err SyntaxError
     end,
     on_remote (sent (ReqGet (docPath id))) (on_remote (sent (ReqExists (docPath id))) st)).
Proof.
  intros Hc Ha Hfile. unfold downloadDoc.
  assert (Ha1 : answered 1 st) by (by apply answered_S).
  rewrite (bind_ok _ _ _ _ _ (this_client_some _ _ Hc)).
  rewrite (bind_ok _ _ _ _ _ (await_exists _ _ _ Ha1)).
  rewrite (present_some _ _ _ Hfile). cbn [negb].
  erewrite bind_ok; [|eapply await_getFileContents; [by apply (answered_sent 1)|exact Hfile]].
  by destruct (JSON.parse (JS.text_of_bytes content)).
Qed.



(** ** Deleting *)

Lemma await_deleteFile_absent st c p :
  answered 1 st -> String.eqb p "/" = false -> resources (remote st) !! p = None ->
  await (deleteFile c p) st = (Err (HttpError 404), on_remote (sent (ReqDelete p)) st).
Proof.
  intros H%answered_head Hp Habs. unfold await, deleteFile.
  rewrite send_answered by done. simpl. by rewrite Habs, Hp.
Qed.

Lemma await_deleteFile_present st c p r :
  answered 1 st -> resources (remote st) !! p = Some r ->
  await (deleteFile c p) st
  = (Ok tt, on_remote (fun s => with_resources (sent (ReqDelete p) s)
                       (filter (fun kv => negb (under p (fst kv))) (delete p (resources s)))) st).
Proof.
  intros H%answered_head Hp. unfold await, deleteFile.
  rewrite send_answered by done. simpl. by rewrite Hp.
Qed.

(** What [deleteDoc] does when nothing is stored for the id: the only
    request is the DELETE, the server answers 404, the call throws. *)
Lemma deleteDoc_absent st c id :
  client st = Some c -> reachable st -> resources (remote st) !! docPath id = None ->
  deleteDoc id st = (Err (HttpError 404), on_remote (sent (ReqDelete (docPath id))) st).
Proof.
  intros Hc Hr Habs. unfold deleteDoc.
  rewrite (bind_ok _ _ _ _ _ (this_client_some _ _ Hc)).
  apply await_deleteFile_absent; [by apply reachable_answered|apply docPath_not_root|done].
Qed.

(** C2: [deleteDoc] on an id that is already absent remotely.  The claim
    asks for success; the call throws the server's 404, where
    [deleteAttachment], in the same situation, returns. *)
Theorem deleteDoc_absent_throws :
  resources (remote (after_init [])) !! docPath "settings" = None
  /\ deleteDoc "settings" (after_init [])
     = (Err (HttpError 404),
        on_remote (sent (ReqDelete "/ztools-sync/settings.json")) (after_init []))
  /\ deleteAttachment "settings" (after_init [])
     = (Ok tt,
        on_remote (sent (ReqExists "/ztools-sync/attachments/settings.bin")) (after_init [])).
Proof. repeat split; vm_compute; reflexivity. Qed.

(** ** Before [init] *)

(** C8, as stated, fails: once [init] has been called the handle is set,
    also when [init] threw.  Here the connection test of a second client
    is lost and its [init] throws; [uploadDoc] then neither throws nor
    holds back: it sends its PUT and the document is stored. *)
Lemma guard_after_failed_init :
  let st := snd (init sample_config (second_client [Some NetworkError])) in
  fst (init sample_config (second_client [Some NetworkError])) = Err (ConnectionFailed NetworkError)
  /\ fst (uploadDoc sample_doc st) = Ok tt
  /\ new_requests st (snd (uploadDoc sample_doc st))
     = [ReqPut (docPath "plugin/demo:settings") (JSON.stringify sample_doc)]
  /\ resources (remote (snd (uploadDoc sample_doc st))) !! docPath "plugin/demo:settings"
     = Some (File (JSON.stringify sample_doc) 1700000000000).
Proof. repeat split; vm_compute; reflexivity. Qed.

(** C8, amended: while the handle is unset (no [init] has been called on
    the object), each of the nine remote operations throws the
    not-initialised error at once and leaves the state, and so the log of
    requests, as it was. *)
Theorem uninitialised_throws st :
  client st = None ->
  testConnection st = (Err NotInitialized, st)
  /\ (forall doc, uploadDoc doc st = (Err NotInitialized, st))
  /\ (forall id, downloadDoc id st = (Err NotInitialized, st))
  /\ listRemoteDocsWithMeta st = (Err NotInitialized, st)
  /\ (forall id, deleteDoc id st = (Err NotInitialized, st))
  /\ (forall id data meta, uploadAttachment id data meta st = (Err NotInitialized, st))
  /\ (forall id, downloadAttachment id st = (Err NotInitialized, st))
  /\ (forall id, deleteAttachment id st = (Err NotInitialized, st))
  /\ listRemoteAttachments st = (Err NotInitialized, st).
Proof.
  intros Hc. pose proof (this_client_none _ Hc) as H.
  repeat split; intros;
    (unfold testConnection, uploadDoc, downloadDoc, listRemoteDocsWithMeta, deleteDoc,
       uploadAttachment, downloadAttachment, deleteAttachment, listRemoteAttachments);
    exact (bind_err _ _ _ _ _ H).
Qed.

Lemma uninitialised_throws_witness :
  uploadDoc sample_doc (fresh []) = (Err NotInitialized, fresh [])
  /\ new_requests (fresh []) (snd (uploadDoc sample_doc (fresh []))) = [].
Proof.
  destruct (uninitialised_throws (fresh []) eq_refl) as (_ & Hup & _).
  rewrite Hup. split; reflexivity.
Defined.


(** C9: [deleteAttachment(id)] first asks whether the payload exists.  When
    it does not, the call returns and the remote is not touched; when it
    does, the payload is deleted; either way a second call returns and
    changes nothing.  [deleteDoc] sends its DELETE without asking. *)
Theorem deleteAttachment_checks_first st c id :
  client st = Some c -> reachable st ->
  let st1 := snd (deleteAttachment id st) in
  let st2 := snd (deleteAttachment id st1) in
  fst (deleteAttachment id st) = Ok tt
  /\ head (new_requests st st1) = Some (ReqExists (dataPath id))
  /\ (resources (remote st) !! dataPath id = None ->
        new_requests st st1 = [ReqExists (dataPath id)]
        /\ resources (remote st1) = resources (remote st))
  /\ resources (remote st1) !! dataPath id = None
  /\ fst (deleteAttachment id st1) = Ok tt
  /\ resources (remote st2) = resources (remote st1)
  /\ new_requests st (snd (deleteDoc id st)) = [ReqDelete (docPath id)].
Proof.
  intros Hc Hr.
  assert (Hdoc : new_requests st (snd (deleteDoc id st)) = [ReqDelete (docPath id)]).
  { unfold deleteDoc. rewrite (bind_ok _ _ _ _ _ (this_client_some _ _ Hc)).
    unfold await, deleteFile. rewrite send_answered by (by apply (answered_head 0), reachable_answered).
    unfold new_requests. simpl.
    destruct (resources (remote st) !! docPath id); simpl;
      by rewrite drop_app_length. }
  assert (Habsent : forall st', client st' = Some c -> reachable st' ->
            resources (remote st') !! dataPath id = None ->
            deleteAttachment id st' = (Ok tt, on_remote (sent (ReqExists (dataPath id))) st')).
  { intros st' Hc' Hr' Habs. unfold deleteAttachment.
    rewrite (bind_ok _ _ _ _ _ (this_client_some _ _ Hc')).
    rewrite (bind_ok _ _ _ _ _ (await_exists _ _ _ (reachable_answered 1 _ Hr'))).
    by rewrite present_none by (apply dataPath_not_root || done). }
  destruct (resources (remote st) !! dataPath id) as [r|] eqn:Hp.
  - assert (Hrun : deleteAttachment id st
       = (Ok tt, on_remote (fun s => with_resources (sent (ReqDelete (dataPath id)) s)
                   (filter (fun kv => negb (under (dataPath id) (fst kv)))
                      (delete (dataPath id) (resources s))))
                   (on_remote (sent (ReqExists (dataPath id))) st))).
    { unfold deleteAttachment.
      rewrite (bind_ok _ _ _ _ _ (this_client_some _ _ Hc)).
      rewrite (bind_ok _ _ _ _ _ (await_exists _ _ _ (reachable_answered 1 _ Hr))).
      rewrite (present_some _ _ _ Hp).
      eapply await_deleteFile_present; [apply reachable_answered, reachable_sent, Hr|exact Hp]. }
    rewrite Hrun. cbn [fst snd].
    assert (Hgone : resources (remote (on_remote (fun s => with_resources (sent (ReqDelete (dataPath id)) s)
                   (filter (fun kv => negb (under (dataPath id) (fst kv)))
                      (delete (dataPath id) (resources s))))
                   (on_remote (sent (ReqExists (dataPath id))) st))) !! dataPath id = None).
    { simpl. apply map_lookup_filter_None. left. apply lookup_delete_eq. }
    rewrite Habsent; [|done|by unfold reachable; simpl; rewrite Hr|done].
    repeat split; try done.
    + unfold new_requests. simpl. rewrite <- app_assoc. by rewrite drop_app_length.
  - rewrite (Habsent st Hc Hr Hp). cbn [fst snd].
    rewrite Habsent; [|done|by apply reachable_sent|done].
    repeat split; try done.
    + unfold new_requests. simpl. by rewrite drop_app_length.
    + unfold new_requests. simpl. by rewrite drop_app_length.
Qed.

Lemma deleteAttachment_checks_first_witness :
  fst (deleteAttachment "icon" (after_init [])) = Ok tt
  /\ new_requests (after_init []) (snd (deleteDoc "icon" (after_init [])))
     = [ReqDelete (docPath "icon")].
Proof.
  pose proof (deleteAttachment_checks_first (after_init [])
                (createClient (serverUrl sample_config) (cfg_username sample_config)
                   (cfg_password sample_config)) "icon" eq_refl eq_refl) as H.
  cbv zeta in H. destruct H as (H1 & _ & _ & _ & _ & _ & H7). by split.
Defined.


(** ** Attachments *)


Lemma fetch_metadata_total c id st :
  exists m st', fetch_metadata c id st = (Ok m, st')
    /\ (resources (remote st) !! metaPath id = None -> m = None)
    /\ (forall mc mt, resources (remote st) !! metaPath id = Some (File mc mt) ->
          JSON.parse (JS.text_of_bytes mc) = None -> m = None)
    /\ (forall mc mt v, reachable st ->
          resources (remote st) !! metaPath id = Some (File mc mt) ->
          JSON.parse (JS.text_of_bytes mc) = Some v -> m = Some v).
Proof.
  unfold fetch_metadata, try_catch.
  set (st1 := on_remote (sent (ReqExists (metaPath id))) st).
  destruct (next_fault (remote st)) as [e|] eqn:He; [|apply next_fault_answered in He as Ha].
  1:{ assert (Hfault : forall mc mt v, reachable st ->
                resources (remote st) !! metaPath id = Some (File mc mt) ->
                JSON.parse (JS.text_of_bytes mc) = Some v -> None = Some v).
      { intros mc mt v Hr%(reachable_answered 1)%answered_head. congruence. }
      destruct (await_exists_outcome st c (metaPath id) e He) as [H|H].
      - rewrite (bind_ok _ _ _ _ _ H). unfold ret.
        eexists _, _; split; [reflexivity|]. by split; [|split].
      - rewrite (bind_err _ _ _ _ _ H). unfold ret.
        eexists _, _; split; [reflexivity|]. by split; [|split]. }
  rewrite (bind_ok _ _ _ _ _ (await_exists _ _ _ Ha)). fold st1.
  destruct (resources (remote st) !! metaPath id) as [r|] eqn:Hm.
  2:{ rewrite present_none by (apply metaPath_not_root || done). unfold ret.
      eexists _, _; split; [reflexivity|]. by repeat split. }
  rewrite (present_some _ _ _ Hm).
  destruct (next_fault (remote st1)) as [e|] eqn:He1; [|apply next_fault_answered in He1 as Ha1].
  1:{ unfold getFileContents. rewrite (bind_err _ _ _ _ _ (await_failed _ _ _ e He1)).
      unfold ret. eexists _, _; split; [reflexivity|]. repeat split; try done.
      intros mc mt v Hr%(reachable_sent (ReqExists (metaPath id))).
      apply (reachable_answered 1), answered_head in Hr. fold st1 in Hr. congruence. }
  destruct r as [mc mt|].
  - erewrite bind_ok; [|eapply await_getFileContents; [done|exact Hm]].
    destruct (JSON.parse (JS.text_of_bytes mc)) as [v|] eqn:Hp; unfold ret, throw;
      (eexists _, _; split; [reflexivity|]); repeat split; intros; by simplify_eq.
  - erewrite bind_err.
    2:{ unfold await, getFileContents. rewrite send_answered by (by apply (answered_head 0)).
        simpl. rewrite Hm. reflexivity. }
    unfold ret. eexists _, _; split; [reflexivity|]. by repeat split.
Qed.

(** C10: when the payload is stored remotely, [downloadAttachment(id)]
    returns it: whatever the sidecar holds and whatever happens to the
    requests for it, the call returns the data, and the metadata is
    [undefined] when the sidecar is missing or when [JSON.parse] refuses
    its text, the body decoded as UTF-8 without its byte order mark, and
    the parsed value otherwise.  When the payload is absent the call
    returns [null]. *)
Theorem downloadAttachment_tolerates_metadata st c id :
  client st = Some c -> answered 2 st ->
  (resources (remote st) !! dataPath id = None ->
     downloadAttachment id st = (Ok None, on_remote (sent (ReqExists (dataPath id))) st))
  /\ (forall payload t,
        resources (remote st) !! dataPath id = Some (File payload t) ->
        (exists m, fst (downloadAttachment id st)
                   = Ok (Some {| data := payload; metadata := m |}))
        /\ (resources (remote st) !! metaPath id = None ->
              fst (downloadAttachment id st)
              = Ok (Some {| data := payload; metadata := None |}))
        /\ (forall mc mt,
              resources (remote st) !! metaPath id = Some (File mc mt) ->
              JSON.parse (JS.text_of_bytes mc) = None ->
              fst (downloadAttachment id st)
              = Ok (Some {| data := payload; metadata := None |}))
        /\ (forall mc mt v, reachable st ->
              resources (remote st) !! metaPath id = Some (File mc mt) ->
              JSON.parse (JS.text_of_bytes mc) = Some v ->
              fst (downloadAttachment id st)
              = Ok (Some {| data := payload; metadata := Some v |}))).
Proof.
  intros Hc Ha. split.
  - intros Habs. unfold downloadAttachment.
    rewrite (bind_ok _ _ _ _ _ (this_client_some _ _ Hc)).
    assert (Ha1 : answered 1 st) by (by apply answered_S).
    rewrite (bind_ok _ _ _ _ _ (await_exists _ _ _ Ha1)).
    by rewrite present_none by (apply dataPath_not_root || done).
  - intros payload t Hp.
    assert (Ha1 : answered 1 st) by (by apply answered_S).
    set (st2 := on_remote (sent (ReqGet (dataPath id)))
                  (on_remote (sent (ReqExists (dataPath id))) st)).
    destruct (fetch_metadata_total c id st2) as (m & st3 & Hrun & Hnone & Hbad & Hgood).
    assert (Hres : fst (downloadAttachment id st) = Ok (Some {| data := payload; metadata := m |})).
    { unfold downloadAttachment.
      rewrite (bind_ok _ _ _ _ _ (this_client_some _ _ Hc)).
      rewrite (bind_ok _ _ _ _ _ (await_exists _ _ _ Ha1)).
      rewrite (present_some _ _ _ Hp). cbn [negb].
      erewrite bind_ok; [|eapply await_getFileContents;
                          [by apply (answered_sent 1)|exact Hp]].
      fold (fetch_metadata c id). fold st2.
      by rewrite (bind_ok _ _ _ _ _ Hrun). }
    rewrite Hres. repeat split.
    + by exists m.
    + intros Hm. by rewrite (Hnone Hm).
    + intros mc mt Hm Hparse. by rewrite (Hbad mc mt Hm Hparse).
    + intros mc mt v Hr Hm Hparse. rewrite (Hgood mc mt v); [done| |done|done].
      by apply reachable_sent, reachable_sent.
Qed.


(** ** Upload, then download *)

Lemma uploadDoc_stores st c members id :
  client st = Some c -> answered 1 st -> layout st ->
  assoc "_id" members = Some (JStr id) ->
  uploadDoc (JObj members) st
  = (Ok tt, stored (docPath id) (JSON.stringify (JObj members)) st).
Proof.
  intros Hc Ha Hl Hid. unfold uploadDoc.
  rewrite (bind_ok _ _ _ _ _ (this_client_some _ _ Hc)).
  cbn [get_prop]. rewrite Hid. cbn [ToString to_string].
  unfold try_catch.
  erewrite bind_ok; [done|].
  apply await_putFileContents; [done|by apply layout_docPath_file|].
  rewrite dir_of_docPath. by apply layout_is_dir.
Qed.

(** Upload, then download.  On an initialised client, with the remote
    reachable and laid out as [init] leaves it, for an id in which the
    reserved text of the package does not occur, the server receives the
    requests at the remote path of the id, and [uploadDoc(doc)] followed
    by [downloadDoc(doc._id)] returns [doc] itself: every document whose
    [_id] is that string and whose values JSON writes (finite numbers,
    fractions among them, strings, arrays, objects). *)
Lemma upload_then_download st c members id :
  client st = Some c -> reachable st -> layout st -> plain id ->
  assoc "_id" members = Some (JStr id) ->
  JSON.wf (JObj members) = true ->
  received (docPath id) = Some (docPath id)
  /\ fst ((uploadDoc (JObj members);; downloadDoc id) st) = Ok (JObj members).
Proof.
  intros Hc Hr Hl Hp Hid Hwf. split; [by apply received_docPath|].
  rewrite (bind_ok _ _ _ _ _
             (uploadDoc_stores st c members id Hc (reachable_answered 1 _ Hr) Hl Hid)).
  erewrite downloadDoc_file.
  - by rewrite JSONFacts.parse_text_stringify.
  - done.
  - apply reachable_answered. unfold reachable, stored. simpl. by rewrite Hr.
  - unfold stored. simpl. apply lookup_insert_eq.
Qed.

Lemma after_init_resources :
  resources (remote (after_init []))
  = <["/ztools-sync/attachments" := Directory]> (<["/ztools-sync" := Directory]> ∅).
Proof. vm_compute. reflexivity. Qed.

(** [init] on an empty server leaves the layout. *)
Lemma layout_after_init : layout (after_init []).
Proof.
  unfold layout. rewrite after_init_resources. repeat split.
  intros p [[<- _]|[_ [[<- _]|[_ H]]%lookup_insert_Some]]%lookup_insert_Some Hd; done.
Qed.

Example upload_then_download_sample :
  fst ((uploadDoc sample_doc;; downloadDoc "plugin/demo:settings") (after_init []))
  = Ok sample_doc
  /\ fst ((uploadDoc measured_doc;; downloadDoc "measure") (after_init []))
     = Ok measured_doc.
Proof.
  split.
  - apply (upload_then_download (after_init []) (handle sample_config));
      [reflexivity|reflexivity|exact layout_after_init|reflexivity|reflexivity
      |vm_compute; reflexivity].
  - apply (upload_then_download (after_init []) (handle sample_config));
      [reflexivity|reflexivity|exact layout_after_init|reflexivity|reflexivity
      |vm_compute; reflexivity].
Qed.

(** C3: a document whose id holds the text that the [webdav] package
    reserves for the path separator.  The client makes the path of the
    encoded id, which holds no separator; [encodePath] of the package turns
    the reserved text into one, so the server receives the PUT of
    [uploadDoc] for a file [b.json] inside a directory [a] of the sync
    directory.  No such directory is there: the server refuses the PUT
    with 409, [putFileContents] throws, and so does [uploadDoc], where the
    claim asks for the document back.  For another such id the path
    received is that of the sidecar of the attachment [icon]. *)
Theorem upload_under_reserved_text :
  get_prop reserved_doc "_id" = Ok (Some (JStr "a__PATH_SEPARATOR_POSIX__b"))
  /\ docPath "a__PATH_SEPARATOR_POSIX__b" = "/ztools-sync/a__PATH_SEPARATOR_POSIX__b.json"
  /\ encodePath (docPath "a__PATH_SEPARATOR_POSIX__b") = "/ztools-sync/a/b.json"
  /\ received (docPath "a__PATH_SEPARATOR_POSIX__b") = Some "/ztools-sync/a/b.json"
  /\ await (putFileContents (handle sample_config) "/ztools-sync/a/b.json"
              (JSON.stringify reserved_doc)) (after_init [])
     = (Err (HttpError 409),
        on_remote (sent (ReqPut "/ztools-sync/a/b.json" (JSON.stringify reserved_doc)))
          (after_init []))
  /\ received (docPath "attachments__PATH_SEPARATOR_POSIX__icon.meta") = Some (metaPath "icon").
Proof. vm_compute. repeat split. Qed.


(** ** [init] *)



Lemma testConnection_failed st c e :
  client st = Some c -> next_fault (remote st) = Some e ->
  testConnection st = (Err (ConnectionFailed e), on_remote (sent (ReqList "/")) st).
Proof.
  intros Hc He. unfold testConnection.
  rewrite (bind_ok _ _ _ _ _ (this_client_some _ _ Hc)).
  unfold try_catch, getDirectoryContents.
  by rewrite (bind_err _ _ _ _ _ (await_failed _ _ _ e He)).
Qed.

Lemma testConnection_answered st c :
  client st = Some c -> answered 1 st ->
  testConnection st = (Ok true, on_remote (sent (ReqList "/")) st).
Proof.
  intros Hc Ha%answered_head. unfold testConnection.
  rewrite (bind_ok _ _ _ _ _ (this_client_some _ _ Hc)).
  unfold try_catch, mbind, M_bind, bind, await, getDirectoryContents.
  by rewrite send_answered.
Qed.





















Lemma downloadAttachment_tolerates_metadata_witness :
  fst (downloadAttachment "icon" broken_sidecar)
  = Ok (Some {| data := "PNG-bytes"; metadata := None |})
  /\ fst (downloadAttachment "logo" broken_sidecar) = Ok None
  /\ fst (downloadAttachment "icon" sized_sidecar)
     = Ok (Some {| data := "PNG-bytes";
                   metadata := Some (JObj [("size", JDec false 15 (-1))]) |}).
Proof.
  destruct (downloadAttachment_tolerates_metadata broken_sidecar (handle sample_config) "icon"
              eq_refl eq_refl) as [_ H].
  destruct (H "PNG-bytes" 1700000000000%Z) as (_ & _ & Hbad & _); [vm_compute; reflexivity|].
  split; [|split].
  - apply (Hbad "{ not json" 1700000000001%Z); vm_compute; reflexivity.
  - destruct (downloadAttachment_tolerates_metadata broken_sidecar (handle sample_config) "logo"
                eq_refl eq_refl) as [Habs _].
    rewrite Habs; [reflexivity|vm_compute; reflexivity].
  - destruct (downloadAttachment_tolerates_metadata sized_sidecar (handle sample_config) "icon"
                eq_refl eq_refl) as [_ H'].
    destruct (H' "PNG-bytes" 1700000000000%Z) as (_ & _ & _ & Hgood); [vm_compute; reflexivity|].
    apply (Hgood ("{" +:+ JSON.lit "size" +:+ ":1.5}") 1700000000001%Z);
      vm_compute; reflexivity.
Defined.

(** ** Ids and remote paths *)

(** Distinct ids have distinct encodings, hence distinct remote paths. *)
Lemma encodeURIComponent_inj a b :
  JS.encodeURIComponent a = JS.encodeURIComponent b -> a = b.
Proof.
  intros H. apply (f_equal JS.unescape) in H. rewrite !unescape_encode in H.
  injection H as H.
  assert (Hid : forall l : list ascii,
            ((fun c => (negb (JS.uriUnreserved c), c)) <$> l).*2 = l).
  { intros l. induction l as [|x l IHl]; csimpl; [done|]. by f_equal. }
  apply (f_equal (fmap snd)) in H. rewrite !Hid in H.
  rewrite <- (String.string_of_list_ascii_of_string a),
          <- (String.string_of_list_ascii_of_string b). by rewrite H.
Qed.

Lemma unreserved_is_ascii c : JS.uriUnreserved c = true -> (JS.code c <? 128)%N = true.
Proof. destruct c as [[] [] [] [] [] [] [] []]; intros H; try discriminate H; reflexivity. Qed.

Lemma is_cont_tag lo hi c :
  (128 <= lo)%N ->
  JS.is_cont lo hi (negb (JS.uriUnreserved c), c) = JS.is_cont lo hi (true, c).
Proof.
  intros Hlo. unfold JS.is_cont, JS.in_range. simpl.
  destruct (JS.uriUnreserved c) eqn:E; [|done]. simpl.
  apply unreserved_is_ascii, N.ltb_lt in E. symmetry. apply andb_false_iff. left.
  apply N.leb_gt. lia.
Qed.

(** The escapes of an encoded string are well formed exactly when the
    string is. *)
Lemma well_formed_tag l :
  JS.escapes_well_formed ((fun c => (negb (JS.uriUnreserved c), c)) <$> l)
  = JS.escapes_well_formed (pair true <$> l).
Proof.
  assert (H : forall n l, length l <= n ->
            JS.escapes_well_formed ((fun c => (negb (JS.uriUnreserved c), c)) <$> l)
            = JS.escapes_well_formed (pair true <$> l)); [|by apply (H (length l))].
  clear l. induction n as [|n IH]; intros [|c l] Hn; simpl in Hn; try done; [lia|].
  csimpl. destruct (JS.uriUnreserved c) eqn:E; simpl.
  - rewrite (unreserved_is_ascii c E). apply IH. lia.
  - destruct (JS.code c <? 128)%N; [apply IH; lia|].
    destruct (JS.in_range 194 223 c).
    { destruct l as [|c1 l]; [done|]. csimpl.
      rewrite is_cont_tag by lia. by rewrite (IH l) by (simpl in Hn; lia). }
    destruct (JS.in_range 224 239 c).
    { destruct l as [|c1 [|c2 l]]; [done|done|]. csimpl.
      rewrite !is_cont_tag by (try destruct (JS.code c =? 224)%N; lia).
      by rewrite (IH l) by (simpl in Hn; lia). }
    destruct (JS.in_range 240 244 c); [|done].
    destruct l as [|c1 [|c2 [|c3 l]]]; [done|done|done|]. csimpl.
    rewrite !is_cont_tag by (try destruct (JS.code c =? 240)%N; lia).
    by rewrite (IH l) by (simpl in Hn; lia).
Qed.



(** [decodeURIComponent] inverts [encodeURIComponent]. *)
Lemma decode_encode s :
  JS.utf8_valid s = true ->
  JS.decodeURIComponent (JS.encodeURIComponent s) = Some s.
Proof.
  intros H. unfold JS.decodeURIComponent. rewrite unescape_encode, well_formed_tag.
  unfold JS.utf8_valid in H. rewrite H. by rewrite string_of_bytes_tag.
Qed.

Lemma app_inv_head_s p a b : p +:+ a = p +:+ b -> a = b.
Proof. induction p as [|c p IH]; [done|]. rewrite !app_String. intros [=]. auto. Qed.

Lemma app_inv_tail_s a b x : a +:+ x = b +:+ x -> a = b.
Proof.
  revert b. induction a as [|c a IH]; intros [|d b] H; try done.
  - apply (f_equal String.length) in H. rewrite !length_app_s in H. simpl in H. lia.
  - apply (f_equal String.length) in H. rewrite !length_app_s in H. simpl in H. lia.
  - rewrite !app_String in H. injection H as -> H. by rewrite (IH b).
Qed.

Lemma docPath_inj a b : docPath a = docPath b -> a = b.
Proof.
  unfold docPath. intros H%app_inv_head_s%app_inv_tail_s. by apply encodeURIComponent_inj.
Qed.

(** An id with path separators and reserved characters goes through
    upload, listing and download. *)
Example listing_sample :
  let st := snd (uploadDoc sample_doc (after_init [])) in
  docPath "plugin/demo:settings" = "/ztools-sync/plugin%2Fdemo%3Asettings.json"
  /\ fst (listRemoteDocsWithMeta st)
     = Ok [{| docId := "plugin/demo:settings"; lastModified := 1700000000000 |}]
  /\ fst (downloadDoc "plugin/demo:settings" st) = Ok sample_doc.
Proof. vm_compute. repeat split. Qed.

(** C4: an id that holds [.json].  The document is stored at the path of
    its encoded id and can be downloaded under its id, but the listing
    strips the first [.json] of the file name, not the extension: it
    reports the id [notes.bak.json], under which nothing is stored. *)
Theorem listing_breaks_id_with_json :
  let st := snd (uploadDoc backup_doc (after_init [])) in
  fst (uploadDoc backup_doc (after_init [])) = Ok tt
  /\ new_requests (after_init []) st
     = [ReqPut "/ztools-sync/notes.json.bak.json" (JSON.stringify backup_doc)]
  /\ fst (listRemoteDocsWithMeta st)
     = Ok [{| docId := "notes.bak.json"; lastModified := 1700000000000 |}]
  /\ fst (downloadDoc "notes.bak.json" st) = Ok JNull
  /\ fst (downloadDoc "notes.json.bak" st) = Ok backup_doc.
Proof. vm_compute. repeat split. Qed.

End ClientGuarantees.

(* ===================================================================== *)
(** * The revision generator: the shape of a revision *)
(* ===================================================================== *)

Section RevFacts.
Import Rev.

Lemma hex_lower_is_hex k : (k < 16)%N -> is_lower_hex (JS.hex_lower k) = true.
Proof.
  intros H. assert (Hk : exists i, (i < 16)%nat /\ k = N.of_nat i).
  { exists (N.to_nat k). split; lia. }
  destruct Hk as (i & Hi & ->).
  do 16 (destruct i as [|i]; [reflexivity|]). lia.
Qed.

Lemma hex_digits_length n r : String.length (hex_digits n r) = n.
Proof.
  revert r. induction n as [|n IH]; intros r; [done|].
  simpl. rewrite length_app_s, IH. simpl. lia.
Qed.

Lemma hex_digits_lower n r : JS.all_chars is_lower_hex (hex_digits n r) = true.
Proof.
  revert r. induction n as [|n IH]; intros r; [done|].
  simpl. apply all_chars_app; [apply IH|]. simpl.
  rewrite hex_lower_is_hex; [done|]. apply N.mod_lt. lia.
Qed.

Lemma strip_prefix_app p s : JSON.strip_prefix p (p +:+ s) = Some s.
Proof. unfold JSON.strip_prefix. by rewrite starts_with_app, drop_app_s. Qed.

(** Whatever the previous revision and the random draw, the new revision
    is the incremented sequence number, a dash and 32 lower-case
    hexadecimal characters. *)
Lemma generateNewRev_matches prev rnd :
  matches_rev (match prev with Some p => leading_int p | None => 0 end + 1)
              (generateNewRev prev rnd) = true.
Proof.
  unfold matches_rev, generateNewRev.
  rewrite <- app_assoc_s, strip_prefix_app, hex_digits_length, hex_digits_lower. done.
Qed.

Lemma take_digits_app s rest :
  JS.all_chars JS.is_digit s = true -> starts_with_digit rest = false ->
  JS.take_digits (s +:+ rest) = s.
Proof.
  intros Hs Hr. induction s as [|c s IH]; simpl in *.
  - destruct rest as [|d rest]; [done|]. simpl in *. by rewrite Hr.
  - apply andb_true_iff in Hs as [Hc Hs]. rewrite Hc. by rewrite IH.
Qed.

Lemma to_uint_nonnil n : N.to_uint n <> Decimal.Nil.
Proof. destruct n as [|p]; [done|]. apply DecimalPos.Unsigned.to_uint_nonnil. Qed.

Lemma string_of_N_digits n : JS.all_chars JS.is_digit (string_of_N n) = true.
Proof.
  unfold string_of_N, NilZero.string_of_uint.
  pose proof (to_uint_nonnil n). pose proof (digits_string_of_uint (N.to_uint n)).
  by destruct (N.to_uint n).
Qed.

(** The leading integer of a revision: the number its first digits
    write. *)
Lemma leading_int_digits digits rest :
  JS.all_chars JS.is_digit digits = true -> starts_with_digit rest = false ->
  leading_int (digits +:+ rest) = JS.digits_value digits.
Proof. intros Hd Hr. unfold leading_int. by rewrite take_digits_app. Qed.

Lemma digits_value_string_of_N n : JS.digits_value (string_of_N n) = n.
Proof.
  unfold string_of_N, NilZero.string_of_uint.
  pose proof (to_uint_nonnil n) as Hn.
  assert (E : match N.to_uint n with
              | Decimal.Nil => "0"
              | _ => NilEmpty.string_of_uint (N.to_uint n)
              end = NilEmpty.string_of_uint (N.to_uint n)) by (by destruct (N.to_uint n)).
  rewrite E, digits_value_uint.
  change (Pos.of_uint (N.to_uint n)) with (N.of_uint (N.to_uint n)).
  apply DecimalN.Unsigned.of_to.
Qed.

(** C5: for a previous revision that starts with digits, whatever they
    are, leading zeros included, and goes on with something that is no
    digit, [generateNewRev] returns the number the digits write plus one,
    a dash and 32 lower-case hexadecimal characters; so it does for the
    decimal of every [n].  Without argument, and for every argument that
    does not start with a digit, [not-a-rev] among them, the sequence
    number is 1; for [5-deadbeef...] it is 6. *)
Theorem generateNewRev_format :
  (forall digits rest rnd,
     JS.all_chars JS.is_digit digits = true -> starts_with_digit rest = false ->
     matches_rev (JS.digits_value digits + 1) (generateNewRev (Some (digits +:+ rest)) rnd)
     = true)
  /\ (forall n rest rnd,
        starts_with_digit rest = false ->
        matches_rev (n + 1) (generateNewRev (Some (string_of_N n +:+ rest)) rnd) = true)
  /\ (forall rnd, matches_rev 1 (generateNewRev None rnd) = true)
  /\ (forall prev rnd,
        starts_with_digit prev = false ->
        matches_rev 1 (generateNewRev (Some prev) rnd) = true)
  /\ (forall rnd, matches_rev 1 (generateNewRev (Some "not-a-rev") rnd) = true)
  /\ (forall rnd,
        matches_rev 6 (generateNewRev (Some "5-deadbeefdeadbeefdeadbeefdeadbeef") rnd) = true).
Proof.
  assert (H1 : forall digits rest rnd,
             JS.all_chars JS.is_digit digits = true -> starts_with_digit rest = false ->
             matches_rev (JS.digits_value digits + 1)
               (generateNewRev (Some (digits +:+ rest)) rnd) = true).
  { intros digits rest rnd Hd Hr.
    pose proof (generateNewRev_matches (Some (digits +:+ rest)) rnd) as H.
    cbv beta iota in H. by rewrite leading_int_digits in H. }
  split; [exact H1|]. split; [|split; [|split; [|split]]].
  - intros n rest rnd Hr.
    rewrite <- (digits_value_string_of_N n) at 1. apply H1; [apply string_of_N_digits|done].
  - intros rnd. apply (generateNewRev_matches None).
  - intros prev rnd Hp. apply (H1 "" prev rnd); done.
  - intros rnd. apply (generateNewRev_matches (Some "not-a-rev")).
  - intros rnd. apply (generateNewRev_matches (Some "5-deadbeefdeadbeefdeadbeefdeadbeef")).
Qed.

Lemma generateNewRev_format_witness :
  generateNewRev (Some "099-abc123") 0 = "100-00000000000000000000000000000000"
  /\ matches_rev 100 (generateNewRev (Some "099-abc123") 0) = true
  /\ matches_rev 1 (generateNewRev (Some "rev-7") 0) = true.
Proof.
  split; [reflexivity|].
  destruct generateNewRev_format as (H1 & _ & _ & H4 & _).
  split.
  - apply (H1 "099" "-abc123" 0%N); reflexivity.
  - apply (H4 "rev-7" 0%N). reflexivity.
Defined.

(** The cases of the test suite ([tests/main/lmdbUtils.test.ts]). *)
Example generateNewRev_tests rnd :
  matches_rev 1 (generateNewRev None rnd) = true
  /\ matches_rev 2 (generateNewRev (Some "1-abc123") rnd) = true
  /\ matches_rev 100 (generateNewRev (Some "99-abc123") rnd) = true
  /\ matches_rev 1 (generateNewRev (Some "invalid") rnd) = true.
Proof.
  repeat split.
  - apply (generateNewRev_matches None).
  - apply (generateNewRev_matches (Some "1-abc123")).
  - apply (generateNewRev_matches (Some "99-abc123")).
  - apply (generateNewRev_matches (Some "invalid")).
Qed.

End RevFacts.

(* ===================================================================== *)
(** * The sync cycle: a conflict is recorded, never resolved *)
(* ===================================================================== *)

Lemma json_eqb_eq a : forall b, json_eqb a b = true <-> a = b.
Proof.
  induction a as [|x|x|neg m e|x|l IH|l IH] using json_nested_ind;
    intros [|y|y|neg' m' e'|y|l'|l']; simpl;
    try (split; [discriminate|intros [=]]); try done.
  - rewrite Bool.eqb_true_iff. split; [by intros ->|by intros [=]].
  - rewrite Z.eqb_eq. split; [by intros ->|by intros [=]].
  - rewrite !andb_true_iff, Bool.eqb_true_iff, !Z.eqb_eq.
    split; [by intros [[-> ->] ->]|by intros [= -> -> ->]].
  - rewrite String.eqb_eq. split; [by intros ->|by intros [=]].
  - revert l'. induction IH as [|a l Ha _ IHl]; intros [|b l']; simpl;
      try (split; [discriminate|intros [=]]); try done.
    rewrite andb_true_iff, Ha, IHl. split; [by intros [-> [= ->]]|by intros [= -> ->]].
  - revert l'. induction IH as [|[k a] l Ha _ IHl]; intros [|[k' b] l']; simpl;
      try (split; [discriminate|intros [=]]); try done.
    simpl in Ha. rewrite !andb_true_iff, String.eqb_eq, Ha, IHl.
    split; [by intros [[-> ->] [= ->]]|by intros [= -> -> ->]].
Qed.

Section EngineFacts.
Import Engine.

Variable content : json -> json.
Variable env : Env.
Variable s : EngineState.
Variable id : string.
Variable item : SyncQueueItem.
Variable rd : RemoteDoc.

Local Abbreviation the_record := (Engine.the_record env s id rd).
Local Abbreviation pull_inv := (Engine.pull_inv env s id rd).
Local Abbreviation push_inv := (Engine.push_inv id).

Hypothesis Hpending : queue s !! id = Some item.
Hypothesis Hremote : remoteDocs s !! id = Some rd.
Hypothesis Hchanged :
  changed_remotely s {| docId := id; lastModified := r_lastModified rd |} = true.
Hypothesis Htransport : transport_ok env id = true.
Hypothesis Hdiffers :
  forall d, localDocs s !! id = Some d -> content d <> content (r_doc rd).



Lemma in_conflict_here c :
  pull_inv c -> in_conflict content (st c) id (r_doc rd) = true.
Proof.
  intros (Hq & _ & Hl & _). unfold in_conflict. rewrite Hq, Hpending, Hl.
  destruct (localDocs s !! id) as [d|] eqn:E; [|done].
  apply negb_true_iff. destruct (json_eqb _ _) eqn:Eq; [|done].
  apply json_eqb_eq in Eq. by destruct (Hdiffers d).
Qed.

Lemma listing_meta m :
  m ∈ listing s -> docId m = id -> lastModified m = r_lastModified rd.
Proof.
  unfold listing. intros ([k v] & -> & Hin%elem_of_map_to_list)%list_elem_of_fmap Hid.
  simpl in *. subst k. rewrite Hremote in Hin. by injection Hin as <-.
Qed.

Lemma pull_step_inv c m : m ∈ listing s -> pull_inv c -> pull_inv (pull_step content env c m).
Proof.
  intros Hm Hinv. pose proof Hinv as (Hq & Hr & Hl & Hc & new & Hnew & Hcount & Hrec).
  unfold pull_step.
  destruct (negb (changed_remotely (st c) m)); [done|].
  destruct (if transport_ok env (docId m) then remoteDocs (st c) !! docId m else None)
    as [rd'|] eqn:Erd.
  2:{ repeat split; try done. by exists new. }
  destruct (in_conflict content (st c) (docId m) (r_doc rd')) eqn:Econf.
  - repeat split; try done. simpl.
    exists (new ++ [{| c_docId := docId m;
                       localDoc := default JNull (localDocs (st c) !! docId m);
                       remoteDoc := r_doc rd'; c_timestamp := now env |}]).
    rewrite Hnew, <- app_assoc, length_app. simpl. repeat split; [lia|].
    intros [Heq%elem_of_singleton|Hin]%elem_of_union.
    + apply elem_of_app. right. apply list_elem_of_singleton. unfold the_record.
      rewrite <- Heq in Erd |- *. rewrite Htransport, Hr, Hremote in Erd.
      injection Erd as <-. by rewrite Hl.
    + apply elem_of_app. left. auto.
  - destruct (decide (docId m = id)) as [Heq|Hne].
    + rewrite Heq in Econf, Erd. rewrite Htransport, Hr, Hremote in Erd.
      injection Erd as <-. by rewrite in_conflict_here in Econf.
    + repeat split; simpl; try done; try by rewrite lookup_insert_ne.
      by exists new.
Qed.

Lemma pull_step_records c m :
  m ∈ listing s -> docId m = id -> pull_inv c ->
  id ∈ conflicted (pull_step content env c m).
Proof.
  intros Hm Hid Hinv. pose proof Hinv as (Hq & Hr & Hl & Hc & _).
  unfold pull_step.
  assert (Hch : changed_remotely (st c) m = true).
  { unfold changed_remotely in *. simpl in Hchanged. rewrite Hid, Hc.
    by rewrite (listing_meta m Hm Hid). }
  rewrite Hch. cbn [negb]. rewrite Hid, Htransport, Hr, Hremote.
  rewrite in_conflict_here by done. simpl.
  apply elem_of_union. left. by apply elem_of_singleton.
Qed.

Lemma pull_step_keeps c m : id ∈ conflicted c -> id ∈ conflicted (pull_step content env c m).
Proof.
  intros H. unfold pull_step.
  repeat (match goal with |- context [if ?b then _ else _] => destruct b end
          || match goal with |- context [match ?o with Some _ => _ | None => _ end] => destruct o end);
    simpl; set_solver.
Qed.

Lemma pull_fold l c :
  (forall m, m ∈ l -> m ∈ listing s) -> pull_inv c ->
  pull_inv (foldl (pull_step content env) c l)
  /\ ((id ∈ conflicted c \/ exists m, m ∈ l /\ docId m = id) ->
      id ∈ conflicted (foldl (pull_step content env) c l)).
Proof.
  revert c. induction l as [|m l IH]; intros c Hl Hinv; simpl.
  - split; [done|]. intros [H|(m & Hm & _)]; [done|]. by apply elem_of_nil in Hm.
  - assert (Hm : m ∈ listing s) by (apply Hl; left).
    destruct (IH (pull_step content env c m)) as [H1 H2].
    + intros m' Hm'. apply Hl. by right.
    + by apply pull_step_inv.
    + split; [done|]. intros [H|(m' & [->|Hm']%elem_of_cons & Hid)]; apply H2.
      * left. by apply pull_step_keeps.
      * left. by apply pull_step_records.
      * right. eauto.
Qed.


Lemma push_step_inv c0 c entry : push_inv c0 c -> push_inv c0 (push_step env c entry).
Proof.
  intros (Hin & Hq & Hr & Hl & Hcs & Hn). destruct entry as [k it]. unfold push_step.
  case_bool_decide as Hk; [done|].
  assert (Hne : k <> id) by (by intros ->).
  destruct (maxRetries env <? retryCount it)%nat; [done|].
  destruct (negb (transport_ok env k)).
  { repeat split; simpl; try done. by rewrite lookup_alter_ne. }
  destruct (q_operation it).
  - destruct (localDocs (st c) !! k).
    + repeat split; simpl; try done;
        [by rewrite lookup_delete_ne|by rewrite lookup_insert_ne].
    + repeat split; simpl; try done. by rewrite lookup_alter_ne.
  - repeat split; simpl; try done; by rewrite lookup_delete_ne.
Qed.

Lemma push_fold c0 l c : push_inv c0 c -> push_inv c0 (foldl (push_step env) c l).
Proof.
  revert c. induction l as [|e l IH]; intros c H; simpl; [done|].
  by apply IH, push_step_inv.
Qed.

Lemma conflict_recorded :
  connected env = true ->
  exists s' r new,
    syncCycle content env s = (s', Some r)
    /\ localDocs s' !! id = localDocs s !! id
    /\ remoteDocs s' !! id = Some rd
    /\ queue s' !! id = Some item
    /\ conflictStore s' = conflictStore s ++ new
    /\ the_record ∈ new
    /\ conflicts r = length new.
Proof.
  intros Hconn. unfold syncCycle. rewrite Hconn. cbn [negb].
  set (start := {| st := s; res := _; conflicted := ∅ |}).
  assert (Hstart : pull_inv start).
  { repeat split; try done. exists []. rewrite app_nil_r. by repeat split. }
  destruct (pull_fold (listing s) start (fun _ H => H) Hstart) as [Hinv Hdone].
  set (pulled := foldl (pull_step content env) start (listing s)) in *.
  destruct Hinv as (Hq & Hr & Hl & Hc & new & Hnew & Hcount & Hrec).
  assert (Hin : id ∈ conflicted pulled).
  { apply Hdone. right. exists {| docId := id; lastModified := r_lastModified rd |}.
    split; [|done]. unfold listing. apply list_elem_of_fmap. exists (id, rd).
    split; [done|]. by apply elem_of_map_to_list. }
  assert (Hpush : push_inv pulled pulled) by (by repeat split).
  apply (push_fold pulled (map_to_list (queue (st pulled)))) in Hpush.
  set (pushed := foldl (push_step env) pulled _) in *.
  destruct Hpush as (_ & Hq' & Hr' & Hl' & Hcs' & Hn').
  exists (finish env (st pushed)), (res pushed), new. simpl.
  repeat split.
  - by rewrite Hl', Hl.
  - by rewrite Hr', Hr.
  - by rewrite Hq', Hq.
  - by rewrite Hcs'.
  - auto.
  - by rewrite Hn'.
Qed.

End EngineFacts.

(** C1: a document with a pending queue entry whose local content differs
    from a remotely changed version.  One cycle completes and leaves the
    local document, the remote document and the queue entry of that id as
    they were: the pull is not applied, the pending change is not pushed.
    The conflict store gains a record with the id, the local document, the
    remote document and the time of the cycle, the earlier records stay,
    and [SyncResult.conflicts] counts the records gained. *)
Theorem conflict_is_recorded content env s id item rd :
  Engine.connected env = true ->
  Engine.queue s !! id = Some item ->
  Engine.remoteDocs s !! id = Some rd ->
  Engine.changed_remotely s {| docId := id; lastModified := Engine.r_lastModified rd |} = true ->
  Engine.transport_ok env id = true ->
  (forall d, Engine.localDocs s !! id = Some d -> content d <> content (Engine.r_doc rd)) ->
  exists s' r new,
    Engine.syncCycle content env s = (s', Some r)
    /\ Engine.localDocs s' !! id = Engine.localDocs s !! id
    /\ Engine.remoteDocs s' !! id = Some rd
    /\ Engine.queue s' !! id = Some item
    /\ Engine.conflictStore s' = Engine.conflictStore s ++ new
    /\ {| c_docId := id; localDoc := default JNull (Engine.localDocs s !! id);
          remoteDoc := Engine.r_doc rd; c_timestamp := Engine.now env |} ∈ new
    /\ conflicts r = length new.
Proof.
  intros Hconn Hq Hr Hch Ht Hd.
  exact (conflict_recorded content env s id item rd Hq Hr Hch Ht Hd Hconn).
Qed.

Lemma conflict_is_recorded_witness :
  exists s' r new,
    Engine.syncCycle (fun d => d) scenario_env scenario = (s', Some r)
    /\ Engine.localDocs s' !! "A" = Some scenario_local_A
    /\ Engine.remoteDocs s' !! "A"
       = Some {| Engine.r_doc := scenario_remote_A; Engine.r_lastModified := 200 |}
    /\ Engine.queue s' !! "A"
       = Some {| q_docId := "A"; q_operation := OpPut; q_timestamp := 150; retryCount := 0 |}
    /\ Engine.conflictStore s' = [] ++ new
    /\ {| c_docId := "A"; localDoc := scenario_local_A;
          remoteDoc := scenario_remote_A; c_timestamp := 300 |} ∈ new
    /\ conflicts r = length new.
Proof.
  apply (conflict_is_recorded (fun d => d) scenario_env scenario "A").
  - reflexivity.
  - reflexivity.
  - reflexivity.
  - reflexivity.
  - reflexivity.
  - intros d H. vm_compute in H. injection H as <-. discriminate.
Defined.

(** The scenario, run: one conflict, one download, nothing uploaded; [A]
    is still the local edit, and the remote [A] is untouched. *)
Example scenario_run :
  let (s', r) := Engine.syncCycle (fun d => d) scenario_env scenario in
  r = Some {| uploaded := 0; downloaded := 1; conflicts := 1; errors := 0 |}
  /\ Engine.localDocs s' !! "A" = Some scenario_local_A
  /\ Engine.localDocs s' !! "B" = Some scenario_remote_B
  /\ Engine.conflictStore s'
     = [{| c_docId := "A"; localDoc := scenario_local_A;
           remoteDoc := scenario_remote_A; c_timestamp := 300 |}]
  /\ Engine.remoteDocs s' = Engine.remoteDocs scenario
  /\ Engine.queue s' = Engine.queue scenario.
Proof. vm_compute. repeat split. Qed.

(* ===================================================================== *)
(** * Further properties of the client *)
(* ===================================================================== *)

Section ClientProperties.
Import WebDAV WebDAVSyncClient.

(** ** Remote paths *)

Lemma dir_of_dataPath id : dir_of (dataPath id) = "/ztools-sync/attachments".
Proof.
  change (dataPath id)
    with ("/ztools-sync/attachments" +:+ "/" +:+ (JS.encodeURIComponent id +:+ ".bin")).
  apply dir_of_child; [done|]. by rewrite mem_char_app, encode_no_slash.
Qed.

Lemma dir_of_metaPath id : dir_of (metaPath id) = "/ztools-sync/attachments".
Proof.
  change (metaPath id)
    with ("/ztools-sync/attachments" +:+ "/" +:+ (JS.encodeURIComponent id +:+ ".meta.json")).
  apply dir_of_child; [done|]. by rewrite mem_char_app, encode_no_slash.
Qed.

Lemma base_of_docPath id : base_of (docPath id) = JS.encodeURIComponent id +:+ ".json".
Proof.
  change (docPath id)
    with ("/ztools-sync" +:+ "/" +:+ (JS.encodeURIComponent id +:+ ".json")).
  apply base_of_child. by rewrite mem_char_app, encode_no_slash.
Qed.

Lemma base_of_dataPath id : base_of (dataPath id) = JS.encodeURIComponent id +:+ ".bin".
Proof.
  change (dataPath id)
    with ("/ztools-sync/attachments" +:+ "/" +:+ (JS.encodeURIComponent id +:+ ".bin")).
  apply base_of_child. by rewrite mem_char_app, encode_no_slash.
Qed.

Lemma base_of_metaPath id :
  base_of (metaPath id) = JS.encodeURIComponent id +:+ ".meta.json".
Proof.
  change (metaPath id)
    with ("/ztools-sync/attachments" +:+ "/" +:+ (JS.encodeURIComponent id +:+ ".meta.json")).
  apply base_of_child. by rewrite mem_char_app, encode_no_slash.
Qed.

(** X1: for an id in which the reserved text of the package does not
    occur, whatever else it holds, path separators included: its encoding
    holds no separator, so each of the three remote paths of the id is an
    entry of the sync directory or of the attachments directory itself,
    named by the encoded id and the extension; and each is the path the
    server receives when a method is called on it. *)
Theorem paths_stay_in_their_directory id :
  plain id ->
  JS.mem_char "/" (JS.encodeURIComponent id) = false
  /\ dir_of (docPath id) = "/ztools-sync"
  /\ base_of (docPath id) = JS.encodeURIComponent id +:+ ".json"
  /\ dir_of (dataPath id) = "/ztools-sync/attachments"
  /\ base_of (dataPath id) = JS.encodeURIComponent id +:+ ".bin"
  /\ dir_of (metaPath id) = "/ztools-sync/attachments"
  /\ base_of (metaPath id) = JS.encodeURIComponent id +:+ ".meta.json"
  /\ received (docPath id) = Some (docPath id)
  /\ received (dataPath id) = Some (dataPath id)
  /\ received (metaPath id) = Some (metaPath id).
Proof.
  intros Hid.
  split; [apply encode_no_slash|]. split; [apply dir_of_docPath|].
  split; [apply base_of_docPath|]. split; [apply dir_of_dataPath|].
  split; [apply base_of_dataPath|]. split; [apply dir_of_metaPath|].
  split; [apply base_of_metaPath|]. split; [by apply received_docPath|].
  split; [by apply received_dataPath|by apply received_metaPath].
Qed.

Lemma paths_stay_in_their_directory_witness :
  docPath "plugin/demo:settings" = "/ztools-sync/plugin%2Fdemo%3Asettings.json"
  /\ received (docPath "plugin/demo:settings")
     = Some "/ztools-sync/plugin%2Fdemo%3Asettings.json"
  /\ base_of (metaPath "plugin/demo:settings") = "plugin%2Fdemo%3Asettings.meta.json".
Proof.
  destruct (paths_stay_in_their_directory "plugin/demo:settings" eq_refl)
    as (_ & _ & _ & _ & _ & _ & H7 & H8 & _).
  split; [reflexivity|]. split; [exact H8|exact H7].
Defined.

Lemma drop_add_s a b k : JS.drop (String.length a + k) (a +:+ b) = JS.drop k b.
Proof. induction a as [|c a IH]; [done|]. rewrite app_String. simpl. apply IH. Qed.

Lemma dataPath_inj a b : dataPath a = dataPath b -> a = b.
Proof.
  unfold dataPath. intros H%app_inv_head_s%app_inv_tail_s. by apply encodeURIComponent_inj.
Qed.

Lemma metaPath_inj a b : metaPath a = metaPath b -> a = b.
Proof.
  unfold metaPath. intros H%app_inv_head_s%app_inv_tail_s. by apply encodeURIComponent_inj.
Qed.

Lemma dataPath_not_metaPath a b : dataPath a <> metaPath b.
Proof.
  unfold dataPath, metaPath. intros H%app_inv_head_s.
  apply (f_equal (fun s => JS.drop (String.length s - 4) s)) in H.
  rewrite !length_app_s in H. simpl in H.
  replace (String.length (JS.encodeURIComponent a) + 4 - 4)
    with (String.length (JS.encodeURIComponent a) + 0) in H by lia.
  replace (String.length (JS.encodeURIComponent b) + 10 - 4)
    with (String.length (JS.encodeURIComponent b) + 6) in H by lia.
  rewrite !drop_add_s in H. discriminate H.
Qed.

Lemma docPath_not_attachment a b : docPath a <> dataPath b /\ docPath a <> metaPath b.
Proof.
  assert (H : forall p, dir_of p = "/ztools-sync/attachments" -> docPath a <> p).
  { intros p Hp E. rewrite <- E, dir_of_docPath in Hp. discriminate Hp. }
  split; apply H; [apply dir_of_dataPath|apply dir_of_metaPath].
Qed.

(** X2: no two files of the client collide, for ids in which the reserved
    text of the package does not occur: the paths the server receives for
    the documents, the payloads and the sidecars of two distinct ids are
    distinct, and a document, a payload and a sidecar never share a path,
    whatever their ids. *)
Theorem remote_paths_never_collide a b :
  plain a -> plain b ->
  (a <> b ->
   received (docPath a) <> received (docPath b)
   /\ received (dataPath a) <> received (dataPath b)
   /\ received (metaPath a) <> received (metaPath b))
  /\ received (dataPath a) <> received (metaPath b)
  /\ received (docPath a) <> received (dataPath b)
  /\ received (docPath a) <> received (metaPath b).
Proof.
  intros Ha Hb.
  rewrite !received_docPath, !received_dataPath, !received_metaPath by done.
  split; [intros Hne; split; [|split]|split; [|split]]; intros E%(inj Some).
  - by apply docPath_inj in E.
  - by apply dataPath_inj in E.
  - by apply metaPath_inj in E.
  - by apply dataPath_not_metaPath in E.
  - by apply (docPath_not_attachment a b) in E.
  - by apply (docPath_not_attachment a b) in E.
Qed.

Lemma remote_paths_never_collide_witness :
  received (docPath "a/1") <> received (docPath "a:1")
  /\ received (dataPath "a/1") <> received (metaPath "a/1").
Proof.
  destruct (remote_paths_never_collide "a/1" "a:1" eq_refl eq_refl) as (H & _).
  destruct (H ltac:(discriminate)) as (H1 & _). split; [exact H1|].
  by destruct (remote_paths_never_collide "a/1" "a/1" eq_refl eq_refl) as (_ & H4 & _).
Defined.

(** With the reserved text in an id the paths received do collide: the
    document of this id is received at the path of the sidecar of the
    attachment [icon]. *)
Example reserved_text_collides :
  received (docPath "attachments__PATH_SEPARATOR_POSIX__icon.meta")
  = received (metaPath "icon").
Proof. vm_compute. reflexivity. Qed.


(** ** Documents: what a write does to the others *)

Lemma reachable_stored p data st : reachable st -> reachable (stored p data st).
Proof. unfold reachable, stored. simpl. by intros ->. Qed.

Lemma layout_stored id data st : layout st -> layout (stored (docPath id) data st).
Proof.
  intros (H1 & H2 & H3). destruct (docPath_not_directory id) as [N1 N2].
  unfold layout, stored. simpl. repeat split.
  - by rewrite lookup_insert_ne.
  - by rewrite lookup_insert_ne.
  - intros p [[_ [=]]|[_ Hp]]%lookup_insert_Some. by apply H3.
Qed.

Lemma downloadDoc_stored st c id data t v :
  client st = Some c -> reachable st ->
  resources (remote st) !! docPath id = Some (File data t) ->
  JSON.parse (JS.text_of_bytes data) = Some v ->
  fst (downloadDoc id st) = Ok v.
Proof.
  intros Hc Hr Hf Hp.
  rewrite (downloadDoc_file st c id data t Hc (reachable_answered 2 _ Hr) Hf).
  by rewrite Hp.
Qed.

(** X3: two uploads in a row, then a download of the first id, for ids in
    which the reserved text of the package does not occur, so that the
    server receives each request at the path of its id.  When the ids are
    the same the second document is returned: an upload replaces what was
    there, without asking.  When they differ the first document is
    returned: an upload touches no other document. *)
Theorem second_upload_replaces_or_spares st c m1 m2 id1 id2 :
  client st = Some c -> reachable st -> layout st ->
  plain id1 -> plain id2 ->
  assoc "_id" m1 = Some (JStr id1) -> assoc "_id" m2 = Some (JStr id2) ->
  JSON.wf (JObj m1) = true -> JSON.wf (JObj m2) = true ->
  received (docPath id1) = Some (docPath id1)
  /\ received (docPath id2) = Some (docPath id2)
  /\ fst ((uploadDoc (JObj m1);; uploadDoc (JObj m2);; downloadDoc id1) st)
     = Ok (if decide (id1 = id2) then JObj m2 else JObj m1).
Proof.
  intros Hc Hr Hl P1 P2 H1 H2 W1 W2.
  split; [by apply received_docPath|]. split; [by apply received_docPath|].
  rewrite (bind_ok _ _ _ _ _
             (uploadDoc_stores st c m1 id1 Hc (reachable_answered 1 _ Hr) Hl H1)).
  set (st1 := stored (docPath id1) (JSON.stringify (JObj m1)) st).
  assert (Hr1 : reachable st1) by (by apply reachable_stored).
  assert (Hl1 : layout st1) by (by apply layout_stored).
  rewrite (bind_ok _ _ _ _ _
             (uploadDoc_stores st1 c m2 id2 Hc (reachable_answered 1 _ Hr1) Hl1 H2)).
  set (st2 := stored (docPath id2) (JSON.stringify (JObj m2)) st1).
  assert (Hr2 : reachable st2) by (by apply reachable_stored).
  destruct (decide (id1 = id2)) as [->|Hne].
  - eapply (downloadDoc_stored st2 c); [done|done| |by apply JSONFacts.parse_text_stringify].
    unfold st2, stored. simpl. apply lookup_insert_eq.
  - eapply (downloadDoc_stored st2 c); [done|done| |by apply JSONFacts.parse_text_stringify].
    unfold st2, st1, stored. simpl.
    rewrite lookup_insert_ne by (intros E%docPath_inj; congruence).
    apply lookup_insert_eq.
Qed.

Lemma second_upload_replaces_or_spares_witness :
  fst ((uploadDoc doc_a;; uploadDoc doc_b;; downloadDoc "a/1") (after_init [])) = Ok doc_a
  /\ fst ((uploadDoc measured_doc;; uploadDoc measured_doc;; downloadDoc "measure")
            (after_init [])) = Ok measured_doc.
Proof.
  split.
  - apply (second_upload_replaces_or_spares (after_init []) (handle sample_config)
             _ _ "a/1" "b:2"); try reflexivity.
    exact layout_after_init.
  - apply (second_upload_replaces_or_spares (after_init []) (handle sample_config)
             _ _ "measure" "measure"); try reflexivity.
    exact layout_after_init.
Defined.

(** X4: [uploadDoc] takes the id as [encodeURIComponent] coerces it.  A
    document without [_id] is written to the path of the id [undefined], so
    any two such documents share one remote file; and [null] makes the call
    throw a [TypeError] before anything is sent. *)
Theorem upload_without_id st c :
  client st = Some c -> answered 1 st -> layout st ->
  (forall members, assoc "_id" members = None ->
     uploadDoc (JObj members) st
     = (Ok tt, stored (docPath "undefined") (JSON.stringify (JObj members)) st))
  /\ uploadDoc JNull st = (Err TypeError, st).
Proof.
  intros Hc Ha Hl. split.
  - intros members Hid. unfold uploadDoc.
    rewrite (bind_ok _ _ _ _ _ (this_client_some _ _ Hc)).
    cbn [get_prop]. rewrite Hid. cbn [ToString]. unfold try_catch.
    erewrite bind_ok; [done|].
    apply await_putFileContents; [done|by apply layout_docPath_file|].
    rewrite dir_of_docPath. by apply layout_is_dir.
  - unfold uploadDoc. by rewrite (bind_ok _ _ _ _ _ (this_client_some _ _ Hc)).
Qed.

Lemma upload_without_id_witness :
  fst ((uploadDoc (JObj [("n", JNum 1)]);; uploadDoc (JObj [("n", JNum 2)]);;
        downloadDoc "undefined") (after_init []))
  = Ok (JObj [("n", JNum 2)]).
Proof.
  destruct (upload_without_id (after_init []) (handle sample_config) eq_refl eq_refl
              layout_after_init) as [H _].
  rewrite (bind_ok _ _ _ _ _ (H [("n", JNum 1)] eq_refl)).
  vm_compute. reflexivity.
Defined.

(** X5: what the transport throws while the document is written,
    [uploadDoc] throws again unchanged (it is not wrapped as in
    [testConnection]), and nothing is stored. *)
Theorem upload_failure_is_rethrown st c members id e :
  client st = Some c -> next_fault (remote st) = Some e ->
  assoc "_id" members = Some (JStr id) ->
  uploadDoc (JObj members) st
  = (Err e, on_remote (sent (ReqPut (docPath id) (JSON.stringify (JObj members)))) st).
Proof.
  intros Hc He Hid. unfold uploadDoc.
  rewrite (bind_ok _ _ _ _ _ (this_client_some _ _ Hc)).
  cbn [get_prop]. rewrite Hid. cbn [ToString to_string]. unfold try_catch, putFileContents.
  by rewrite (bind_err _ _ _ _ _ (await_failed _ _ _ e He)).
Qed.

Lemma upload_failure_is_rethrown_witness :
  fst (uploadDoc doc_a full_disk) = Err (HttpError 507)
  /\ resources (remote (snd (uploadDoc doc_a full_disk))) = resources (remote full_disk).
Proof.
  unfold doc_a.
  rewrite (upload_failure_is_rethrown full_disk (handle sample_config) _ "a/1" (HttpError 507));
    [|reflexivity..].
  split; reflexivity.
Defined.


(** ** Deleting a document *)

Lemma starts_with_true p s : JS.starts_with p s = true -> exists r, s = p +:+ r.
Proof.
  revert s. induction p as [|c p IH]; intros s H; [by exists s|].
  destruct s as [|d s]; [done|]. simpl in H.
  apply andb_true_iff in H as [Hc%Ascii.eqb_eq Hp]. subst d.
  destruct (IH s Hp) as [r ->]. by exists r.
Qed.



Lemma lookup_deleted p q st :
  q <> p -> under p q = false ->
  resources (remote (deleted p st)) !! q = resources (remote st) !! q.
Proof.
  intros Hne Hu. unfold deleted. simpl.
  destruct (resources (remote st) !! q) as [r|] eqn:E.
  - apply map_lookup_filter_Some. split; [by rewrite lookup_delete_ne|].
    simpl. by rewrite Hu.
  - apply map_lookup_filter_None. left. by rewrite lookup_delete_ne.
Qed.




(** ** Reading a document that is not JSON *)

(** X7: when [JSON.parse] refuses the text of the file stored for the
    id, the body decoded as UTF-8 without its byte order mark,
    [downloadDoc] throws the [SyntaxError] of [JSON.parse]; it neither
    returns [null] nor touches the file. *)
Theorem downloadDoc_throws_on_malformed st c id text t :
  client st = Some c -> answered 2 st ->
  resources (remote st) !! docPath id = Some (File text t) ->
  JSON.parse (JS.text_of_bytes text) = None ->
  fst (downloadDoc id st) = Err SyntaxError
  /\ resources (remote (snd (downloadDoc id st))) = resources (remote st).
Proof.
  intros Hc Ha Hf Hp. rewrite (downloadDoc_file st c id text t Hc Ha Hf), Hp. by split.
Qed.

Lemma downloadDoc_throws_on_malformed_witness :
  fst (downloadDoc "broken" (stored (docPath "broken") "{ not json" (after_init [])))
  = Err SyntaxError.
Proof.
  apply (downloadDoc_throws_on_malformed _ (handle sample_config) "broken" "{ not json"
           1700000000000); reflexivity.
Defined.

(** ** Methods that only read *)

Lemma read_only_ret {A} (a : A) : read_only (ret a).
Proof. by intros st. Qed.

Lemma read_only_throw {A} e : read_only (@throw A e).
Proof. by intros st. Qed.

Lemma read_only_bind {A B} (m : M A) (k : A -> M B) :
  read_only m -> (forall a, read_only (k a)) -> read_only (m ≫= k).
Proof.
  intros Hm Hk st. unfold mbind, M_bind, bind. specialize (Hm st).
  destruct (m st) as [[a|e] st1]; simpl in *; [|done].
  destruct (Hk a st1) as [H1 H2]. destruct Hm as [H3 H4]. split; congruence.
Qed.

Lemma read_only_try_catch {A} (m : M A) (h : error -> M A) :
  read_only m -> (forall e, read_only (h e)) -> read_only (try_catch m h).
Proof.
  intros Hm Hh st. unfold try_catch. specialize (Hm st).
  destruct (m st) as [[a|e] st1]; simpl in *; [done|].
  destruct (Hh e st1) as [H1 H2]. destruct Hm as [H3 H4]. split; congruence.
Qed.

Lemma read_only_this_client : read_only this_client.
Proof. intros st. unfold this_client. by destruct (client st) eqn:E. Qed.

Lemma read_only_of_result {A} (r : result A) : read_only (of_result r).
Proof. by destruct r. Qed.

(** A request whose service keeps the resources. *)
Lemma read_only_await {A} rq (serve : server -> result A * server) :
  (forall s, resources (snd (serve s)) = resources s) ->
  read_only (await (send rq serve)).
Proof.
  intros Hs st. unfold await, send.
  destruct (next_fault (remote st)); simpl; [done|].
  specialize (Hs {| resources := resources (remote st); clock := clock (remote st);
                    faults := tail (faults (remote st));
                    log := log (remote st) ++ [rq] |}).
  destruct (serve _) as [r s']. by simpl in *.
Qed.

Lemma read_only_exists c p : read_only (await (exists_ c p)).
Proof.
  intros st.
  pose proof (read_only_await (ReqExists p)
                (fun s => (Ok (present (resources s) p), s)) (fun s => eq_refl) st) as H.
  unfold await, exists_ in *.
  destruct (send _ _ (remote st)) as [[a|e] s']; [done|]. by destruct (not_found e).
Qed.

Lemma read_only_getFileContents c p fmt : read_only (await (getFileContents c p fmt)).
Proof.
  unfold getFileContents. apply read_only_await. intros s.
  by destruct (resources s !! p) as [[]|].
Qed.

Lemma read_only_getDirectoryContents c p d : read_only (await (getDirectoryContents c p d)).
Proof.
  unfold getDirectoryContents. apply read_only_await. intros s.
  by destruct (present (resources s) p).
Qed.

(** X8: the five methods that read ([testConnection], [downloadDoc],
    [listRemoteDocsWithMeta], [downloadAttachment],
    [listRemoteAttachments]) leave the resources of the remote and the
    handle as they were, in every state and whichever of their requests
    fail. *)
Theorem reading_methods_change_nothing :
  read_only testConnection
  /\ (forall id, read_only (downloadDoc id))
  /\ read_only listRemoteDocsWithMeta
  /\ (forall id, read_only (downloadAttachment id))
  /\ read_only listRemoteAttachments.
Proof.
  split; [|split; [|split; [|split]]].
  - apply read_only_bind; [apply read_only_this_client|]. intros c.
    apply read_only_try_catch; [|intros e; apply read_only_throw].
    apply read_only_bind; [apply read_only_getDirectoryContents|].
    intros _. apply read_only_ret.
  - intros id. apply read_only_bind; [apply read_only_this_client|]. intros c.
    apply read_only_bind; [apply read_only_exists|]. intros ex.
    destruct (negb ex); [apply read_only_ret|].
    apply read_only_bind; [apply read_only_getFileContents|]. intros content.
    destruct (JSON.parse content); [apply read_only_ret|apply read_only_throw].
  - apply read_only_bind; [apply read_only_this_client|]. intros c.
    apply read_only_bind; [apply read_only_getDirectoryContents|]. intros r.
    destruct (contents_of r); [apply read_only_of_result|apply read_only_ret].
  - intros id. apply read_only_bind; [apply read_only_this_client|]. intros c.
    apply read_only_bind; [apply read_only_exists|]. intros ex.
    destruct (negb ex); [apply read_only_ret|].
    apply read_only_bind; [apply read_only_getFileContents|]. intros payload.
    apply read_only_bind; [|intros m; apply read_only_ret].
    apply read_only_try_catch; [|intros e; apply read_only_ret].
    apply read_only_bind; [apply read_only_exists|]. intros mex.
    destruct mex; [|apply read_only_ret].
    apply read_only_bind; [apply read_only_getFileContents|]. intros content.
    destruct (JSON.parse content); [apply read_only_ret|apply read_only_throw].
  - apply read_only_bind; [apply read_only_this_client|]. intros c.
    apply read_only_bind; [apply read_only_getDirectoryContents|]. intros r.
    destruct (contents_of r); [apply read_only_of_result|apply read_only_ret].
Qed.

(** ** Listing the documents *)

(** ** Listing *)



(** A pattern that starts with its only dot: no occurrence straddles the
    end of [x] in [x +:+ pattern], so the first one is where [x] ends
    when [x] holds none. *)
Lemma replace_unfold p r s :
  JS.replace p r s
  = if JS.starts_with p s then r +:+ JS.drop (String.length p) s
    else match s with
         | EmptyString => EmptyString
         | String c t => String c (JS.replace p r t)
         end.
Proof. by destruct s. Qed.

Lemma replace_first q x y :
  JS.mem_char "." q = false -> includes (String "." q) x = false ->
  JS.replace (String "." q) "" (x +:+ String "." (q +:+ y)) = x +:+ y.
Proof.
  intros Hq. induction x as [|c x IH]; intros Hx.
  - rewrite !app_empty_l, replace_unfold.
    change (String "." (q +:+ y)) with (String "." q +:+ y).
    rewrite starts_with_app, app_empty_l. apply drop_app_s.
  - cbn [includes] in Hx. apply orb_false_iff in Hx as [Hs Hx].
    rewrite !app_String, replace_unfold.
    destruct (JS.starts_with (String "." q) (String c (x +:+ String "." (q +:+ y)))) eqn:E.
    + exfalso. cbn [JS.starts_with] in E, Hs. apply andb_true_iff in E as [Ec E].
      rewrite Ec in Hs. cbn [andb] in Hs.
      apply starts_with_before_dot in E; [congruence|done].
    + by rewrite IH.
Qed.









Lemma endsWith_app a x : JS.endsWith (a +:+ x) x = true.
Proof.
  unfold JS.endsWith. rewrite length_app_s.
  replace (String.length a + String.length x - String.length x) with (String.length a) by lia.
  rewrite drop_app_s, String.eqb_refl.
  apply andb_true_iff. split; [apply Nat.leb_le; lia|done].
Qed.


Lemma elem_of_children fs d s :
  s ∈ children fs d <-> exists p r, fs !! p = Some r /\ dir_of p = d /\ s = stat_of p r.
Proof.
  unfold children. rewrite list_elem_of_fmap. split.
  - intros ([p r] & -> & [Hd Hin]%list_elem_of_filter). simpl in *.
    apply elem_of_map_to_list in Hin. exists p, r.
    by apply Is_true_true, String.eqb_eq in Hd.
  - intros (p & r & Hp & Hd & ->). exists (p, r). split; [done|].
    apply list_elem_of_filter. split; [|by apply elem_of_map_to_list].
    simpl. apply Is_true_true. by apply String.eqb_eq.
Qed.

Lemma map_throwing_Ok {A B} (f : A -> result B) l ys :
  map_throwing f l = Ok ys ->
  length ys = length l
  /\ (forall x, x ∈ l -> exists y, f x = Ok y /\ y ∈ ys)
  /\ (forall y, y ∈ ys -> exists x, x ∈ l /\ f x = Ok y).
Proof.
  revert ys. induction l as [|a l IH]; intros ys H; simpl in H.
  - injection H as <-. repeat split; intros ? []%elem_of_nil.
  - destruct (f a) as [b|e] eqn:Ea; [|done].
    destruct (map_throwing f l) as [zs|e]; [|done]. injection H as <-.
    destruct (IH zs eq_refl) as (Hlen & H1 & H2). repeat split.
    + simpl. by rewrite Hlen.
    + intros x [->|Hx]%elem_of_cons.
      * exists b. split; [done|left].
      * destruct (H1 x Hx) as (y & Hy & Hin). exists y. split; [done|by right].
    + intros y [->|Hy]%elem_of_cons.
      * exists a. split; [left|done].
      * destruct (H2 y Hy) as (x & Hx & Hf). exists x. split; [by right|done].
Qed.

Lemma map_throwing_Err {A B} (f : A -> result B) l e :
  map_throwing f l = Err e -> exists x, x ∈ l /\ f x = Err e.
Proof.
  induction l as [|a l IH]; intros H; simpl in H; [done|].
  destruct (f a) as [b|e'] eqn:Ea.
  - destruct (map_throwing f l) as [zs|e'']; [done|]. injection H as ->.
    destruct (IH eq_refl) as (x & Hx & Hf). exists x. split; [by right|done].
  - injection H as ->. exists a. split; [left|done].
Qed.

Lemma await_getDirectoryContents st c p d :
  answered 1 st -> present (resources (remote st)) p = true ->
  await (getDirectoryContents c p d) st
  = (Ok ((if d then Detailed else Plain) (children (resources (remote st)) p)),
     on_remote (sent (ReqList p)) st).
Proof.
  intros H%answered_head Hp. unfold await, getDirectoryContents.
  rewrite send_answered by done. simpl. by rewrite Hp.
Qed.

Lemma of_result_run {A} (r : result A) st : of_result r st = (r, st).
Proof. by destruct r. Qed.

Lemma listRemoteDocsWithMeta_runs st c :
  client st = Some c -> answered 1 st ->
  present (resources (remote st)) "/ztools-sync" = true ->
  listRemoteDocsWithMeta st
  = (map_throwing
       (fun item =>
          match decode_or_throw (JS.replace ".json" "" (basename item)) with
          | Ok docId => Ok {| docId := docId; lastModified := lastmod item |}
          | Err e => Err e
          end)
       (List.filter (fun item => is_file item && JS.endsWith (filename item) ".json")
          (children (resources (remote st)) "/ztools-sync")),
     on_remote (sent (ReqList "/ztools-sync")) st).
Proof.
  intros Hc Ha Hp. unfold listRemoteDocsWithMeta.
  rewrite (bind_ok _ _ _ _ _ (this_client_some _ _ Hc)).
  rewrite (bind_ok _ _ _ _ _ (await_getDirectoryContents st c _ true Ha Hp)).
  cbn [contents_of]. apply of_result_run.
Qed.

Lemma listRemoteAttachments_runs st c :
  client st = Some c -> answered 1 st ->
  present (resources (remote st)) "/ztools-sync/attachments" = true ->
  listRemoteAttachments st
  = (map_throwing
       (fun item => decode_or_throw (JS.replace ".bin" "" (basename item)))
       (List.filter (fun item => is_file item && JS.endsWith (filename item) ".bin")
          (children (resources (remote st)) "/ztools-sync/attachments")),
     on_remote (sent (ReqList "/ztools-sync/attachments")) st).
Proof.
  intros Hc Ha Hp. unfold listRemoteAttachments.
  rewrite (bind_ok _ _ _ _ _ (this_client_some _ _ Hc)).
  rewrite (bind_ok _ _ _ _ _ (await_getDirectoryContents st c _ true Ha Hp)).
  cbn [contents_of]. apply of_result_run.
Qed.


Lemma endsWith_docPath id : JS.endsWith (docPath id) ".json" = true.
Proof. unfold docPath. rewrite <- app_assoc_s. apply endsWith_app. Qed.

Lemma endsWith_dataPath id : JS.endsWith (dataPath id) ".bin" = true.
Proof. unfold dataPath. rewrite <- app_assoc_s. apply endsWith_app. Qed.

Lemma endsWith_metaPath id : JS.endsWith (metaPath id) ".bin" = false.
Proof.
  unfold metaPath, JS.endsWith. rewrite <- app_assoc_s, length_app_s.
  set (x := "/ztools-sync/attachments/" +:+ JS.encodeURIComponent id).
  replace (String.length x + String.length ".meta.json" - String.length ".bin")
    with (String.length x + 6) by (simpl; lia).
  rewrite drop_add_s. simpl. by rewrite ?andb_false_r.
Qed.

Lemma in_listed (P : FileStat -> bool) fs d p r :
  fs !! p = Some r -> dir_of p = d -> P (stat_of p r) = true ->
  stat_of p r ∈ List.filter P (children fs d).
Proof.
  intros Hp Hd HP. apply list_elem_of_In, filter_In. split; [|done].
  apply list_elem_of_In, elem_of_children. by exists p, r.
Qed.

Lemma listed_in (P : FileStat -> bool) fs d s :
  s ∈ List.filter P (children fs d) ->
  exists p r, fs !! p = Some r /\ dir_of p = d /\ s = stat_of p r /\ P s = true.
Proof.
  intros [Hin HP]%list_elem_of_In%filter_In.
  apply list_elem_of_In, elem_of_children in Hin as (p & r & Hp & Hd & ->).
  by exists p, r.
Qed.

Lemma replace_extension q e :
  JS.mem_char "." q = false -> includes (String "." q) e = false ->
  JS.replace (String "." q) "" (e +:+ String "." q) = e.
Proof.
  intros Hq He. rewrite <- (app_empty_r q) at 2.
  rewrite (replace_first q e "" Hq He). apply app_empty_r.
Qed.

(** X9: a document stored remotely is reported by the listing under its
    own id, with the time of its last write, whenever the listing returns
    and the id holds no [.json]: the file name is the encoded id and the
    extension, the listing strips the extension and decodes the rest. *)
Theorem listing_reports_stored_document st c id content t l :
  client st = Some c -> answered 1 st ->
  present (resources (remote st)) "/ztools-sync" = true ->
  resources (remote st) !! docPath id = Some (File content t) ->
  JS.utf8_valid id = true -> includes ".json" id = false ->
  fst (listRemoteDocsWithMeta st) = Ok l ->
  {| docId := id; lastModified := t |} ∈ l.
Proof.
  intros Hc Ha Hp Hf Hu Hi. rewrite (listRemoteDocsWithMeta_runs st c Hc Ha Hp). cbn [fst].
  intros (_ & H & _)%map_throwing_Ok.
  destruct (H (stat_of (docPath id) (File content t))) as (y & Hy & Hin).
  { apply in_listed; [done|apply dir_of_docPath|].
    cbn [stat_of filename is_file type]. by rewrite endsWith_docPath. }
  cbn [stat_of basename lastmod] in Hy.
  rewrite base_of_docPath, replace_extension in Hy; [|done|by rewrite includes_encode].
  unfold decode_or_throw in Hy. rewrite decode_encode in Hy by done.
  by injection Hy as <-.
Qed.

Lemma listing_reports_stored_document_witness :
  {| docId := "a/1"; lastModified := 1700000000000 |}
  ∈ [{| docId := "a/1"; lastModified := 1700000000000 |}].
Proof.
  apply (listing_reports_stored_document (snd (uploadDoc doc_a (after_init [])))
           (handle sample_config) "a/1" (JSON.stringify doc_a) 1700000000000);
    vm_compute; reflexivity.
Defined.

(** X10: every entry the listing returns stands for a file that sits
    directly in the sync directory, whose name ends in [.json], whose time
    of last write is the entry's and whose name, once the first [.json] is
    taken out and the rest decoded, is the entry's id.  So the attachments
    directory, the payloads and the sidecars are never reported as
    documents. *)
Theorem listing_entries_are_documents st c l m :
  client st = Some c -> answered 1 st ->
  present (resources (remote st)) "/ztools-sync" = true ->
  fst (listRemoteDocsWithMeta st) = Ok l -> m ∈ l ->
  exists p content,
    resources (remote st) !! p = Some (File content (lastModified m))
    /\ dir_of p = "/ztools-sync" /\ JS.endsWith p ".json" = true
    /\ JS.decodeURIComponent (JS.replace ".json" "" (base_of p)) = Some (docId m)
    /\ forall id, p <> dataPath id /\ p <> metaPath id.
Proof.
  intros Hc Ha Hp. rewrite (listRemoteDocsWithMeta_runs st c Hc Ha Hp). cbn [fst].
  intros (_ & _ & H)%map_throwing_Ok Hm.
  destruct (H m Hm) as (s & (p & r & Hf & Hd & -> & HP)%listed_in & Hs).
  cbn [stat_of filename basename lastmod is_file type] in HP, Hs.
  destruct r as [content t|]; [|done]. cbn [andb] in HP.
  unfold decode_or_throw in Hs.
  destruct (JS.decodeURIComponent _) as [d|] eqn:Ed; [|done]. injection Hs as <-.
  exists p, content. cbn [lastModified docId]. repeat split; try done.
  - intros ->. by rewrite dir_of_dataPath in Hd.
  - intros ->. by rewrite dir_of_metaPath in Hd.
Qed.

Lemma listing_entries_are_documents_witness :
  exists p content,
    resources (remote (snd (uploadDoc doc_a (after_init [])))) !! p
    = Some (File content 1700000000000)
    /\ dir_of p = "/ztools-sync" /\ JS.endsWith p ".json" = true
    /\ JS.decodeURIComponent (JS.replace ".json" "" (base_of p)) = Some "a/1"
    /\ forall id, p <> dataPath id /\ p <> metaPath id.
Proof.
  apply (listing_entries_are_documents (snd (uploadDoc doc_a (after_init [])))
           (handle sample_config)
           [{| docId := "a/1"; lastModified := 1700000000000 |}]
           {| docId := "a/1"; lastModified := 1700000000000 |});
    [reflexivity|reflexivity|reflexivity|vm_compute; reflexivity|left].
Defined.

(** X11: one file of the sync directory whose name ends in [.json] but
    does not decode (a stray [%], say) makes the whole listing throw the
    [URIError] of [decodeURIComponent]: no entry is returned, not even
    for the documents whose names are fine. *)
Theorem listing_fails_on_foreign_name st c p content t :
  client st = Some c -> answered 1 st ->
  present (resources (remote st)) "/ztools-sync" = true ->
  resources (remote st) !! p = Some (File content t) ->
  dir_of p = "/ztools-sync" -> JS.endsWith p ".json" = true ->
  JS.decodeURIComponent (JS.replace ".json" "" (base_of p)) = None ->
  fst (listRemoteDocsWithMeta st) = Err URIError.
Proof.
  intros Hc Ha Hp Hf Hd He Hn. rewrite (listRemoteDocsWithMeta_runs st c Hc Ha Hp). cbn [fst].
  destruct (map_throwing _ _) as [l|e] eqn:E.
  - apply map_throwing_Ok in E as (_ & H & _).
    destruct (H (stat_of p (File content t))) as (y & Hy & _).
    { apply in_listed; [done|done|]. cbn [stat_of filename is_file type]. by rewrite He. }
    cbn [stat_of basename] in Hy. unfold decode_or_throw in Hy. by rewrite Hn in Hy.
  - apply map_throwing_Err in E as (x & _ & Hx). unfold decode_or_throw in Hx.
    destruct (JS.decodeURIComponent (JS.replace ".json" "" (basename x)));
      cbv beta iota in Hx; [done|]. by injection Hx as <-.
Qed.

Lemma listing_fails_on_foreign_name_witness :
  fst (listRemoteDocsWithMeta (snd (uploadDoc doc_a foreign_file))) = Err URIError
  /\ fst (downloadDoc "a/1" (snd (uploadDoc doc_a foreign_file))) = Ok doc_a.
Proof.
  split; [|vm_compute; reflexivity].
  apply (listing_fails_on_foreign_name _ (handle sample_config) "/ztools-sync/100%.json"
           "{}" 1700000000000); vm_compute; reflexivity.
Defined.

(** ** Attachments *)

Lemma attachments_is_dir st :
  attachments_layout st -> is_dir (resources (remote st)) "/ztools-sync/attachments" = true.
Proof. intros [H _]. unfold is_dir. by rewrite H. Qed.

Lemma attachments_file st p :
  attachments_layout st -> dir_of p = "/ztools-sync/attachments" ->
  String.eqb p "/" = false -> is_dir (resources (remote st)) p = false.
Proof.
  intros [_ H] Hd Hr. unfold is_dir. rewrite Hr.
  destruct (resources (remote st) !! p) as [[]|] eqn:E; try done.
  by destruct (H p E).
Qed.

Lemma attachments_layout_stored p data st :
  attachments_layout st -> p <> "/ztools-sync/attachments" ->
  attachments_layout (stored p data st).
Proof.
  intros [H1 H2] Hp. unfold attachments_layout, stored. simpl. split.
  - by rewrite lookup_insert_ne.
  - intros q [[_ [=]]|[_ Hq]]%lookup_insert_Some. by apply H2.
Qed.

Lemma dataPath_not_directory id : dataPath id <> "/ztools-sync/attachments".
Proof.
  intros E. apply (f_equal dir_of) in E. by rewrite dir_of_dataPath in E.
Qed.

Lemma metaPath_not_directory id : metaPath id <> "/ztools-sync/attachments".
Proof.
  intros E. apply (f_equal dir_of) in E. by rewrite dir_of_metaPath in E.
Qed.

Lemma await_put_attachment st c p data :
  answered 1 st -> attachments_layout st -> dir_of p = "/ztools-sync/attachments" ->
  String.eqb p "/" = false ->
  await (putFileContents c p data) st = (Ok true, stored p data st).
Proof.
  intros Ha Hl Hd Hr. apply await_putFileContents; [done|by apply attachments_file|].
  rewrite Hd. by apply attachments_is_dir.
Qed.

Lemma answered_stored n p data st : answered (S n) st -> answered n (stored p data st).
Proof.
  unfold answered, stored. simpl. destruct (faults (remote st)) as [|[] fl]; simpl; try done.
  by destruct n.
Qed.

Lemma uploadAttachment_stores st c id payload meta :
  client st = Some c -> answered 2 st -> attachments_layout st ->
  uploadAttachment id payload meta st
  = (Ok tt,
     if truthy meta
     then stored (metaPath id) (JSON.stringify (default JNull meta))
            (stored (dataPath id) payload st)
     else stored (dataPath id) payload st).
Proof.
  intros Hc Ha Hl. unfold uploadAttachment.
  rewrite (bind_ok _ _ _ _ _ (this_client_some _ _ Hc)).
  erewrite bind_ok;
    [|apply await_put_attachment;
      [by apply answered_S|done|apply dir_of_dataPath|apply dataPath_not_root]].
  destruct (truthy meta); [|done].
  erewrite bind_ok; [done|].
  apply await_put_attachment;
    [by apply answered_stored
    |apply attachments_layout_stored; [done|apply dataPath_not_directory]
    |apply dir_of_metaPath|apply metaPath_not_root].
Qed.

Lemma downloadAttachment_with st c id payload t m st3 :
  client st = Some c -> answered 2 st ->
  resources (remote st) !! dataPath id = Some (File payload t) ->
  fetch_metadata c id (on_remote (sent (ReqGet (dataPath id)))
                         (on_remote (sent (ReqExists (dataPath id))) st)) = (Ok m, st3) ->
  downloadAttachment id st = (Ok (Some {| data := payload; metadata := m |}), st3).
Proof.
  intros Hc Ha Hp Hrun. unfold downloadAttachment.
  rewrite (bind_ok _ _ _ _ _ (this_client_some _ _ Hc)).
  rewrite (bind_ok _ _ _ _ _ (await_exists _ _ _ (answered_S 1 _ Ha))).
  rewrite (present_some _ _ _ Hp). cbn [negb].
  erewrite bind_ok; [|eapply await_getFileContents; [by apply (answered_sent 1)|exact Hp]].
  fold (fetch_metadata c id).
  by rewrite (bind_ok _ _ _ _ _ Hrun).
Qed.

(** On a reachable remote, the download returns the payload with what the
    sidecar holds. *)
Lemma downloadAttachment_reads st c id payload t :
  client st = Some c -> reachable st -> attachments_layout st ->
  resources (remote st) !! dataPath id = Some (File payload t) ->
  fst (downloadAttachment id st)
  = Ok (Some {| data := payload; metadata := sidecar id st |}).
Proof.
  intros Hc Hr [_ Hnd] Hp.
  set (st2 := on_remote (sent (ReqGet (dataPath id)))
                (on_remote (sent (ReqExists (dataPath id))) st)).
  destruct (fetch_metadata_total c id st2) as (m & st3 & Hrun & Hnone & Hbad & Hgood).
  rewrite (downloadAttachment_with st c id payload t m st3 Hc (reachable_answered 2 _ Hr) Hp Hrun).
  cbn [fst]. do 3 f_equal. unfold sidecar.
  change (resources (remote st2)) with (resources (remote st)) in *.
  destruct (resources (remote st) !! metaPath id) as [[mc mt|]|] eqn:Hm.
  - destruct (JSON.parse (JS.text_of_bytes mc)) as [v|] eqn:Hv.
    + apply (Hgood mc mt v); [|done|done]. by apply reachable_sent, reachable_sent.
    + by apply (Hbad mc mt).
  - destruct (Hnd _ Hm). apply dir_of_metaPath.
  - by apply Hnone.
Qed.

(** X12: an attachment uploaded with metadata comes back whole, for an
    id in which the reserved text of the package does not occur, so that
    the server receives the requests at the two paths of the id:
    [uploadAttachment(id, data, metadata)] followed by
    [downloadAttachment(id)] returns the data, byte for byte, and the
    metadata, for every truthy metadata that JSON writes (finite numbers,
    fractions among them, strings, arrays, objects). *)
Theorem attachment_round_trip st c id payload meta :
  client st = Some c -> reachable st -> attachments_layout st -> plain id ->
  truthy (Some meta) = true -> JSON.wf meta = true ->
  received (dataPath id) = Some (dataPath id)
  /\ received (metaPath id) = Some (metaPath id)
  /\ fst ((uploadAttachment id payload (Some meta);; downloadAttachment id) st)
     = Ok (Some {| data := payload; metadata := Some meta |}).
Proof.
  intros Hc Hr Hl Hid Ht Hw.
  split; [by apply received_dataPath|]. split; [by apply received_metaPath|].
  rewrite (bind_ok _ _ _ _ _
             (uploadAttachment_stores st c id payload (Some meta) Hc
                (reachable_answered 2 _ Hr) Hl)).
  rewrite Ht. change (default JNull (Some meta)) with meta. cbv beta.
  set (st1 := stored (dataPath id) payload st).
  set (st2 := stored (metaPath id) (JSON.stringify meta) st1).
  assert (Hl2 : attachments_layout st2).
  { apply attachments_layout_stored; [|apply metaPath_not_directory].
    apply attachments_layout_stored; [done|apply dataPath_not_directory]. }
  assert (Hr2 : reachable st2) by (by apply reachable_stored, reachable_stored).
  rewrite (downloadAttachment_reads st2 c id payload (clock (remote st)) Hc Hr2 Hl2).
  - unfold sidecar, st2, stored. simpl. rewrite lookup_insert_eq.
    by rewrite JSONFacts.parse_text_stringify.
  - unfold st2, st1, stored. simpl.
    rewrite lookup_insert_ne by (intros E; symmetry in E; by apply dataPath_not_metaPath in E).
    apply lookup_insert_eq.
Qed.

Lemma attachments_layout_after_init : attachments_layout (after_init []).
Proof.
  split; [reflexivity|]. intros p. rewrite after_init_resources.
  intros [[<- _]|[_ [[<- _]|[_ H]]%lookup_insert_Some]]%lookup_insert_Some; [done|done|].
  by rewrite lookup_empty in H.
Qed.

Lemma attachments_layout_with_icon : attachments_layout with_icon.
Proof.
  unfold with_icon.
  rewrite (uploadAttachment_stores (after_init []) (handle sample_config) "icon" "PNG-bytes"
             (Some icon_meta) eq_refl eq_refl attachments_layout_after_init).
  cbn [snd truthy icon_meta].
  apply attachments_layout_stored; [|apply metaPath_not_directory].
  apply attachments_layout_stored; [|apply dataPath_not_directory].
  apply attachments_layout_after_init.
Qed.

Lemma attachment_round_trip_witness :
  fst ((uploadAttachment "icon" "PNG-bytes" (Some icon_meta);; downloadAttachment "icon")
         (after_init []))
  = Ok (Some {| data := "PNG-bytes"; metadata := Some icon_meta |})
  /\ fst ((uploadAttachment "clip" (String "255" (String "000" "a")) (Some measured_doc);;
           downloadAttachment "clip") (after_init []))
     = Ok (Some {| data := String "255" (String "000" "a"); metadata := Some measured_doc |}).
Proof.
  split.
  - apply (attachment_round_trip (after_init []) (handle sample_config));
      try reflexivity.
    exact attachments_layout_after_init.
  - apply (attachment_round_trip (after_init []) (handle sample_config));
      try reflexivity.
    exact attachments_layout_after_init.
Defined.

(** X13: metadata that is falsy ([undefined], [null], a zero, the empty
    string, [false]) is not written, for an id in which the reserved text
    of the package does not occur, so that the server receives the
    requests at the paths of the id: the upload sends the payload only and
    leaves the sidecar as it was.  A download then returns the new payload
    with what the old sidecar holds: the value [JSON.parse] makes of its
    text, a fraction as well as an integer, or [undefined] when there is
    no sidecar or [JSON.parse] refuses its text. *)
Theorem upload_without_metadata_keeps_sidecar st c id payload meta :
  client st = Some c -> reachable st -> attachments_layout st -> plain id ->
  truthy meta = false ->
  let st' := snd (uploadAttachment id payload meta st) in
  received (dataPath id) = Some (dataPath id)
  /\ received (metaPath id) = Some (metaPath id)
  /\ new_requests st st' = [ReqPut (dataPath id) payload]
  /\ resources (remote st') !! metaPath id = resources (remote st) !! metaPath id
  /\ fst (downloadAttachment id st')
     = Ok (Some {| data := payload; metadata := sidecar id st |}).
Proof.
  intros Hc Hr Hl Hid Ht. cbv zeta.
  split; [by apply received_dataPath|]. split; [by apply received_metaPath|].
  rewrite (uploadAttachment_stores st c id payload meta Hc (reachable_answered 2 _ Hr) Hl), Ht.
  cbn [snd]. set (st1 := stored (dataPath id) payload st).
  assert (Hm : resources (remote st1) !! metaPath id = resources (remote st) !! metaPath id).
  { unfold st1, stored. simpl.
    apply lookup_insert_ne. intros E. by apply dataPath_not_metaPath in E. }
  split; [|split].
  - unfold new_requests, st1, stored. simpl. by rewrite drop_app_length.
  - done.
  - rewrite (downloadAttachment_reads st1 c id payload (clock (remote st)) Hc).
    + unfold sidecar. by rewrite Hm.
    + by apply reachable_stored.
    + apply attachments_layout_stored; [done|apply dataPath_not_directory].
    + unfold st1, stored. simpl. apply lookup_insert_eq.
Qed.

Lemma attachments_layout_sized : attachments_layout sized_sidecar.
Proof.
  unfold sized_sidecar.
  rewrite (uploadAttachment_stores (after_init []) (handle sample_config) "icon" "PNG-bytes"
             None eq_refl eq_refl attachments_layout_after_init).
  cbn [snd truthy].
  apply attachments_layout_stored; [|apply metaPath_not_directory].
  apply attachments_layout_stored; [|apply dataPath_not_directory].
  apply attachments_layout_after_init.
Qed.

Lemma upload_without_metadata_keeps_sidecar_witness :
  fst (downloadAttachment "icon" (snd (uploadAttachment "icon" "JPEG-bytes" None with_icon)))
  = Ok (Some {| data := "JPEG-bytes"; metadata := Some icon_meta |})
  /\ fst (downloadAttachment "icon"
            (snd (uploadAttachment "icon" "JPEG-bytes" (Some (JDec true 0 0)) sized_sidecar)))
     = Ok (Some {| data := "JPEG-bytes";
                   metadata := Some (JObj [("size", JDec false 15 (-1))]) |}).
Proof.
  split.
  - destruct (upload_without_metadata_keeps_sidecar with_icon (handle sample_config) "icon"
                "JPEG-bytes" None eq_refl eq_refl attachments_layout_with_icon eq_refl eq_refl)
      as (_ & _ & _ & _ & H).
    rewrite H. vm_compute. reflexivity.
  - destruct (upload_without_metadata_keeps_sidecar sized_sidecar (handle sample_config) "icon"
                "JPEG-bytes" (Some (JDec true 0 0)) eq_refl eq_refl attachments_layout_sized
                eq_refl eq_refl)
      as (_ & _ & _ & _ & H).
    rewrite H. vm_compute. reflexivity.
Defined.

Lemma not_under_sibling d n m :
  JS.mem_char "/" m = false -> under (d +:+ "/" +:+ n) (d +:+ "/" +:+ m) = false.
Proof.
  intros Hm. destruct (under _ _) eqn:E; [exfalso|done].
  apply starts_with_true in E as [r E]. rewrite !app_assoc_s in E.
  do 2 apply app_inv_head_s in E.
  apply (f_equal (JS.mem_char "/")) in E. rewrite Hm, !mem_char_app in E.
  simpl in E. by rewrite orb_true_r in E.
Qed.

Lemma not_under_dataPath id :
  (forall id', under (dataPath id) (dataPath id') = false)
  /\ (forall id', under (dataPath id) (metaPath id') = false)
  /\ (forall id', under (dataPath id) (docPath id') = false).
Proof.
  repeat split; intros id'.
  - apply (not_under_sibling "/ztools-sync/attachments" (JS.encodeURIComponent id +:+ ".bin")
             (JS.encodeURIComponent id' +:+ ".bin")).
    by rewrite mem_char_app, encode_no_slash.
  - apply (not_under_sibling "/ztools-sync/attachments" (JS.encodeURIComponent id +:+ ".bin")
             (JS.encodeURIComponent id' +:+ ".meta.json")).
    by rewrite mem_char_app, encode_no_slash.
  - apply (not_under_sibling "/ztools-sync"
             ("attachments/" +:+ JS.encodeURIComponent id +:+ ".bin")
             (JS.encodeURIComponent id' +:+ ".json")).
    by rewrite mem_char_app, encode_no_slash.
Qed.

Lemma deleteAttachment_present st c id r :
  client st = Some c -> answered 2 st -> resources (remote st) !! dataPath id = Some r ->
  deleteAttachment id st
  = (Ok tt, deleted (dataPath id) (on_remote (sent (ReqExists (dataPath id))) st)).
Proof.
  intros Hc Ha Hp. unfold deleteAttachment.
  rewrite (bind_ok _ _ _ _ _ (this_client_some _ _ Hc)).
  rewrite (bind_ok _ _ _ _ _ (await_exists _ _ _ (answered_S 1 _ Ha))).
  rewrite (present_some _ _ _ Hp).
  eapply await_deleteFile_present; [by apply (answered_sent 1)|exact Hp].
Qed.

Lemma deleteAttachment_absent st c id :
  client st = Some c -> answered 1 st -> resources (remote st) !! dataPath id = None ->
  deleteAttachment id st = (Ok tt, on_remote (sent (ReqExists (dataPath id))) st).
Proof.
  intros Hc Ha Hp. unfold deleteAttachment.
  rewrite (bind_ok _ _ _ _ _ (this_client_some _ _ Hc)).
  rewrite (bind_ok _ _ _ _ _ (await_exists _ _ _ Ha)).
  by rewrite present_none by (apply dataPath_not_root || done).
Qed.

(** X14: [deleteAttachment] never deletes a sidecar: whether or not the
    payload was there, every sidecar, the one of the id included, every
    other payload and every document is as before, and a download of the
    id returns [null]. *)
Theorem deleteAttachment_leaves_sidecar st c id :
  client st = Some c -> reachable st ->
  let st' := snd (deleteAttachment id st) in
  (forall id', resources (remote st') !! metaPath id' = resources (remote st) !! metaPath id')
  /\ (forall id', id' <> id ->
        resources (remote st') !! dataPath id' = resources (remote st) !! dataPath id')
  /\ (forall id', resources (remote st') !! docPath id' = resources (remote st) !! docPath id')
  /\ fst (downloadAttachment id st') = Ok None.
Proof.
  intros Hc Hr. cbv zeta.
  destruct (not_under_dataPath id) as (U1 & U2 & U3).
  assert (Hnone : forall st1, client st1 = Some c -> reachable st1 ->
            resources (remote st1) !! dataPath id = None ->
            fst (downloadAttachment id st1) = Ok None).
  { intros st1 Hc1 Hr1 Hn. unfold downloadAttachment.
    rewrite (bind_ok _ _ _ _ _ (this_client_some _ _ Hc1)).
    rewrite (bind_ok _ _ _ _ _ (await_exists _ _ _ (reachable_answered 1 _ Hr1))).
    by rewrite present_none by (apply dataPath_not_root || done). }
  destruct (resources (remote st) !! dataPath id) as [r|] eqn:Hp.
  - rewrite (deleteAttachment_present st c id r Hc (reachable_answered 2 _ Hr) Hp). cbn [snd].
    set (st1 := on_remote (sent (ReqExists (dataPath id))) st).
    change (resources (remote st)) with (resources (remote st1)).
    repeat split.
    + intros id'. apply lookup_deleted; [|apply U2].
      intros E. symmetry in E. by apply dataPath_not_metaPath in E.
    + intros id' Hne. apply lookup_deleted; [|apply U1]. by intros E%dataPath_inj.
    + intros id'. apply lookup_deleted; [|apply U3].
      intros E. by destruct (docPath_not_attachment id' id) as [N _].
    + apply Hnone; [done| |].
      * unfold reachable, deleted. simpl. by rewrite Hr.
      * unfold deleted. simpl. apply map_lookup_filter_None. left. apply lookup_delete_eq.
  - rewrite (deleteAttachment_absent st c id Hc (reachable_answered 1 _ Hr) Hp). cbn [snd].
    repeat split; try done. apply Hnone; [done|by apply reachable_sent|done].
Qed.

Lemma deleteAttachment_leaves_sidecar_witness :
  resources (remote (snd (deleteAttachment "icon" with_icon))) !! metaPath "icon"
  = Some (File (JSON.stringify icon_meta) 1700000000001)
  /\ fst (downloadAttachment "icon" (snd (deleteAttachment "icon" with_icon))) = Ok None
  /\ fst ((deleteAttachment "icon";; uploadAttachment "icon" "JPEG-bytes" None;;
           downloadAttachment "icon") with_icon)
     = Ok (Some {| data := "JPEG-bytes"; metadata := Some icon_meta |}).
Proof.
  destruct (deleteAttachment_leaves_sidecar with_icon (handle sample_config) "icon"
              eq_refl eq_refl) as (H1 & _ & _ & H4).
  rewrite H1, H4. repeat split; vm_compute; reflexivity.
Defined.

Lemma faults_answered fl st : faults (remote st) = None :: fl -> answered 1 st.
Proof. unfold answered. by intros ->. Qed.



(** X16: only the sidecar is optional.  When the request that asks for
    the payload fails, [downloadAttachment] throws the error of the
    transport, unless the answer is 404, which [exists] takes for absent:
    then the call returns [null].  When the request that fetches the
    payload fails, whatever the failure, 404 included, the call throws
    it. *)
Theorem downloadAttachment_throws_for_payload st c id e :
  client st = Some c ->
  (next_fault (remote st) = Some e -> e <> HttpError 404 ->
     fst (downloadAttachment id st) = Err e)
  /\ (next_fault (remote st) = Some (HttpError 404) ->
       downloadAttachment id st = (Ok None, on_remote (sent (ReqExists (dataPath id))) st))
  /\ (forall payload t fl,
        faults (remote st) = None :: Some e :: fl ->
        resources (remote st) !! dataPath id = Some (File payload t) ->
        fst (downloadAttachment id st) = Err e).
Proof.
  intros Hc. split; [|split].
  - intros He Hne. unfold downloadAttachment.
    rewrite (bind_ok _ _ _ _ _ (this_client_some _ _ Hc)).
    by rewrite (bind_err _ _ _ _ _ (await_exists_thrown _ _ _ e He Hne)).
  - intros He. unfold downloadAttachment.
    rewrite (bind_ok _ _ _ _ _ (this_client_some _ _ Hc)).
    by rewrite (bind_ok _ _ _ _ _ (await_exists_404 _ _ _ He)).
  - intros payload t fl Hf Hp. unfold downloadAttachment.
    rewrite (bind_ok _ _ _ _ _ (this_client_some _ _ Hc)).
    rewrite (bind_ok _ _ _ _ _
               (await_exists _ _ _ (faults_answered (Some e :: fl) _ Hf))).
    rewrite (present_some _ _ _ Hp). cbn [negb]. unfold getFileContents.
    erewrite bind_err; [done|]. apply await_failed.
    unfold next_fault. simpl. by rewrite Hf.
Qed.

Lemma downloadAttachment_throws_for_payload_witness :
  fst (downloadAttachment "icon" flaky) = Err NetworkError
  /\ fst (downloadAttachment "icon" full_disk) = Err (HttpError 507).
Proof.
  split.
  - destruct (downloadAttachment_throws_for_payload flaky (handle sample_config) "icon"
                NetworkError eq_refl) as (_ & _ & H).
    apply (H "PNG-bytes" 1700000000000%Z []); vm_compute; reflexivity.
  - destruct (downloadAttachment_throws_for_payload full_disk (handle sample_config) "icon"
                (HttpError 507) eq_refl) as (H & _).
    apply H; [reflexivity|discriminate].
Defined.

(** An [exists] answered 404 is taken for absent: the attachment [icon],
    which is stored, is reported missing. *)
Example downloadAttachment_answered_404 :
  resources (remote not_found_once) !! dataPath "icon"
  = Some (File "PNG-bytes" 1700000000000)
  /\ fst (downloadAttachment "icon" not_found_once) = Ok None.
Proof. vm_compute. split; reflexivity. Qed.

(** X17: only the failure of the connection test is wrapped.  When that
    test is answered and the next request, the [exists] that opens
    [ensureRemoteDirectory], fails with anything but 404, [init] throws
    the error of the transport as it is, and the handle stays set.  The
    answer 404 is taken for an absent directory: [init] goes on to create
    it, and throws as it is what that request fails with. *)
Theorem init_directory_failure_is_not_wrapped config st e fl :
  (faults (remote st) = None :: Some e :: fl -> e <> HttpError 404 ->
   init config st
   = (Err e, on_remote (sent (ReqExists "/ztools-sync"))
               (on_remote (sent (ReqList "/")) (opened config st))))
  /\ (faults (remote st) = None :: Some (HttpError 404) :: Some e :: fl ->
      init config st
      = (Err e, on_remote (sent (ReqMkcol "/ztools-sync"))
                  (on_remote (sent (ReqExists "/ztools-sync"))
                     (on_remote (sent (ReqList "/")) (opened config st))))).
Proof.
  split.
  - intros Hf Hne. unfold init.
    erewrite bind_ok; [|reflexivity].
    erewrite bind_ok;
      [|apply (testConnection_answered _ (handle config)); [done|];
        by apply (faults_answered (Some e :: fl))].
    unfold ensureRemoteDirectory. cbn [client on_remote opened].
    erewrite bind_err; [done|]. apply await_exists_thrown; [|done].
    unfold next_fault. simpl. by rewrite Hf.
  - intros Hf. unfold init.
    erewrite bind_ok; [|reflexivity].
    erewrite bind_ok;
      [|apply (testConnection_answered _ (handle config)); [done|];
        by apply (faults_answered (Some (HttpError 404) :: Some e :: fl))].
    unfold ensureRemoteDirectory. cbn [client on_remote opened].
    erewrite bind_ok; [|apply await_exists_404; unfold next_fault; simpl; by rewrite Hf].
    cbn [negb]. unfold createDirectory.
    erewrite bind_err; [done|]. apply await_failed.
    unfold next_fault. simpl. by rewrite Hf.
Qed.

Lemma init_directory_failure_is_not_wrapped_witness :
  fst (init sample_config (fresh [None; Some (HttpError 403)])) = Err (HttpError 403)
  /\ client (snd (init sample_config (fresh [None; Some (HttpError 403)])))
     = Some (handle sample_config)
  /\ fst (init sample_config (fresh [None; Some (HttpError 404); Some (HttpError 507)]))
     = Err (HttpError 507).
Proof.
  destruct (init_directory_failure_is_not_wrapped sample_config
              (fresh [None; Some (HttpError 403)]) (HttpError 403) []) as [H _].
  rewrite (H eq_refl ltac:(discriminate)).
  destruct (init_directory_failure_is_not_wrapped sample_config
              (fresh [None; Some (HttpError 404); Some (HttpError 507)]) (HttpError 507) [])
    as [_ H'].
  rewrite (H' eq_refl). split; [|split]; reflexivity.
Defined.

(** With 404 for the [exists] and nothing lost after it, [init] creates
    the directory and returns. *)
Example init_after_404 :
  fst (init sample_config (fresh [None; Some (HttpError 404)])) = Ok tt
  /\ new_requests (fresh [None; Some (HttpError 404)])
       (snd (init sample_config (fresh [None; Some (HttpError 404)])))
     = [ReqList "/"; ReqExists "/ztools-sync"; ReqMkcol "/ztools-sync";
        ReqExists "/ztools-sync/attachments"; ReqMkcol "/ztools-sync/attachments"].
Proof. vm_compute. split; reflexivity. Qed.

(** X18: when the listing of the attachments returns, it holds the id of
    every payload stored whose id has no [.bin] in it; and each of its
    entries stands for a file directly in the attachments directory whose
    name ends in [.bin]: never a sidecar, never a document. *)
Theorem attachments_listing_reports_payloads st c l :
  client st = Some c -> answered 1 st ->
  present (resources (remote st)) "/ztools-sync/attachments" = true ->
  fst (listRemoteAttachments st) = Ok l ->
  (forall id payload t,
     resources (remote st) !! dataPath id = Some (File payload t) ->
     JS.utf8_valid id = true -> includes ".bin" id = false -> id ∈ l)
  /\ (forall a, a ∈ l ->
        exists p content t,
          resources (remote st) !! p = Some (File content t)
          /\ dir_of p = "/ztools-sync/attachments" /\ JS.endsWith p ".bin" = true
          /\ JS.decodeURIComponent (JS.replace ".bin" "" (base_of p)) = Some a
          /\ forall id, p <> metaPath id /\ p <> docPath id).
Proof.
  intros Hc Ha Hp. rewrite (listRemoteAttachments_runs st c Hc Ha Hp). cbn [fst].
  intros (_ & H1 & H2)%map_throwing_Ok. split.
  - intros id payload t Hf Hu Hi.
    destruct (H1 (stat_of (dataPath id) (File payload t))) as (y & Hy & Hin).
    { apply in_listed; [done|apply dir_of_dataPath|].
      cbn [stat_of filename is_file type]. by rewrite endsWith_dataPath. }
    cbn [stat_of basename] in Hy.
    rewrite base_of_dataPath, replace_extension in Hy; [|done|by rewrite includes_encode].
    unfold decode_or_throw in Hy. rewrite decode_encode in Hy by done.
    by injection Hy as <-.
  - intros a Hin.
    destruct (H2 a Hin) as (s & (p & r & Hf & Hd & -> & HP)%listed_in & Hs).
    cbn [stat_of filename basename is_file type] in HP, Hs.
    destruct r as [content t|]; [|done]. cbn [andb] in HP.
    unfold decode_or_throw in Hs.
    destruct (JS.decodeURIComponent (JS.replace ".bin" "" (base_of p))) as [d|] eqn:Ed;
      [|done].
    injection Hs as <-. exists p, content, t. repeat split; try done.
    + intros ->. by rewrite endsWith_metaPath in HP.
    + intros ->. by rewrite dir_of_docPath in Hd.
Qed.

Lemma attachments_listing_reports_payloads_witness :
  "icon" ∈ ["icon"].
Proof.
  destruct (attachments_listing_reports_payloads with_icon (handle sample_config) ["icon"])
    as [H _]; [reflexivity|reflexivity|reflexivity|vm_compute; reflexivity|].
  apply (H "icon" "PNG-bytes" 1700000000000%Z); vm_compute; reflexivity.
Defined.

(** X19: the listing of the attachments strips the first [.bin] of the
    file name, not the extension.  The attachment stored under the id
    [a.bin b] (with no [.bin] in [a]) is reported under the id
    [a b.bin]. *)
Theorem attachments_listing_moves_bin st c a b payload t l :
  client st = Some c -> answered 1 st ->
  present (resources (remote st)) "/ztools-sync/attachments" = true ->
  resources (remote st) !! dataPath (a +:+ ".bin" +:+ b) = Some (File payload t) ->
  includes ".bin" a = false -> JS.utf8_valid (a +:+ b +:+ ".bin") = true ->
  fst (listRemoteAttachments st) = Ok l ->
  (a +:+ b +:+ ".bin") ∈ l.
Proof.
  intros Hc Ha Hp Hf Hi Hu. rewrite (listRemoteAttachments_runs st c Hc Ha Hp). cbn [fst].
  intros (_ & H & _)%map_throwing_Ok.
  destruct (H (stat_of (dataPath (a +:+ ".bin" +:+ b)) (File payload t))) as (y & Hy & Hin).
  { apply in_listed; [done|apply dir_of_dataPath|].
    cbn [stat_of filename is_file type]. by rewrite endsWith_dataPath. }
  cbn [stat_of basename] in Hy. rewrite base_of_dataPath, !encode_app in Hy.
  change (JS.encodeURIComponent ".bin") with ".bin" in Hy.
  rewrite !app_assoc_s in Hy.
  change (".bin" +:+ JS.encodeURIComponent b +:+ ".bin")
    with (String "." ("bin" +:+ (JS.encodeURIComponent b +:+ ".bin"))) in Hy.
  rewrite replace_first in Hy; [|done|by rewrite includes_encode].
  change ".bin" with (JS.encodeURIComponent ".bin") in Hy at 1.
  rewrite <- !encode_app in Hy.
  unfold decode_or_throw in Hy. rewrite decode_encode in Hy by done.
  by injection Hy as <-.
Qed.

Lemma attachments_listing_moves_bin_witness :
  "logo.v2.bin" ∈ ["logo.v2.bin"].
Proof.
  apply (attachments_listing_moves_bin
           (snd (uploadAttachment "logo.bin.v2" "bytes" None (after_init [])))
           (handle sample_config) "logo" ".v2" "bytes" 1700000000000%Z);
    vm_compute; reflexivity.
Defined.

(** ** The connection test *)

(** X20: with the handle set, [testConnection] sends one request, the
    listing of the root, and either returns [true] or throws the
    connection error that wraps what the transport threw: it never
    returns [false] and never throws anything else. *)
Theorem testConnection_true_or_wrapped st c :
  client st = Some c ->
  testConnection st
  = (match next_fault (remote st) with
     | Some e => Err (ConnectionFailed e)
     | None => Ok true
     end,
     on_remote (sent (ReqList "/")) st).
Proof.
  intros Hc. destruct (next_fault (remote st)) as [e|] eqn:E.
  - by apply (testConnection_failed st c).
  - by apply (testConnection_answered st c), next_fault_answered.
Qed.

Lemma testConnection_true_or_wrapped_witness :
  fst (testConnection full_disk) = Err (ConnectionFailed (HttpError 507))
  /\ fst (testConnection with_icon) = Ok true.
Proof.
  rewrite (testConnection_true_or_wrapped full_disk (handle sample_config) eq_refl).
  rewrite (testConnection_true_or_wrapped with_icon (handle sample_config) eq_refl).
  split; reflexivity.
Defined.

End ClientProperties.
